(** * Strike and orientation compliance engine of the Scientific Department bot

    A shallow embedding of the parts of [main.py] that keep the strike
    ledger, run the weekly quota evaluation, drive the orientation deadline
    poll and authenticate the session webhook, followed by the properties
    proved about them.

    Conventions of the embedding.
    - The PostgreSQL tables are fields of [Store]: a table with a primary key
      is a [gmap] from that key, the [strikes] table (SERIAL key, read with
      ORDER BY and COUNT) is a list of rows together with its sequence.
    - A coroutine is a state transformer over [RunState]: the store, the
      number of clock readings and of SQL statements made so far, and the
      trace of calls to the outside world (Discord, the removal service).
    - What the outside world answers is read from [Env]: the clock, the
      guilds, the configuration constants and the outcome of each send, kick
      and HTTP post.  Store statements and channel posts are taken to
      succeed; the failures that the source catches (direct messages, kicks,
      the removal service) are outcomes of [Env].  Two statements are
      modelled with the refusal of the database ([sql_try]): the addition to
      the INT column [roblox_time.time_spent] and the insertion under the
      UNIQUE constraint of [roblox_verification.roblox_id].
    - [utcnow ()] readings that only stamp an embed are not counted.

    Besides these, the file embeds the text helpers ([human_remaining],
    [smart_chunk], [_normalize_base]) over lists of code points, the account
    link written by [/verify], and, in the module [Tasks], the commands that
    log tasks, with tables and a state of their own in which every clock
    reading is counted. *)

From stdpp Require Import gmap strings pretty list fin_maps sorting.
From Stdlib Require Import ZArith Lia.

Local Open Scope Z_scope.

(** ** Time

    A [datetime] is the number of microseconds since the epoch and a
    [timedelta] a number of microseconds. *)

Definition seconds (n : Z) : Z := n * 1000000.
Definition hours (n : Z) : Z := seconds (n * 3600).
Definition days (n : Z) : Z := seconds (n * 86400).

(** [datetime.weekday ()]: Monday is 0 and Sunday is 6; the epoch was a
    Thursday. *)
Definition weekday (t : Z) : Z := (Z.div t (days 1) + 3) mod 7.

(** ** Rows and tables *)

Record Strike := {
  strike_id : Z;
  member_id : Z;
  reason : string;
  issued_at : Z;
  expires_at : Z;
  set_by : option Z;
  auto : bool
}.

Record Orientation := {
  assigned_at : option Z;
  deadline : option Z;
  passed : bool;
  passed_at : option Z;
  warned_5d : bool;
  expired_handled : bool
}.

Record Excuse := {
  ex_reason : string;
  ex_set_by : Z;
  ex_set_at : Z
}.

Record Store := {
  weekly_tasks : gmap Z Z;             (* member_id -> tasks_completed *)
  weekly_task_logs : list (Z * string);(* member_id, task_type *)
  roblox_verification : gmap Z Z;      (* discord_id -> roblox_id *)
  roblox_time : gmap Z Z;              (* member_id -> time_spent, seconds *)
  roblox_sessions : gmap Z Z;          (* roblox_id -> start_time *)
  orientations : gmap Z Orientation;   (* discord_id -> record *)
  strikes : list Strike;
  strikes_seq : Z;                     (* next value of the SERIAL key *)
  activity_excuses : gmap string Excuse(* week_key -> excuse *)
}.

Definition with_strikes (l : list Strike) (seq : Z) (d : Store) : Store :=
  {| weekly_tasks := weekly_tasks d; weekly_task_logs := weekly_task_logs d;
     roblox_verification := roblox_verification d; roblox_time := roblox_time d;
     roblox_sessions := roblox_sessions d; orientations := orientations d;
     strikes := l; strikes_seq := seq;
     activity_excuses := activity_excuses d |}.

Definition with_orientations (o : gmap Z Orientation) (d : Store) : Store :=
  {| weekly_tasks := weekly_tasks d; weekly_task_logs := weekly_task_logs d;
     roblox_verification := roblox_verification d; roblox_time := roblox_time d;
     roblox_sessions := roblox_sessions d; orientations := o;
     strikes := strikes d; strikes_seq := strikes_seq d;
     activity_excuses := activity_excuses d |}.

Definition with_excuses (e : gmap string Excuse) (d : Store) : Store :=
  {| weekly_tasks := weekly_tasks d; weekly_task_logs := weekly_task_logs d;
     roblox_verification := roblox_verification d; roblox_time := roblox_time d;
     roblox_sessions := roblox_sessions d; orientations := orientations d;
     strikes := strikes d; strikes_seq := strikes_seq d;
     activity_excuses := e |}.

Definition with_sessions (s : gmap Z Z) (t : gmap Z Z) (d : Store) : Store :=
  {| weekly_tasks := weekly_tasks d; weekly_task_logs := weekly_task_logs d;
     roblox_verification := roblox_verification d; roblox_time := t;
     roblox_sessions := s; orientations := orientations d;
     strikes := strikes d; strikes_seq := strikes_seq d;
     activity_excuses := activity_excuses d |}.

(** ** The outside world *)

Record Member := {
  m_id : Z;
  m_bot : bool;
  m_roles : list Z
}.

Record Guild := {
  g_members : list Member;
  g_roles : list Z
}.

(** What a direct message says, and why a member is kicked. *)
Inductive Notice :=
  | NoticeStrike (active expires : Z)
  | NoticeThreeStrikes
  | NoticeOrientationExpired.

Inductive KickReason :=
  | KickThreeStrikes
  | KickOrientationExpired.

(** The weekly report: the week, the excuse reason when one applies, and the
    three buckets with the figures printed for each member.  The embed text
    is a rendering of these five components. *)
Record Report := {
  r_week : string;
  r_excuse : option string;
  r_met : list (Member * Z);
  r_not_met : list (Member * Z * Z * Z);
  r_zero : list (Member * Z)
}.

Inductive Event :=
  | EvSend (member : Z) (n : Notice)        (* member.send (...) *)
  | EvRobloxPost (discord_id roblox_id : Z) (* one POST to the removal service *)
  | EvKick (member : Z) (why : KickReason)  (* member.kick (...) *)
  | EvLog (title : string) (about : option Z) (* log_action, channel present *)
  | EvAlert (member : Z) (remaining : Z)    (* orientation alert channel *)
  | EvReport (r : Report)                   (* weekly summary posted *)
  | EvActivity (joined : bool) (discord_id : Z).

Record Env := {
  clock : nat → Z;                    (* successive readings of utcnow () *)
  isocalendar : Z → Z * Z;            (* ISO year and ISO week of a datetime *)
  guilds : list Guild;                (* bot.guilds *)
  announcement_channel : option Guild;(* the guild of the channel, if found *)
  orientation_alert_channel : bool;
  command_log_channel : bool;
  activity_log_channel : bool;
  DEPARTMENT_ROLE_ID : option Z;
  SCIENTIFIC_TRAINEE_ROLE_ID : option Z;
  WEEKLY_REQUIREMENT : Z;
  WEEKLY_TIME_REQUIREMENT : Z;
  API_SECRET_KEY : option string;
  roblox_remove_configured : bool;    (* ROBLOX_REMOVE_URL and _SECRET set *)
  send_ok : Z → bool;                 (* does member.send succeed *)
  kick_ok : Z → bool;                 (* does member.kick succeed *)
  post_ok : Z → nat → bool            (* does the n-th POST attempt succeed *)
}.

(** ** Coroutines as state transformers *)

Record RunState := {
  db : Store;
  ticks : nat;
  sql_count : nat;
  trace : list Event
}.

Definition M (A : Type) : Type := RunState → A * RunState.

Definition ret {A} (a : A) : M A := λ st, (a, st).

Definition bind {A B} (c : M A) (k : A → M B) : M B :=
  λ st, let '(a, st1) := c st in k a st1.

Notation "x <~ c ;; k" := (bind c (λ x, k))
  (at level 100, c at next level, right associativity,
   format "'[v' x  <~  c  ;;  '/' k ']'").
Notation "c ;;; k" := (bind c (λ _, k))
  (at level 100, right associativity,
   format "'[v' c  ;;;  '/' k ']'").

(** [await conn.execute (...)]: one statement that changes the store. *)
Definition sql_exec (f : Store → Store) : M unit :=
  λ st, (tt, {| db := f (db st); ticks := ticks st;
                sql_count := S (sql_count st); trace := trace st |}).

(** [await conn.fetch (...)], [fetchrow], [fetchval]: one statement that reads. *)
Definition sql_query {A} (f : Store → A) : M A :=
  λ st, (f (db st), {| db := db st; ticks := ticks st;
                       sql_count := S (sql_count st); trace := trace st |}).

(** A statement that the database may refuse: [f] gives [None] when it
    raises, and the store is then as it was. *)
Definition sql_try (f : Store → option Store) : M bool :=
  λ st, match f (db st) with
        | Some d => (true, {| db := d; ticks := ticks st;
                              sql_count := S (sql_count st);
                              trace := trace st |})
        | None => (false, {| db := db st; ticks := ticks st;
                             sql_count := S (sql_count st);
                             trace := trace st |})
        end.

Definition emit (e : Event) : M unit :=
  λ st, (tt, {| db := db st; ticks := ticks st;
                sql_count := sql_count st; trace := trace st ++ [e] |}).

(** [for x in l: body x]. *)
Fixpoint for_each {A} (l : list A) (body : A → M unit) : M unit :=
  match l with
  | [] => ret tt
  | x :: l' => body x ;;; for_each l' body
  end.

(** Python truthiness of [int | None] and of [str | None]. *)
Definition truthy_id (o : option Z) : bool :=
  match o with Some n => negb (n =? 0) | None => false end.

Definition truthy_str (o : option string) : bool :=
  match o with Some s => negb (String.eqb s "") | None => false end.

(** ** Ledger queries *)

(** [WHERE member_id = $1 AND expires_at > $2]. *)
Definition is_active (mid now : Z) (s : Strike) : bool :=
  (member_id s =? mid) && (now <? expires_at s).

(** The rows that satisfy it. *)
Definition active_rows (mid now : Z) (d : Store) : list Strike :=
  filter (λ s, is_active mid now s = true) (strikes d).

(** [SELECT COUNT( * ) FROM strikes WHERE member_id = $1 AND expires_at > $2]. *)
Definition active_count (mid now : Z) (d : Store) : Z :=
  Z.of_nat (length (active_rows mid now d)).

(** [INSERT INTO strikes (...) VALUES (...)]: the key comes from the sequence. *)
Definition insert_strike (mid : Z) (why : string) (now expires : Z)
    (by_ : option Z) (auto_ : bool) (d : Store) : Store :=
  with_strikes
    (strikes d ++ [{| strike_id := strikes_seq d; member_id := mid;
                      reason := why; issued_at := now; expires_at := expires;
                      set_by := by_; auto := auto_ |}])
    (strikes_seq d + 1) d.

(** [ORDER BY expires_at ASC]. *)
Definition expires_le (a b : Strike) : Prop := expires_at a ≤ expires_at b.

#[global] Instance expires_le_dec : RelDecision expires_le.
Proof. intros a b. unfold expires_le. apply _. Defined.

(** [SELECT strike_id ... WHERE member_id = $1 AND expires_at > $2
     ORDER BY expires_at ASC LIMIT $3]. *)
Definition soonest_active (mid now count : Z) (d : Store) : list Strike :=
  take (Z.to_nat count) (merge_sort expires_le (active_rows mid now d)).

(** [DELETE FROM strikes WHERE strike_id = ANY ($1)]. *)
Definition delete_strikes (ids : list Z) (d : Store) : Store :=
  with_strikes (filter (λ s, strike_id s ∉ ids) (strikes d)) (strikes_seq d) d.

Section Model.

Variable env : Env.

Definition utcnow : M Z :=
  λ st, (clock env (ticks st),
         {| db := db st; ticks := S (ticks st);
            sql_count := sql_count st; trace := trace st |}).

(** [week_key]: the ISO year, "-W" and the ISO week on two digits. *)
Definition week_key (dt : Z) : string :=
  let iso := isocalendar env dt in
  pretty iso.1 +:+ "-W" +:+ (if iso.2 <? 10 then "0" else "") +:+ pretty iso.2.

(** [about] is the member the description mentions, if it mentions one. *)
Definition log_action (title : string) (about : option Z) : M unit :=
  if command_log_channel env then emit (EvLog title about) else ret tt.

(** [member.send (...)] inside [try: ... except: pass]. *)
Definition send_notice (mid : Z) (n : Notice) : M bool :=
  emit (EvSend mid n) ;;; ret (send_ok env mid).

(** [member.kick (...)] inside [try: ... except Exception]. *)
Definition kick (mid : Z) (why : KickReason) : M bool :=
  emit (EvKick mid why) ;;; ret (kick_ok env mid).

Definition get_member (g : Guild) (mid : Z) : option Member :=
  find (λ m, m_id m =? mid) (g_members g).

Fixpoint find_member_in (gs : list Guild) (discord_id : Z) : option Member :=
  match gs with
  | [] => None
  | g :: gs' =>
      match get_member g discord_id with
      | Some m => Some m
      | None => find_member_in gs' discord_id
      end
  end.

Definition find_member (discord_id : Z) : option Member :=
  find_member_in (guilds env) discord_id.

(** [_retry (do_post)]: up to [attempts] posts, stopping at the first that
    succeeds; [i] is the index of the next attempt. *)
Fixpoint retry_post (discord_id roblox_id : Z) (attempts : nat) (i : nat)
    : M bool :=
  match attempts with
  | O => ret false
  | S k =>
      emit (EvRobloxPost discord_id roblox_id) ;;;
      if post_ok env roblox_id i then ret true
      else retry_post discord_id roblox_id k (S i)
  end.

Definition try_remove_from_roblox (discord_id : Z) : M bool :=
  if negb (roblox_remove_configured env) then ret false
  else
    roblox_id <~ sql_query (λ d, roblox_verification d !! discord_id) ;;
    if truthy_id roblox_id
    then retry_post discord_id (default 0 roblox_id) 3 0
    else ret false.

(** ** Strike ledger *)

(** [issue_strike], with [other] standing for the statements that other
    coroutines commit while this one is suspended between its INSERT and its
    COUNT: the connection is used in autocommit, no [conn.transaction ()] is
    opened around the two statements. *)
Definition issue_strike_racing (other : M unit) (member : Member)
    (why : string) (by_ : option Z) (auto_ : bool) : M Z :=
  now <~ utcnow ;;
  let expires := now + days 90 in
  sql_exec (insert_strike (m_id member) why now expires by_ auto_) ;;;
  other ;;;
  active <~ sql_query (active_count (m_id member) now) ;;
  send_notice (m_id member) (NoticeStrike active expires) ;;;
  log_action "Strike Issued" (Some (m_id member)) ;;;
  ret active.

(** [issue_strike] when nothing else touches the store meanwhile. *)
Definition issue_strike (member : Member) (why : string) (by_ : option Z)
    (auto_ : bool) : M Z :=
  issue_strike_racing (ret tt) member why by_ auto_.

Definition enforce_three_strikes (member : Member) : M unit :=
  send_notice (m_id member) NoticeThreeStrikes ;;;
  roblox_removed <~ try_remove_from_roblox (m_id member) ;;
  kicked <~ kick (m_id member) KickThreeStrikes ;;
  log_action "Three-Strike Removal" (Some (m_id member)).

(** [/strikes_add]; [issuer] is [interaction.user.id]. *)
Definition strikes_add (issuer : Z) (member : Member) (why : string) : M Z :=
  active_after <~ issue_strike member why (Some issuer) false ;;
  (if 3 <=? active_after then enforce_three_strikes member else ret tt) ;;;
  ret active_after.

(** What [/strikes_remove] answers. *)
Inductive RemoveReply :=
  | NoActiveStrikes
  | Removed (removed : Z) (remaining : Z).

Definition strikes_remove (member : Member) (count : Z) : M RemoveReply :=
  now <~ utcnow ;;
  rows <~ sql_query (soonest_active (m_id member) now count) ;;
  match rows with
  | [] => ret NoActiveStrikes
  | _ =>
      let ids := strike_id <$> rows in
      sql_exec (delete_strikes ids) ;;;
      remaining <~ sql_query (active_count (m_id member) now) ;;
      log_action "Strikes Removed" (Some (m_id member)) ;;;
      ret (Removed (Z.of_nat (length ids)) remaining)
  end.

(** ** Weekly activity excuses *)

(** [str.upper ()] on text of ASCII characters, which week keys are: the
    letters a to z are mapped and every other byte is left as it is. *)
Definition upper_ascii (c : Ascii.ascii) : Ascii.ascii :=
  let n := Ascii.nat_of_ascii c in
  if (97 <=? n)%nat && (n <=? 122)%nat then Ascii.ascii_of_nat (n - 32) else c.

Fixpoint upper (s : string) : string :=
  match s with
  | EmptyString => EmptyString
  | String c s' => String (upper_ascii c) (upper s')
  end.

Inductive ExcuseReply :=
  | BadAction
  | ReasonRequired
  | ExcuseSet (wk : string)
  | ExcuseCleared (wk : string).

(** [/activityexcuse]; [user] is [interaction.user.id]. *)
Definition activityexcuse (user : Z) (action : string) (week : option string)
    (why : option string) : M ExcuseReply :=
  wk <~ (if truthy_str week then ret (upper (default "" week))
         else (now <~ utcnow ;; ret (upper (week_key now)))) ;;
  if negb (String.eqb action "set" || String.eqb action "clear")
  then ret BadAction
  else if String.eqb action "set" then
    if negb (truthy_str why) then ret ReasonRequired
    else
      set_at <~ utcnow ;;
      sql_exec (λ d, with_excuses
        (<[wk := {| ex_reason := default "" why; ex_set_by := user;
                    ex_set_at := set_at |}]> (activity_excuses d)) d) ;;;
      log_action "Activity Excuse Set" None ;;;
      ret (ExcuseSet wk)
  else
    sql_exec (λ d, with_excuses (delete wk (activity_excuses d)) d) ;;;
    log_action "Activity Excuse Cleared" None ;;;
    ret (ExcuseCleared wk).

(** ** Weekly evaluation *)

Definition get_role (g : Guild) (rid : option Z) : option Z :=
  match rid with
  | Some r => if bool_decide (r ∈ g_roles g) then Some r else None
  | None => None
  end.

(** [role.members]. *)
Definition role_members (g : Guild) (r : Z) : list Member :=
  filter (λ m, r ∈ m_roles m) (g_members g).

(** [{m.id for m in dept_role.members if not m.bot}]. *)
Definition roster (g : Guild) (r : Z) : gset Z :=
  list_to_set (m_id <$> filter (λ m, m_bot m = false) (role_members g r)).

(** [SELECT member_id, COUNT( * ) FROM strikes WHERE expires_at > $1
     GROUP BY member_id], as a dictionary. *)
Definition strike_counts_at (now : Z) (d : Store) : gmap Z Z :=
  foldr (λ s m, <[member_id s := default 0 (m !! member_id s) + 1]> m) ∅
    (filter (λ s, (now <? expires_at s) = true) (strikes d)).

Definition MetRow : Type := Member * Z.
Definition NotMetRow : Type := Member * Z * Z * Z.

(** The quota test of the evaluation loop. *)
Definition meets_quota (tasks_done time_done_minutes : Z) : bool :=
  (WEEKLY_REQUIREMENT env <=? tasks_done)
  && (WEEKLY_TIME_REQUIREMENT env <=? time_done_minutes).

(** One turn of [for member_id in considered_ids]. *)
Definition classify_member (guild : Guild) (tasks_map time_map sc_map : gmap Z Z)
    (acc : list MetRow * list NotMetRow) (mid : Z)
    : list MetRow * list NotMetRow :=
  match get_member guild mid with
  | None => acc
  | Some member =>
      let tasks_done := default 0 (tasks_map !! mid) in
      let time_done_minutes := Z.div (default 0 (time_map !! mid)) 60 in
      let sc := default 0 (sc_map !! mid) in
      if meets_quota tasks_done time_done_minutes
      then (acc.1 ++ [(member, sc)], acc.2)
      else (acc.1, acc.2 ++ [(member, tasks_done, time_done_minutes, sc)])
  end.

(** One turn of [for mid in zero_ids]. *)
Definition classify_zero (guild : Guild) (sc_map : gmap Z Z)
    (acc : list MetRow) (mid : Z) : list MetRow :=
  match get_member guild mid with
  | Some member => acc ++ [(member, default 0 (sc_map !! mid))]
  | None => acc
  end.

Record Buckets := {
  met : list MetRow;
  not_met : list NotMetRow;
  zero : list MetRow
}.

Definition classify (guild : Guild) (dept_member_ids : gset Z)
    (all_tasks all_time sc_map : gmap Z Z) : Buckets :=
  let tasks_map := filter (λ kv, kv.1 ∈ dept_member_ids) all_tasks in
  let time_map := filter (λ kv, kv.1 ∈ dept_member_ids) all_time in
  let considered_ids : gset Z := dom tasks_map ∪ dom time_map in
  let mn := foldl (classify_member guild tasks_map time_map sc_map) ([], [])
              (elements considered_ids) in
  let zero_ids := dept_member_ids ∖ considered_ids in
  {| met := mn.1; not_met := mn.2;
     zero := foldl (classify_zero guild sc_map) [] (elements zero_ids) |}.

(** The body of the [try] in the strike pass. *)
Definition weekly_strike_flow (row : NotMetRow) : M unit :=
  let m := row.1.1.1 in
  active_after <~ issue_strike m "Missed weekly quota" None true ;;
  if 3 <=? active_after then enforce_three_strikes m else ret tt.

(** [if not excused_reason: for m, t, mins, _sc in not_met + [(m, 0, 0, sc)
     for m, sc in zero]: ...]. *)
Definition strike_rows (b : Buckets) : list NotMetRow :=
  not_met b ++ ((λ r : MetRow, (r.1, 0, 0, r.2)) <$> zero b).

Definition weekly_strike_pass (excused_reason : option string) (b : Buckets)
    : M unit :=
  if negb (truthy_str excused_reason)
  then for_each (strike_rows b) weekly_strike_flow
  else ret tt.

(** [TRUNCATE TABLE weekly_tasks, weekly_task_logs, roblox_time,
     roblox_sessions]. *)
Definition reset_weekly_tables (d : Store) : Store :=
  {| weekly_tasks := ∅; weekly_task_logs := [];
     roblox_verification := roblox_verification d; roblox_time := ∅;
     roblox_sessions := ∅; orientations := orientations d;
     strikes := strikes d; strikes_seq := strikes_seq d;
     activity_excuses := activity_excuses d |}.

(** Where a run of [check_weekly_tasks] returns. *)
Inductive WeeklyOutcome :=
  | NotSunday
  | NoAnnouncementChannel
  | NoDepartmentRole
  | WeeklyDone.

Definition check_weekly_tasks : M WeeklyOutcome :=
  today <~ utcnow ;;
  if negb (weekday today =? 6) then ret NotSunday
  else
    wk_now <~ utcnow ;;
    let wk := week_key wk_now in
    is_excused_row <~ sql_query (λ d, activity_excuses d !! wk) ;;
    let excused_reason := ex_reason <$> is_excused_row in
    match announcement_channel env with
    | None => ret NoAnnouncementChannel
    | Some guild =>
        match get_role guild (DEPARTMENT_ROLE_ID env) with
        | None => ret NoDepartmentRole
        | Some dept_role =>
            let dept_member_ids := roster guild dept_role in
            all_tasks <~ sql_query weekly_tasks ;;
            all_time <~ sql_query roblox_time ;;
            count_now <~ utcnow ;;
            sc_map <~ sql_query (strike_counts_at count_now) ;;
            let b := classify guild dept_member_ids all_tasks all_time sc_map in
            emit (EvReport
                    {| r_week := wk;
                       r_excuse := if truthy_str excused_reason
                                   then excused_reason else None;
                       r_met := met b; r_not_met := not_met b;
                       r_zero := zero b |}) ;;;
            weekly_strike_pass excused_reason b ;;;
            sql_exec reset_weekly_tables ;;;
            ret WeeklyDone
        end
    end.

(** ** Orientation *)

Definition has_role (rid : option Z) (m : Member) : bool :=
  match rid with
  | Some r => bool_decide (r ∈ m_roles m)
  | None => false
  end.

Definition new_orientation (assigned : Z) : Orientation :=
  {| assigned_at := Some assigned; deadline := Some (assigned + days 14);
     passed := false; passed_at := None;
     warned_5d := false; expired_handled := false |}.

(** [INSERT INTO orientations ... ON CONFLICT (discord_id) DO NOTHING]. *)
Definition insert_orientation_or_nothing (mid : Z) (o : Orientation)
    (d : Store) : Store :=
  match orientations d !! mid with
  | Some _ => d
  | None => with_orientations (<[mid := o]> (orientations d)) d
  end.

(** [INSERT INTO orientations ...] of [ensure_orientation_record]. *)
Definition insert_orientation (mid : Z) (o : Orientation) (d : Store) : Store :=
  with_orientations (<[mid := o]> (orientations d)) d.

Definition on_member_update (before after : Member) : M unit :=
  let trainee := SCIENTIFIC_TRAINEE_ROLE_ID env in
  if truthy_id trainee && negb (has_role trainee before)
     && has_role trainee after
  then
    assigned <~ utcnow ;;
    sql_exec (insert_orientation_or_nothing (m_id after)
                (new_orientation assigned)) ;;;
    log_action "Orientation Assigned" (Some (m_id after))
  else ret tt.

Definition ensure_orientation_record (member : Member) : M unit :=
  row <~ sql_query (λ d, orientations d !! m_id member) ;;
  match row with
  | Some _ => ret tt
  | None =>
      let trainee := SCIENTIFIC_TRAINEE_ROLE_ID env in
      if truthy_id trainee && has_role trainee member
      then
        assigned <~ utcnow ;;
        sql_exec (insert_orientation (m_id member) (new_orientation assigned))
      else ret tt
  end.

(** The upsert of [/passedorientation]. *)
Definition mark_passed (mid : Z) (at_ : Z) (d : Store) : Store :=
  with_orientations
    (match orientations d !! mid with
     | Some o =>
         <[mid := {| assigned_at := assigned_at o; deadline := deadline o;
                     passed := true; passed_at := Some at_;
                     warned_5d := true; expired_handled := true |}]>
           (orientations d)
     | None =>
         <[mid := {| assigned_at := Some at_; deadline := Some (at_ + days 14);
                     passed := true; passed_at := Some at_;
                     warned_5d := true; expired_handled := true |}]>
           (orientations d)
     end) d.

Definition passedorientation (member : Member) : M unit :=
  assigned <~ utcnow ;;
  sql_exec (mark_passed (m_id member) assigned) ;;;
  log_action "Orientation Passed" (Some (m_id member)).

(** [UPDATE orientations SET deadline = $1 WHERE discord_id = $2]. *)
Definition set_deadline (mid : Z) (dl : Z) (d : Store) : Store :=
  with_orientations
    (alter (λ o, {| assigned_at := assigned_at o; deadline := Some dl;
                    passed := passed o; passed_at := passed_at o;
                    warned_5d := warned_5d o;
                    expired_handled := expired_handled o |}) mid
       (orientations d)) d.

Inductive ExtendReply :=
  | NoOrientationRecord
  | AlreadyPassed
  | Extended (new_deadline : Z).

Definition extendorientation (member : Member) (ndays : Z) : M ExtendReply :=
  ensure_orientation_record member ;;;
  row <~ sql_query (λ d, orientations d !! m_id member) ;;
  match row with
  | None => ret NoOrientationRecord
  | Some o =>
      if passed o then ret AlreadyPassed
      else
        base <~ match deadline o with
                | Some dl => ret dl
                | None => utcnow
                end ;;
        let new_deadline := base + days ndays in
        sql_exec (set_deadline (m_id member) new_deadline) ;;;
        log_action "Orientation Deadline Extended" (Some (m_id member)) ;;;
        ret (Extended new_deadline)
  end.

(** [UPDATE orientations SET warned_5d = TRUE WHERE discord_id = $1]. *)
Definition set_warned_5d (mid : Z) (d : Store) : Store :=
  with_orientations
    (alter (λ o, {| assigned_at := assigned_at o; deadline := deadline o;
                    passed := passed o; passed_at := passed_at o;
                    warned_5d := true;
                    expired_handled := expired_handled o |}) mid
       (orientations d)) d.

(** [UPDATE orientations SET expired_handled = TRUE WHERE discord_id = $1]. *)
Definition set_expired_handled (mid : Z) (d : Store) : Store :=
  with_orientations
    (alter (λ o, {| assigned_at := assigned_at o; deadline := deadline o;
                    passed := passed o; passed_at := passed_at o;
                    warned_5d := warned_5d o;
                    expired_handled := true |}) mid
       (orientations d)) d.

(** The 5-day warning of one row. *)
Definition warn_row (alert_channel : bool) (discord_id remaining : Z)
    (warned : bool) : M unit :=
  if negb warned && (days 4 + hours 23 <=? remaining)
     && (remaining <=? days 5 + hours 1)
  then
    if alert_channel then
      match find_member discord_id with
      | Some member =>
          emit (EvAlert (m_id member) remaining) ;;;
          sql_exec (set_warned_5d discord_id)
      | None => ret tt
      end
    else ret tt
  else ret tt.

(** The overdue enforcement of one row. *)
Definition expire_row (discord_id remaining : Z) (handled : bool) : M unit :=
  if (remaining <=? 0) && negb handled
  then
    match find_member discord_id with
    | Some member =>
        send_notice (m_id member) NoticeOrientationExpired ;;;
        roblox_removed <~ try_remove_from_roblox discord_id ;;
        kicked <~ kick (m_id member) KickOrientationExpired ;;
        log_action "Orientation Expiry Enforced" (Some discord_id) ;;;
        sql_exec (set_expired_handled discord_id)
    | None => ret tt
    end
  else ret tt.

(** One turn of [for r in rows]; the row is the one read before the loop. *)
Definition poll_row (alert_channel : bool) (now : Z) (r : Z * Orientation)
    : M unit :=
  match deadline r.2 with
  | None => ret tt
  | Some dl =>
      let remaining := dl - now in
      warn_row alert_channel r.1 remaining (warned_5d r.2) ;;;
      expire_row r.1 remaining (expired_handled r.2)
  end.

(** [SELECT ... FROM orientations WHERE passed = FALSE]. *)
Definition pending_orientations (d : Store) : list (Z * Orientation) :=
  map_to_list (filter (λ kv, passed kv.2 = false) (orientations d)).

Definition orientation_reminder_loop : M unit :=
  let alert_channel := orientation_alert_channel env in
  rows <~ sql_query pending_orientations ;;
  match rows with
  | [] => ret tt
  | _ =>
      now <~ utcnow ;;
      for_each rows (poll_row alert_channel now)
  end.

(** ** Session webhook *)

Record Request := {
  header_secret : option string;  (* request.headers.get ("X-Secret-Key") *)
  body_roblox_id : option Z;      (* data.get ("robloxId") *)
  body_status : string            (* data.get ("status") *)
}.

(** What arrives at the route.  [Typed] is a request whose body
    [request.json ()] returns as an object with a [robloxId] that is missing
    or an integer the driver takes for a BIGINT parameter.  [Malformed] is
    any other request: [request.json ()], [data.get] or the encoding of
    [robloxId] for the first statement raises, before a statement is sent.
    A [status] that is no string is equal to neither "joined" nor "left", as
    any other string is. *)
Inductive Incoming :=
  | Typed (request : Request)
  | Malformed (header : option string).

Coercion Typed : Request >-> Incoming.

Definition header_of (incoming : Incoming) : option string :=
  match incoming with
  | Typed request => header_secret request
  | Malformed header => header
  end.

(** [SELECT discord_id FROM roblox_verification WHERE roblox_id = $1]. *)
Definition discord_of_roblox (roblox_id : option Z) (d : Store) : option Z :=
  match roblox_id with
  | None => None
  | Some r =>
      fst <$> find (λ kv : Z * Z, kv.2 =? r)
                (map_to_list (roblox_verification d))
  end.

Definition send_activity_embed (joined : bool) (discord_id : Z) : M unit :=
  if activity_log_channel env || command_log_channel env
  then emit (EvActivity joined discord_id) else ret tt.

(** The values of an INT column or parameter. *)
Definition fits_int4 (n : Z) : bool :=
  (-2147483648 <=? n) && (n <=? 2147483647).

(** [INSERT INTO roblox_time ... ON CONFLICT (member_id) DO UPDATE
     SET time_spent = roblox_time.time_spent + $2].  [time_spent] is INT: the
    statement raises, and gives [None], when the seconds or the new total do
    not fit. *)
Definition add_time (mid : Z) (secs : Z) (d : Store) : option Store :=
  let total := match roblox_time d !! mid with
               | Some t => t + secs
               | None => secs
               end in
  if fits_int4 secs && fits_int4 total
  then Some (with_sessions (roblox_sessions d)
               (<[mid := total]> (roblox_time d)) d)
  else None.

(** The handler of [POST /roblox], with the status the server answers: an
    exception that leaves the handler is answered with 500. *)
Definition roblox_handler (incoming : Incoming) : M Z :=
  if negb (bool_decide (header_of incoming = API_SECRET_KEY env))
  then ret 401
  else
    match incoming with
    | Malformed _ => ret 500
    | Typed request =>
        let roblox_id := body_roblox_id request in
        discord_id <~ sql_query (discord_of_roblox roblox_id) ;;
        if truthy_id discord_id then
          let did := default 0 discord_id in
          let rid := default 0 roblox_id in
          if String.eqb (body_status request) "joined" then
            start <~ utcnow ;;
            sql_exec (λ d, with_sessions (<[rid := start]> (roblox_sessions d))
                             (roblox_time d) d) ;;;
            send_activity_embed true did ;;;
            ret 200
          else if String.eqb (body_status request) "left" then
            session_start <~ sql_query (λ d, roblox_sessions d !! rid) ;;
            match session_start with
            | Some t0 =>
                sql_exec (λ d, with_sessions (delete rid (roblox_sessions d))
                                 (roblox_time d) d) ;;;
                t1 <~ utcnow ;;
                stored <~ sql_try (add_time did (Z.quot (t1 - t0) (seconds 1))) ;;
                if stored then
                  t2 <~ utcnow ;;
                  total_seconds <~ sql_query (λ d, roblox_time d !! did) ;;
                  send_activity_embed false did ;;;
                  ret 200
                else ret 500
            | None =>
                total_seconds <~ sql_query (λ d, roblox_time d !! did) ;;
                send_activity_embed false did ;;;
                ret 200
            end
          else ret 200
        else ret 200
    end.

End Model.

(** ** Helpers *)

(** [human_remaining]: days, hours and, below one day, minutes of a
    [timedelta]. *)
Definition human_remaining (delta : Z) : string :=
  if delta <=? 0 then "0d"
  else
    let days_ := delta `div` days 1 in
    let seconds_ := (delta `mod` days 1) `div` seconds 1 in
    let hours_ := seconds_ `div` 3600 in
    let mins := (seconds_ `mod` 3600) `div` 60 in
    let parts :=
      (if days_ =? 0 then [] else [pretty days_ +:+ "d"])
      ++ (if hours_ =? 0 then [] else [pretty hours_ +:+ "h"])
      ++ (if negb (mins =? 0) && (days_ =? 0) then [pretty mins +:+ "m"]
          else []) in
    match parts with
    | [] => "under 1m"
    | _ => String.concat " " parts
    end.

(** A [str] is its list of code points.  [str.isspace ()] of one code
    point. *)
Definition isspace (c : N) : bool :=
  ((9 <=? c) && (c <=? 13) || (28 <=? c) && (c <=? 32) || (c =? 133)
   || (c =? 160) || (c =? 5760) || (8192 <=? c) && (c <=? 8202)
   || (c =? 8232) || (c =? 8233) || (c =? 8239) || (c =? 8287)
   || (c =? 12288))%N.

(** [text.lstrip ()]. *)
Fixpoint lstrip (text : list N) : list N :=
  match text with
  | c :: text' => if isspace c then lstrip text' else text
  | [] => []
  end.

(** [text.rfind (c, 0, size)] for a one-character [c], when [len (text) >
    size]: the last index below [size] that holds [c]; [None] is -1. *)
Fixpoint rfind_from (c : N) (text : list N) (size i : nat) : option nat :=
  match size, text with
  | S size', x :: text' =>
      match rfind_from c text' size' (S i) with
      | Some j => Some j
      | None => if (x =? c)%N then Some i else None
      end
  | _, _ => None
  end.

Definition rfind (c : N) (text : list N) (size : nat) : option nat :=
  rfind_from c text size 0.

(** The loop of [smart_chunk]; [fuel] bounds the number of turns, and
    [None] means that it ran out. *)
Fixpoint smart_chunk_loop (fuel : nat) (size : nat) (text : list N)
    (chunks : list (list N)) : option (list (list N)) :=
  if (size <? length text)%nat then
    match fuel with
    | O => None
    | S fuel' =>
        let split_index :=
          match rfind 10 text size with
          | Some i => i
          | None =>
              match rfind 32 text size with
              | Some i => i
              | None => size
              end
          end in
        smart_chunk_loop fuel' size (lstrip (drop split_index text))
          (chunks ++ [take split_index text])
    end
  else Some (chunks ++ [text]).

Definition smart_chunk (fuel : nat) (text : list N) (size : nat)
    : option (list (list N)) :=
  smart_chunk_loop fuel size text [].

(** [s.lstrip (c)] and [s.rstrip (c)] for a one-character [c]. *)
Fixpoint lstrip_char (c : N) (s : list N) : list N :=
  match s with
  | x :: s' => if (x =? c)%N then lstrip_char c s' else s
  | [] => []
  end.

Definition rstrip_char (c : N) (s : list N) : list N :=
  reverse (lstrip_char c (reverse s)).

(** [s.strip ()]. *)
Definition strip (s : list N) : list N :=
  reverse (lstrip (reverse (lstrip s))).

Definition startswith (prefix s : list N) : bool :=
  bool_decide (prefix `prefix_of` s).

(** The code points of "http://" and of "https://". *)
Definition http_scheme : list N := [104; 116; 116; 112; 58; 47; 47]%N.
Definition https_scheme : list N := [104; 116; 116; 112; 115; 58; 47; 47]%N.

(** [_normalize_base]: 47 is the slash. *)
Definition _normalize_base (url : option (list N)) : option (list N) :=
  match url with
  | None | Some [] => None
  | Some url =>
      let u := strip url in
      if startswith http_scheme u || startswith https_scheme u
      then Some (rstrip_char 47 u)
      else Some (rstrip_char 47 (https_scheme ++ u))
  end.

(** ** Account links *)

(** What the user lookup of [/verify] answered: the status, and the first
    entry of [data] with its [id] and [name], if there is one. *)
Record Lookup := {
  resp_status : Z;
  resp_data : option (Z * string)
}.

Inductive VerifyReply :=
  | Verified (roblox_name : string)
  | UserNotFound
  | LookupFailed
  | UniqueViolation.

(** Another member already holds [roblox_id]: the [UNIQUE] constraint of
    [roblox_verification.roblox_id] refuses the statement. *)
Definition taken_by_other (user roblox_id : Z) (d : Store) : bool :=
  existsb (λ kv : Z * Z, negb (kv.1 =? user) && (kv.2 =? roblox_id))
    (map_to_list (roblox_verification d)).

(** [INSERT INTO roblox_verification ... ON CONFLICT (discord_id) DO UPDATE
     SET roblox_id = EXCLUDED.roblox_id]; [None] when the statement raises. *)
Definition upsert_verification (user roblox_id : Z) (d : Store)
    : option Store :=
  if taken_by_other user roblox_id d then None
  else Some {| weekly_tasks := weekly_tasks d;
               weekly_task_logs := weekly_task_logs d;
               roblox_verification := <[user := roblox_id]>
                                        (roblox_verification d);
               roblox_time := roblox_time d;
               roblox_sessions := roblox_sessions d;
               orientations := orientations d;
               strikes := strikes d; strikes_seq := strikes_seq d;
               activity_excuses := activity_excuses d |}.

(** [global_app_command_error]: an exception that leaves a slash command is
    logged, and the user is told that something went wrong. *)
Definition global_app_command_error (env : Env) : M unit :=
  log_action env "Slash Command Error" None.

(** [/verify]; [user] is [interaction.user.id].  The statement that raises
    ends the command and the exception reaches [global_app_command_error]. *)
Definition verify (env : Env) (user : Z) (resp : Lookup) : M VerifyReply :=
  if resp_status resp =? 200 then
    match resp_data resp with
    | Some (roblox_id, roblox_name) =>
        stored <~ sql_try (upsert_verification user roblox_id) ;;
        if stored then
          log_action env "Verification Linked" (Some user) ;;;
          ret (Verified roblox_name)
        else
          global_app_command_error env ;;;
          ret UniqueViolation
    | None => ret UserNotFound
    end
  else ret LookupFailed.

(** No two members are linked to the same account. *)
Definition links_unique (d : Store) : Prop :=
  ∀ i j r, roblox_verification d !! i = Some r →
           roblox_verification d !! j = Some r → i = j.

(** ** Task logs

    The commands that log tasks work on three tables of their own: the
    permanent [task_logs], the [weekly_task_logs] of the running week, and
    the counter [weekly_tasks] the weekly evaluation reads.  They are
    modelled with the full rows, every reading of the clock, and what is sent
    to the log channels. *)

Module Tasks.

Record TaskLog := {
  log_id : Z;
  member_id : Z;
  task : string;
  task_type : string;
  proof_url : option string;
  comments : string;
  timestamp : Z;
  sequence_no : option Z
}.

Record Tables := {
  task_logs : list TaskLog;
  task_logs_seq : Z;             (* next value of task_logs.log_id *)
  weekly_task_logs : list TaskLog;
  weekly_task_logs_seq : Z;      (* next value of weekly_task_logs.log_id *)
  weekly_tasks : gmap Z Z
}.

(** What is sent: the embed of [send_long_embed] that carries the first
    chunk, and the entries of [log_action]. *)
Inductive Sent :=
  | SentEmbed (member : Z) (task_type : string) (seq_no : option Z)
  | SentLog (title : string) (about : Z).

Record State := {
  db : Tables;
  ticks : nat;
  trace : list Sent
}.

Definition T (A : Type) : Type := State → A * State.

#[export] Instance T_ret : MRet T := λ A a st, (a, st).
#[export] Instance T_bind : MBind T :=
  λ A B k c st, let '(a, st1) := c st in k a st1.

Definition utcnow (env : Env) : T Z :=
  λ st, (clock env (ticks st),
         {| db := db st; ticks := S (ticks st); trace := trace st |}).

Definition query {A} (f : Tables → A) : T A := λ st, (f (db st), st).

Definition execute (f : Tables → Tables) : T unit :=
  λ st, (tt, {| db := f (db st); ticks := ticks st; trace := trace st |}).

Definition send (e : Sent) : T unit :=
  λ st, (tt, {| db := db st; ticks := ticks st; trace := trace st ++ [e] |}).

(** [log_action]: the embed carries [timestamp=utcnow ()]. *)
Definition log_action (env : Env) (title : string) (about : Z) : T unit :=
  if command_log_channel env
  then _ ← utcnow env; send (SentLog title about)
  else mret tt.

(** [send_long_embed]: [smart_chunk] always gives a first chunk, which is
    sent with [timestamp=utcnow ()]. *)
Definition send_long_embed (env : Env) (member : Z) (task_type : string)
    (seq_no : option Z) : T unit :=
  _ ← utcnow env; send (SentEmbed member task_type seq_no).

(** [task_type in TEST_TYPES]. *)
Definition in_test_types (task_type : string) : bool :=
  String.eqb task_type "Cross-Testing" || String.eqb task_type "Anomaly Testing".

(** [WHERE member_id=$1 AND task_type=$2]. *)
Definition of_type (m : Z) (ty : string) (r : TaskLog) : bool :=
  (member_id r =? m) && String.eqb (task_type r) ty.

(** [SELECT COUNT( * ) FROM task_logs WHERE member_id=$1 AND task_type=$2]. *)
Definition count_of_type (m : Z) (ty : string) (d : Tables) : Z :=
  Z.of_nat (length (filter (λ r, of_type m ty r = true) (task_logs d))).

Definition new_row (key m : Z) (ty : string) (proof : option string)
    (comments_ : string) (at_ : Z) (seq_no : option Z) : TaskLog :=
  {| log_id := key; member_id := m; task := ty; task_type := ty;
     proof_url := proof; comments := comments_; timestamp := at_;
     sequence_no := seq_no |}.

(** [INSERT INTO task_logs (...) VALUES (...)]. *)
Definition insert_task_log (m : Z) (ty : string) (proof : option string)
    (comments_ : string) (at_ : Z) (seq_no : option Z) (d : Tables) : Tables :=
  {| task_logs := task_logs d
                  ++ [new_row (task_logs_seq d) m ty proof comments_ at_ seq_no];
     task_logs_seq := task_logs_seq d + 1;
     weekly_task_logs := weekly_task_logs d;
     weekly_task_logs_seq := weekly_task_logs_seq d;
     weekly_tasks := weekly_tasks d |}.

(** [INSERT INTO weekly_task_logs (...) VALUES (...)]. *)
Definition insert_weekly_task_log (m : Z) (ty : string)
    (proof : option string) (comments_ : string) (at_ : Z)
    (seq_no : option Z) (d : Tables) : Tables :=
  {| task_logs := task_logs d; task_logs_seq := task_logs_seq d;
     weekly_task_logs :=
       weekly_task_logs d
       ++ [new_row (weekly_task_logs_seq d) m ty proof comments_ at_ seq_no];
     weekly_task_logs_seq := weekly_task_logs_seq d + 1;
     weekly_tasks := weekly_tasks d |}.

(** [INSERT INTO weekly_tasks (member_id, tasks_completed) VALUES ($1, $2)
     ON CONFLICT (member_id) DO UPDATE
     SET tasks_completed = weekly_tasks.tasks_completed + $2]. *)
Definition add_weekly_tasks (m n : Z) (d : Tables) : Tables :=
  {| task_logs := task_logs d; task_logs_seq := task_logs_seq d;
     weekly_task_logs := weekly_task_logs d;
     weekly_task_logs_seq := weekly_task_logs_seq d;
     weekly_tasks := <[m := match weekly_tasks d !! m with
                            | Some k => k + n
                            | None => n
                            end]> (weekly_tasks d) |}.

Inductive SubmitReply :=
  | LogChannelNotFound
  | TaskLogged (tasks_completed : option Z).

(** [LogTaskForm.on_submit]; [log_channel] tells whether
    [bot.get_channel (LOG_CHANNEL_ID)] finds the channel. *)
Definition on_submit (env : Env) (log_channel : bool) (m : Z)
    (ty proof comments_value : string) : T SubmitReply :=
  if negb log_channel then mret LogChannelNotFound
  else
    let comments_str :=
      if String.eqb comments_value "" then "No comments" else comments_value in
    seq_no ← (if in_test_types ty
              then current ← query (count_of_type m ty);
                   mret (Some (current + 1))
              else mret None);
    t1 ← utcnow env;
    execute (insert_task_log m ty (Some proof) comments_str t1 seq_no);;
    t2 ← utcnow env;
    execute (insert_weekly_task_log m ty (Some proof) comments_str t2 seq_no);;
    execute (add_weekly_tasks m 1);;
    tasks_completed ← query (λ d, weekly_tasks d !! m);
    send_long_embed env m ty seq_no;;
    log_action env "Task Logged" m;;
    mret (TaskLogged tasks_completed).

(** The numbers of a batch: [start_n + i for i in range (count)] for a
    numbered type, [None] for each row otherwise. *)
Definition batch_numbers (start_n : option Z) (count : Z) : list (option Z) :=
  match start_n with
  | Some n => (λ i, Some (n + Z.of_nat i)) <$> seq 0 (Z.to_nat count)
  | None => replicate (Z.to_nat count) None
  end.

(** [executemany]: the rows are inserted in order. *)
Definition insert_task_logs (m : Z) (ty : string) (proof : option string)
    (comments_ : string) (at_ : Z) (numbers : list (option Z)) (d : Tables)
    : Tables :=
  foldl (λ d' n, insert_task_log m ty proof comments_ at_ n d') d numbers.

Definition insert_weekly_task_logs (m : Z) (ty : string)
    (proof : option string) (comments_ : string) (at_ : Z)
    (numbers : list (option Z)) (d : Tables) : Tables :=
  foldl (λ d' n, insert_weekly_task_log m ty proof comments_ at_ n d') d
    numbers.

Inductive AddReply :=
  | TasksAdded (start_n : option Z).

(** [/addtask]; the reply lists the totals, which are read and not stored. *)
Definition addtask (env : Env) (m : Z) (ty : string) (count : Z)
    (comments_ proof : option string) : T AddReply :=
  now ← utcnow env;
  let comments_val :=
    match comments_ with
    | Some c => if String.eqb c "" then "Added by management" else c
    | None => "Added by management"
    end in
  start_n ← (if in_test_types ty
             then current ← query (count_of_type m ty);
                  mret (Some (current + 1))
             else mret None);
  let numbers := batch_numbers start_n count in
  execute (insert_task_logs m ty proof comments_val now numbers);;
  execute (insert_weekly_task_logs m ty proof comments_val now numbers);;
  execute (add_weekly_tasks m count);;
  utcnow env;;
  log_action env "Tasks Added" m;;
  mret (TasksAdded start_n).

(** [DELETE FROM weekly_task_logs WHERE log_id = $1]. *)
Definition delete_weekly_log (key : Z) (d : Tables) : Tables :=
  {| task_logs := task_logs d; task_logs_seq := task_logs_seq d;
     weekly_task_logs := filter (λ r, log_id r ≠ key) (weekly_task_logs d);
     weekly_task_logs_seq := weekly_task_logs_seq d;
     weekly_tasks := weekly_tasks d |}.

(** [UPDATE weekly_tasks SET tasks_completed = GREATEST (tasks_completed - 1,
     0) WHERE member_id = $1]. *)
Definition decrement_weekly_tasks (m : Z) (d : Tables) : Tables :=
  {| task_logs := task_logs d; task_logs_seq := task_logs_seq d;
     weekly_task_logs := weekly_task_logs d;
     weekly_task_logs_seq := weekly_task_logs_seq d;
     weekly_tasks := alter (λ k, Z.max (k - 1) 0) m (weekly_tasks d) |}.

Inductive RemoveReply :=
  | NoWeeklyTasks
  | RemovedLast (last_log : TaskLog) (new_count : option Z).

(** [/removelastlog].  [latest] is the answer of [ORDER BY timestamp DESC
    LIMIT 1], which the database chooses among the rows with the greatest
    timestamp. *)
Definition removelastlog (env : Env)
    (latest : list TaskLog → option TaskLog) (m : Z) : T RemoveReply :=
  last_log ← query (λ d, latest (filter (λ r, member_id r = m)
                                   (weekly_task_logs d)));
  match last_log with
  | None => mret NoWeeklyTasks
  | Some l =>
      execute (delete_weekly_log (log_id l));;
      execute (decrement_weekly_tasks m);;
      new_count ← query (λ d, weekly_tasks d !! m);
      log_action env "Removed Last Weekly Task" m;;
      mret (RemovedLast l new_count)
  end.

(** One answer the database can give: the first row, in table order, among
    those with the greatest timestamp. *)
Fixpoint first_latest (rows : list TaskLog) : option TaskLog :=
  match rows with
  | [] => None
  | r :: rows' =>
      match first_latest rows' with
      | Some r' => if timestamp r <? timestamp r' then Some r' else Some r
      | None => Some r
      end
  end.

(** [WHERE member_id=$1 AND task_type=$2 AND sequence_no=$3]. *)
Definition is_numbered (number : Z) (r : TaskLog) : bool :=
  match sequence_no r with
  | Some n => n =? number
  | None => false
  end.

(** [SELECT COALESCE (MAX (sequence_no), 0) FROM task_logs
     WHERE member_id=$1 AND task_type=$2]. *)
Definition max_sequence_no (m : Z) (ty : string) (d : Tables) : Z :=
  match omap sequence_no
          (filter (λ r, of_type m ty r = true) (task_logs d)) with
  | [] => 0
  | n :: ns => foldl Z.max n ns
  end.

Inductive ViewReply :=
  | TestFound (row : TaskLog)
  | NoTestLogs
  | NumberMissing (max_n : Z).

(** [/viewtest].  [task_logs] is never updated, so [fetchrow] meets its rows
    in the order of insertion. *)
Definition viewtest (env : Env) (target : Z) (test_type : string)
    (number : Z) : T ViewReply :=
  row ← query (λ d, find (λ r, of_type target test_type r
                               && is_numbered number r) (task_logs d));
  match row with
  | Some r => utcnow env;; mret (TestFound r)
  | None =>
      max_n ← query (max_sequence_no target test_type);
      if max_n =? 0 then mret NoTestLogs else mret (NumberMissing max_n)
  end.

(** [TRUNCATE TABLE weekly_tasks, weekly_task_logs, ...] of the weekly run:
    the sequences keep their values. *)
Definition reset_weekly_tables (d : Tables) : Tables :=
  {| task_logs := task_logs d; task_logs_seq := task_logs_seq d;
     weekly_task_logs := []; weekly_task_logs_seq := weekly_task_logs_seq d;
     weekly_tasks := ∅ |}.

(** The operations that write the task tables. *)
Inductive Command :=
  | Submit (env : Env) (log_channel : bool) (m : Z)
      (ty proof comments_value : string)
  | AddTask (env : Env) (m : Z) (ty : string) (count : Z)
      (comments_ proof : option string)
  | RemoveLast (env : Env) (latest : list TaskLog → option TaskLog) (m : Z)
  | WeeklyReset.

Definition run (c : Command) (st : State) : State :=
  match c with
  | Submit env log_channel m ty proof comments_value =>
      (on_submit env log_channel m ty proof comments_value st).2
  | AddTask env m ty count comments_ proof =>
      (addtask env m ty count comments_ proof st).2
  | RemoveLast env latest m => (removelastlog env latest m st).2
  | WeeklyReset =>
      {| db := reset_weekly_tables (db st); ticks := ticks st;
         trace := trace st |}
  end.

Fixpoint run_all (l : list Command) (st : State) : State :=
  match l with
  | [] => st
  | c :: l' => run_all l' (run c st)
  end.

(** [/addtask] takes a count from 1 to 100, and the database answers
    [ORDER BY timestamp DESC LIMIT 1] with a row of greatest timestamp. *)
Definition latest_ok (latest : list TaskLog → option TaskLog) : Prop :=
  ∀ rows, match latest rows with
          | Some r => r ∈ rows ∧ ∀ r', r' ∈ rows → timestamp r' ≤ timestamp r
          | None => rows = []
          end.

Definition valid (c : Command) : Prop :=
  match c with
  | AddTask _ _ _ count _ _ => 1 ≤ count ≤ 100
  | RemoveLast _ latest _ => latest_ok latest
  | _ => True
  end.

(** The logs of a member in a numbered type carry 1, 2, 3, ... in the order
    of insertion. *)
Definition numbered (d : Tables) : Prop :=
  ∀ m ty, in_test_types ty = true →
    sequence_no <$> filter (λ r, of_type m ty r = true) (task_logs d)
    = (λ k, Some (Z.of_nat k))
        <$> seq 1 (length (filter (λ r, of_type m ty r = true)
                             (task_logs d))).

(** The weekly counter of every member is the number of the member's rows
    in [weekly_task_logs], whose keys are distinct and below the sequence. *)
Definition counted (d : Tables) : Prop :=
  NoDup (log_id <$> weekly_task_logs d)
  ∧ Forall (λ r, log_id r < weekly_task_logs_seq d) (weekly_task_logs d)
  ∧ ∀ m, default 0 (weekly_tasks d !! m)
         = Z.of_nat (length (filter (λ r, member_id r = m)
                               (weekly_task_logs d))).

Definition empty_tables : Tables :=
  {| task_logs := []; task_logs_seq := 1; weekly_task_logs := [];
     weekly_task_logs_seq := 1; weekly_tasks := ∅ |}.

Definition start (d : Tables) : State :=
  {| db := d; ticks := 0; trace := [] |}.

End Tasks.

(** * Vocabulary of the properties *)

(** ** Traces *)

(** The events a run appends to the trace it starts from. *)
Definition new_events (st st' : RunState) : list Event :=
  drop (length (trace st)) (trace st').

(** Whether an event concerns the member [mid]. *)
Definition touches (mid : Z) (e : Event) : bool :=
  match e with
  | EvSend m _ | EvKick m _ | EvAlert m _ | EvRobloxPost m _
  | EvActivity _ m | EvLog _ (Some m) => m =? mid
  | EvLog _ None | EvReport _ => false
  end.

Definition is_post (e : Event) : bool :=
  match e with EvRobloxPost _ _ => true | _ => false end.

(** The posts [_retry] makes for one removal. *)
Fixpoint retry_events (env : Env) (discord_id roblox_id : Z) (attempts i : nat)
    : list Event :=
  match attempts with
  | O => []
  | S k =>
      EvRobloxPost discord_id roblox_id
      :: (if post_ok env roblox_id i then []
          else retry_events env discord_id roblox_id k (S i))
  end.

(** The posts of one call of [try_remove_from_roblox]. *)
Definition removal_events (env : Env) (discord_id : Z) (d : Store)
    : list Event :=
  if roblox_remove_configured env
     && truthy_id (roblox_verification d !! discord_id)
  then retry_events env discord_id
         (default 0 (roblox_verification d !! discord_id)) 3 0
  else [].

(** ** Strike ledger *)

(** The key of every row is below the sequence and no key occurs twice: what
    the SERIAL primary key of [strikes] guarantees. *)
Definition strikes_wf (d : Store) : Prop :=
  NoDup (strike_id <$> strikes d)
  ∧ Forall (λ s, strike_id s < strikes_seq d) (strikes d).

(** A call of [enforce_three_strikes] on [mid] kicks [mid] once, with the
    three-strike reason, whatever the kick answers; nothing else kicks with
    that reason.  Counting those kicks counts the calls. *)
Definition is_enforcement (mid : Z) (e : Event) : bool :=
  match e with
  | EvKick m KickThreeStrikes => m =? mid
  | _ => false
  end.

Definition enforce_calls (mid : Z) (evs : list Event) : nat :=
  length (filter (λ e, is_enforcement mid e = true) evs).

(** The active rows that [LIMIT count] leaves out of [soonest_active]. *)
Definition later_active (mid now count : Z) (d : Store) : list Strike :=
  drop (Z.to_nat count) (merge_sort expires_le (active_rows mid now d)).

(** ** Weekly evaluation *)

(** The members named in each bucket. *)
Definition met_ids (b : Buckets) : list Z := (λ r : MetRow, m_id r.1) <$> met b.
Definition not_met_ids (b : Buckets) : list Z :=
  (λ r : NotMetRow, m_id r.1.1.1) <$> not_met b.
Definition zero_ids (b : Buckets) : list Z :=
  (λ r : MetRow, m_id r.1) <$> zero b.

(** The member [mid] is in the guild; the counters of [mid] meet the quota. *)
Definition found (guild : Guild) (mid : Z) : Prop :=
  is_Some (get_member guild mid).

Definition meets (env : Env) (tasks_map time_map : gmap Z Z) (mid : Z) : bool :=
  meets_quota env (default 0 (tasks_map !! mid))
    (Z.div (default 0 (time_map !! mid)) 60).

(** The rows the weekly strike pass inserts for [rows], when the sequence
    is at [seq] and [tick] clock readings have been made. *)
Fixpoint quota_strikes (env : Env) (seq : Z) (tick : nat)
    (rows : list NotMetRow) : list Strike :=
  match rows with
  | [] => []
  | r :: rows' =>
      {| strike_id := seq; member_id := m_id r.1.1.1;
         reason := "Missed weekly quota"; issued_at := clock env tick;
         expires_at := clock env tick + days 90;
         set_by := None; auto := true |}
      :: quota_strikes env (seq + 1) (S tick) rows'
  end.

(** Every stored excuse has a reason: [/activityexcuse] refuses to set one
    without. *)
Definition excuses_wf (d : Store) : Prop :=
  ∀ wk e, activity_excuses d !! wk = Some e → ex_reason e ≠ "".

(** ** Orientation *)

(** What the overdue enforcement of one orientation record does outside the
    store: the notice, the removal posts, the kick and the log entry. *)
Definition expiry_events (env : Env) (mid : Z) (d : Store) : list Event :=
  EvSend mid NoticeOrientationExpired
  :: removal_events env mid d
  ++ EvKick mid KickOrientationExpired
     :: (if command_log_channel env
         then [EvLog "Orientation Expiry Enforced" (Some mid)] else []).

(** The events of the overdue enforcement of [mid], whatever their outcome. *)
Definition is_expiry_event (mid : Z) (e : Event) : bool :=
  match e with
  | EvSend m NoticeOrientationExpired => m =? mid
  | EvKick m KickOrientationExpired => m =? mid
  | EvRobloxPost m _ => m =? mid
  | EvLog title (Some m) =>
      String.eqb title "Orientation Expiry Enforced" && (m =? mid)
  | _ => false
  end.

(** The record of [id] carries the latch [expired_handled]. *)
Definition latched (id : Z) (d : Store) : Prop :=
  ∃ o, orientations d !! id = Some o ∧ expired_handled o = true.

(** The record [o] with the latch set. *)
Definition handled (o : Orientation) : Orientation :=
  {| assigned_at := assigned_at o; deadline := deadline o;
     passed := passed o; passed_at := passed_at o;
     warned_5d := warned_5d o; expired_handled := true |}.

(** The operations that write the [orientations] table. *)
Inductive Action :=
  | Poll (env : Env)
  | RoleUpdate (env : Env) (before after : Member)
  | EnsureRecord (env : Env) (member : Member)
  | PassOrientation (env : Env) (member : Member)
  | ExtendOrientation (env : Env) (member : Member) (ndays : Z).

Definition perform (a : Action) (st : RunState) : RunState :=
  match a with
  | Poll env => (orientation_reminder_loop env st).2
  | RoleUpdate env before after => (on_member_update env before after st).2
  | EnsureRecord env member => (ensure_orientation_record env member st).2
  | PassOrientation env member => (passedorientation env member st).2
  | ExtendOrientation env member ndays =>
      (extendorientation env member ndays st).2
  end.

Fixpoint perform_all (l : list Action) (st : RunState) : RunState :=
  match l with
  | [] => st
  | a :: l' => perform_all l' (perform a st)
  end.

(** The record of [id] carries the latch [warned_5d]. *)
Definition warned (id : Z) (d : Store) : Prop :=
  ∃ o, orientations d !! id = Some o ∧ warned_5d o = true.

(** The 5-day alerts about [id]. *)
Definition is_alert (id : Z) (e : Event) : bool :=
  match e with
  | EvAlert m _ => m =? id
  | _ => false
  end.

(** The record of [id] is passed, with the given assignment and deadline. *)
Definition passed_with (id : Z) (a dl : option Z) (d : Store) : Prop :=
  ∃ o, orientations d !! id = Some o ∧ passed o = true
       ∧ assigned_at o = a ∧ deadline o = dl
       ∧ warned_5d o = true ∧ expired_handled o = true.

(** The record [o] with another deadline. *)
Definition with_deadline (dl : Z) (o : Orientation) : Orientation :=
  {| assigned_at := assigned_at o; deadline := Some dl;
     passed := passed o; passed_at := passed_at o;
     warned_5d := warned_5d o; expired_handled := expired_handled o |}.

(** What the commands and the role event write to the log channel: entries
    other than the one of the overdue enforcement. *)
Definition is_command_log (e : Event) : Prop :=
  ∃ title about, e = EvLog title about
                 ∧ String.eqb title "Orientation Expiry Enforced" = false.

(** ** Sample data

    A small department used to run the model on concrete inputs: Alice and
    Bob hold the department role 10, Carol holds the trainee role 11, the
    helper is a bot account, and member 5 has left.  The sample clock starts
    on Sunday 4 January 1970 and advances one second per reading; every
    send, kick and post fails. *)

Definition alice : Member := {| m_id := 1; m_bot := false; m_roles := [10] |}.
Definition bob : Member := {| m_id := 2; m_bot := false; m_roles := [10] |}.
Definition helper : Member := {| m_id := 3; m_bot := true; m_roles := [10] |}.
Definition carol : Member := {| m_id := 4; m_bot := false; m_roles := [11] |}.

Definition sample_guild : Guild :=
  {| g_members := [alice; bob; helper; carol]; g_roles := [10; 11] |}.

Definition sample_env : Env :=
  {| clock := λ n, days 3 + seconds (Z.of_nat n);
     isocalendar := λ _, (1970, 1);
     guilds := [sample_guild];
     announcement_channel := Some sample_guild;
     orientation_alert_channel := true;
     command_log_channel := true;
     activity_log_channel := true;
     DEPARTMENT_ROLE_ID := Some 10;
     SCIENTIFIC_TRAINEE_ROLE_ID := Some 11;
     WEEKLY_REQUIREMENT := 3;
     WEEKLY_TIME_REQUIREMENT := 45;
     API_SECRET_KEY := Some "s3cret";
     roblox_remove_configured := true;
     send_ok := λ _, false;
     kick_ok := λ _, false;
     post_ok := λ _ _, false |}.

Definition empty_store : Store :=
  {| weekly_tasks := ∅; weekly_task_logs := []; roblox_verification := ∅;
     roblox_time := ∅; roblox_sessions := ∅; orientations := ∅;
     strikes := []; strikes_seq := 1; activity_excuses := ∅ |}.

Definition start (d : Store) : RunState :=
  {| db := d; ticks := 0; sql_count := 0; trace := [] |}.

(** A manual strike on [mid] that runs out at [expires]. *)
Definition sample_strike (key mid expires : Z) : Strike :=
  {| strike_id := key; member_id := mid; reason := "Late report";
     issued_at := expires - days 90; expires_at := expires;
     set_by := Some 9; auto := false |}.

(** Alice with one, and with three, strikes that are still running. *)
Definition one_strike_store : Store :=
  with_strikes [sample_strike 1 1 (days 30)] 2 empty_store.

Definition three_strikes_store : Store :=
  with_strikes [sample_strike 1 1 (days 30); sample_strike 2 1 (days 20);
                sample_strike 3 1 (days 40)] 4 empty_store.

(** The INSERT of a [/strikes_add] on Alice that another coroutine commits. *)
Definition concurrent_insert : M unit :=
  sql_exec (insert_strike 1 "Late report" (days 3) (days 93) (Some 9) false).

(** Alice logged 2 tasks and 3000 seconds, Bob nothing. *)
Definition sample_week : Store :=
  {| weekly_tasks := {[ 1 := 2 ]}; weekly_task_logs := [(1, "Cross-Testing")];
     roblox_verification := {[ 1 := 77 ]}; roblox_time := {[ 1 := 3000 ]};
     roblox_sessions := {[ 77 := days 2 ]}; orientations := ∅;
     strikes := []; strikes_seq := 1; activity_excuses := ∅ |}.

(** The same week, excused. *)
Definition excused_week : Store :=
  with_excuses {[ "1970-W01" := {| ex_reason := "Site maintenance";
                                   ex_set_by := 9; ex_set_at := days 2 |} ]}
    sample_week.

(** An overdue orientation record whose member has left every guild. *)
Definition dave_overdue : Store :=
  with_orientations
    {[ 5 := {| assigned_at := Some (days (-13)); deadline := Some (days 1);
               passed := false; passed_at := None;
               warned_5d := false; expired_handled := false |} ]}
    empty_store.

(** Carol's orientation record, overdue, with Carol still in the guild and
    her account linked. *)
Definition carol_overdue : Store :=
  {| weekly_tasks := ∅; weekly_task_logs := [];
     roblox_verification := {[ 4 := 88 ]}; roblox_time := ∅;
     roblox_sessions := ∅;
     orientations :=
       {[ 4 := {| assigned_at := Some (days (-13)); deadline := Some (days 1);
                  passed := false; passed_at := None;
                  warned_5d := true; expired_handled := false |} ]};
     strikes := []; strikes_seq := 1; activity_excuses := ∅ |}.

(** Carol's orientation record with five days to go on the sample clock. *)
Definition carol_due : Store :=
  with_orientations
    {[ 4 := {| assigned_at := Some (days (-6)); deadline := Some (days 8);
               passed := false; passed_at := None;
               warned_5d := false; expired_handled := false |} ]}
    empty_store.

(** * Properties *)

(** ** Running a coroutine *)

Ltac run_step :=
  unfold bind, ret, sql_exec, sql_query, emit, utcnow, log_action,
    send_notice, kick; simpl.

Lemma new_events_app st st' evs :
  trace st' = trace st ++ evs → new_events st st' = evs.
Proof.
  intros H. unfold new_events. rewrite H. by rewrite drop_app_length.
Qed.

(** ** Strike ledger *)

Lemma active_count_insert mid now m why t e by_ auto_ d :
  active_count mid now (insert_strike m why t e by_ auto_ d)
  = active_count mid now d + (if (m =? mid) && (now <? e) then 1 else 0).
Proof.
  unfold active_count, active_rows, insert_strike. simpl.
  rewrite filter_app, length_app, filter_cons, filter_nil.
  case_decide as Hrow; unfold is_active in Hrow; simpl in Hrow.
  - rewrite Hrow. simpl. lia.
  - apply not_true_is_false in Hrow. rewrite Hrow. simpl. lia.
Qed.

Lemma days_pos n : 0 < n → 0 < days n.
Proof. unfold days, seconds. lia. Qed.

Lemma active_count_insert_own mid now why by_ auto_ d :
  active_count mid now (insert_strike mid why now (now + days 90) by_ auto_ d)
  = active_count mid now d + 1.
Proof.
  rewrite active_count_insert.
  rewrite Z.eqb_refl. simpl.
  assert (0 < days 90) by (apply days_pos; lia).
  destruct (Z.ltb_spec now (now + days 90)); [done | lia].
Qed.

Lemma active_count_insert_other mid now m why t e by_ auto_ d :
  m ≠ mid →
  active_count mid now (insert_strike m why t e by_ auto_ d)
  = active_count mid now d.
Proof.
  intros Hne. rewrite active_count_insert.
  destruct (Z.eqb_spec m mid); [done | simpl; lia].
Qed.

(** What one sequential call of [issue_strike] does to the whole state. *)
Lemma issue_strike_run env member why by_ auto_ st :
  let now := clock env (ticks st) in
  let d' := insert_strike (m_id member) why now (now + days 90) by_ auto_
              (db st) in
  let active := active_count (m_id member) now (db st) + 1 in
  issue_strike env member why by_ auto_ st =
  (active,
   {| db := d'; ticks := S (ticks st); sql_count := S (S (sql_count st));
      trace := trace st
               ++ EvSend (m_id member) (NoticeStrike active (now + days 90))
                  :: (if command_log_channel env
                      then [EvLog "Strike Issued" (Some (m_id member))]
                      else []) |}).
Proof.
  intros now d' active. unfold issue_strike, issue_strike_racing. run_step.
  fold now. rewrite active_count_insert_own. fold active.
  destruct (command_log_channel env); simpl.
  - by rewrite <- app_assoc.
  - done.
Qed.

Lemma wf_insert_strike mid why t e by_ auto_ d :
  strikes_wf d → strikes_wf (insert_strike mid why t e by_ auto_ d).
Proof.
  intros [Hnd Hlt]. unfold strikes_wf, insert_strike. simpl. split.
  - rewrite fmap_app. simpl. apply NoDup_app. split; [done |]. split.
    + intros x Hx Hin. apply list_elem_of_singleton in Hin. subst x.
      apply list_elem_of_fmap in Hx as (s & Hs & Hin).
      rewrite Forall_forall in Hlt. specialize (Hlt s Hin). lia.
    + apply NoDup_singleton.
  - apply Forall_app. split.
    + eapply Forall_impl; [exact Hlt |]. simpl. intros; lia.
    + apply Forall_singleton. simpl. lia.
Qed.

Lemma enforce_calls_app mid l k :
  enforce_calls mid (l ++ k) = (enforce_calls mid l + enforce_calls mid k)%nat.
Proof. unfold enforce_calls. by rewrite filter_app, length_app. Qed.

Lemma enforce_calls_cons mid e l :
  enforce_calls mid (e :: l)
  = ((if is_enforcement mid e then 1 else 0) + enforce_calls mid l)%nat.
Proof.
  unfold enforce_calls. rewrite filter_cons.
  case_decide as Hc.
  - rewrite Hc. done.
  - apply not_true_is_false in Hc. rewrite Hc. done.
Qed.

Lemma enforce_calls_posts mid evs :
  Forall (λ e, is_post e = true) evs → enforce_calls mid evs = 0%nat.
Proof.
  induction 1 as [| e evs He _ IH]; [done |].
  unfold enforce_calls in *. rewrite filter_cons.
  destruct e; try discriminate He.
  case_decide as Hc; [discriminate Hc | exact IH].
Qed.

Lemma retry_post_run env did rid n i st :
  ∃ b,
    retry_post env did rid n i st =
      (b, {| db := db st; ticks := ticks st; sql_count := sql_count st;
             trace := trace st ++ retry_events env did rid n i |}).
Proof.
  revert i st. induction n as [| n IH]; intros i st; simpl.
  - exists false. rewrite app_nil_r. by destruct st.
  - run_step. destruct (post_ok env rid i).
    + by exists true.
    + destruct (IH (S i) {| db := db st; ticks := ticks st;
                           sql_count := sql_count st;
                           trace := trace st ++ [EvRobloxPost did rid] |})
        as (b & Heq).
      exists b. rewrite Heq. simpl. by rewrite <- app_assoc.
Qed.

Lemma retry_events_posts env did rid n i :
  Forall (λ e, ∃ r, e = EvRobloxPost did r) (retry_events env did rid n i).
Proof.
  revert i. induction n as [| n IH]; intros i; simpl; [constructor |].
  constructor; [by eexists |].
  destruct (post_ok env rid i); [constructor | apply IH].
Qed.

Lemma removal_events_posts env did d :
  Forall (λ e, ∃ r, e = EvRobloxPost did r) (removal_events env did d).
Proof.
  unfold removal_events.
  destruct (_ && _); [apply retry_events_posts | constructor].
Qed.

Lemma try_remove_from_roblox_run env discord_id st :
  ∃ b n,
    try_remove_from_roblox env discord_id st =
      (b, {| db := db st; ticks := ticks st; sql_count := n;
             trace := trace st ++ removal_events env discord_id (db st) |}).
Proof.
  unfold try_remove_from_roblox, removal_events.
  destruct (roblox_remove_configured env); simpl.
  - run_step. destruct (truthy_id (roblox_verification (db st) !! discord_id)).
    + destruct (retry_post_run env discord_id
                  (default 0 (roblox_verification (db st) !! discord_id)) 3 0
                  {| db := db st; ticks := ticks st;
                     sql_count := S (sql_count st); trace := trace st |})
        as (b & Heq).
      exists b, (S (sql_count st)). exact Heq.
    + exists false, (S (sql_count st)). by rewrite app_nil_r.
  - exists false, (sql_count st). rewrite app_nil_r. unfold ret. by destruct st.
Qed.

Lemma enforce_calls_removal mid env did d :
  enforce_calls mid (removal_events env did d) = 0%nat.
Proof.
  apply enforce_calls_posts.
  eapply Forall_impl; [apply removal_events_posts |].
  by intros e [r ->].
Qed.

Lemma enforce_three_strikes_run env member st :
  ∃ n evs,
    enforce_three_strikes env member st =
      (tt, {| db := db st; ticks := ticks st; sql_count := n;
              trace := trace st ++ evs |})
    ∧ enforce_calls (m_id member) evs = 1%nat.
Proof.
  unfold enforce_three_strikes. run_step.
  destruct (try_remove_from_roblox_run env (m_id member)
              {| db := db st; ticks := ticks st; sql_count := sql_count st;
                 trace := trace st ++ [EvSend (m_id member) NoticeThreeStrikes] |})
    as (b & n & Heq).
  rewrite Heq. simpl. set (evs := removal_events env (m_id member) (db st)).
  exists n, ([EvSend (m_id member) NoticeThreeStrikes] ++ evs
             ++ [EvKick (m_id member) KickThreeStrikes]
             ++ (if command_log_channel env
                 then [EvLog "Three-Strike Removal" (Some (m_id member))]
                 else [])).
  split.
  - destruct (command_log_channel env); simpl; unfold emit, ret; simpl;
      rewrite <- ?app_assoc; simpl; try done.
  - rewrite !enforce_calls_app. unfold evs. rewrite enforce_calls_removal.
    destruct (command_log_channel env);
      rewrite !enforce_calls_cons; simpl; by rewrite Z.eqb_refl.
Qed.

(** Sequential behaviour of [issue_strike]: one row is appended, expiring 90
    days after the clock reading, and the count returned is the member's
    active count before the call plus one. *)
Lemma issue_strike_sequential env member why by_ auto_ st :
  let now := clock env (ticks st) in
  let '(active, st') := issue_strike env member why by_ auto_ st in
  strikes (db st') =
    strikes (db st) ++ [{| strike_id := strikes_seq (db st);
                           member_id := m_id member; reason := why;
                           issued_at := now; expires_at := now + days 90;
                           set_by := by_; auto := auto_ |}]
  ∧ active = active_count (m_id member) now (db st')
  ∧ active = active_count (m_id member) now (db st) + 1.
Proof.
  intros now. rewrite issue_strike_run. simpl. fold now.
  split; [done |]. split; [| done].
  by rewrite active_count_insert_own.
Qed.

(** C1 (evaluation at the failing schedule).  [issue_strike] runs its INSERT
    and its COUNT as two statements with no transaction around them.  Alice
    has one active strike; the weekly evaluator issues her a strike and,
    between its INSERT and its COUNT, a concurrent [/strikes_add] commits its
    own INSERT for her: the evaluator's call returns 3, two more than her
    active count before the call, not one more. *)
Theorem issue_strike_count_not_atomic :
  let st := start one_strike_store in
  active_count (m_id alice) (clock sample_env 0) (db st) = 1
  ∧ (issue_strike sample_env alice "Missed weekly quota" None true st).1 = 2
  ∧ (issue_strike_racing sample_env concurrent_insert alice
       "Missed weekly quota" None true st).1 = 3.
Proof. vm_compute. done. Qed.

(** With an active strike of the same member committed in between, the count
    returned is always two above the count before the call. *)
Lemma issue_strike_racing_double env member why by_ auto_ why2 t2 e2 by2 auto2 st :
  clock env (ticks st) < e2 →
  (issue_strike_racing env
     (sql_exec (insert_strike (m_id member) why2 t2 e2 by2 auto2))
     member why by_ auto_ st).1
  = active_count (m_id member) (clock env (ticks st)) (db st) + 2.
Proof.
  intros Hlt. unfold issue_strike_racing. run_step.
  destruct (command_log_channel env); simpl;
    rewrite active_count_insert, active_count_insert_own, Z.eqb_refl;
    simpl; destruct (Z.ltb_spec (clock env (ticks st)) e2); lia.
Qed.

(** C2 (counterexample).  Alice already has three active strikes.  A fourth
    strike, added by hand or by the weekly pass, calls
    [enforce_three_strikes] again. *)
Lemma fourth_strike_enforces_again :
  let st := start three_strikes_store in
  active_count (m_id alice) (clock sample_env 0) (db st) = 3
  ∧ enforce_calls (m_id alice)
      (new_events st (strikes_add sample_env 9 alice "Late report" st).2)
    = 1%nat
  ∧ enforce_calls (m_id alice)
      (new_events st (weekly_strike_flow sample_env (alice, 0, 0, 3) st).2)
    = 1%nat.
Proof. vm_compute. done. Qed.

(** The gate [if active_after >= 3] shared by both callers. *)
Lemma gated_enforcement_calls env member why by_ auto_ st :
  let a := active_count (m_id member) (clock env (ticks st)) (db st) in
  enforce_calls (m_id member)
    (new_events st
       ((active_after <~ issue_strike env member why by_ auto_ ;;
         if 3 <=? active_after then enforce_three_strikes env member
         else ret tt) st).2)
  = if 3 <=? a + 1 then 1%nat else 0%nat.
Proof.
  intros a. unfold bind. rewrite issue_strike_run. fold a.
  set (st1 := {| db := _; trace := _ |}).
  assert (Hst1 : ∃ evs1, trace st1 = trace st ++ evs1
                         ∧ enforce_calls (m_id member) evs1 = 0%nat).
  { eexists. split; [reflexivity |].
    destruct (command_log_channel env); by rewrite !enforce_calls_cons. }
  destruct Hst1 as (evs1 & Ht1 & Hc1). clearbody st1.
  destruct (3 <=? a + 1).
  - destruct (enforce_three_strikes_run env member st1) as (n & evs & Heq & Hc).
    rewrite Heq. simpl. rewrite Ht1, <- app_assoc.
    erewrite new_events_app by reflexivity.
    rewrite enforce_calls_app. lia.
  - unfold ret. simpl. erewrite new_events_app by exact Ht1. done.
Qed.

(** C2 (amended).  Each issuance calls [enforce_three_strikes] exactly once
    when the active count it returns, the count before plus one, is at least
    3, and not at all otherwise; this is so for [/strikes_add] and for the
    weekly strike pass alike.  The third strike of a member with two active
    strikes is enforced once, and so is a fourth. *)
Theorem strike_enforcement_gate env issuer member why t mins sc st :
  let a := active_count (m_id member) (clock env (ticks st)) (db st) in
  enforce_calls (m_id member)
    (new_events st (strikes_add env issuer member why st).2)
  = (if 3 <=? a + 1 then 1%nat else 0%nat)
  ∧ enforce_calls (m_id member)
      (new_events st (weekly_strike_flow env (member, t, mins, sc) st).2)
    = (if 3 <=? a + 1 then 1%nat else 0%nat).
Proof.
  intros a. unfold a. split.
  - rewrite <- (gated_enforcement_calls env member why (Some issuer) false st).
    unfold strikes_add, bind.
    destruct (issue_strike env member why (Some issuer) false st) as [k st1].
    destruct (3 <=? k); [| done].
    by destruct (enforce_three_strikes env member st1).
  - apply (gated_enforcement_calls env member "Missed weekly quota" None true st).
Qed.
#[global] Instance expires_le_total : Total expires_le.
Proof. intros a b. unfold expires_le. lia. Qed.

#[global] Instance expires_le_trans : Transitive expires_le.
Proof. intros a b c. unfold expires_le. lia. Qed.

Lemma filter_all {A} (P : A → Prop) `{∀ x, Decision (P x)} (l : list A) :
  Forall P l → filter P l = l.
Proof.
  induction 1 as [| x l Hx _ IH]; [done |].
  rewrite filter_cons, decide_True by done. by rewrite IH.
Qed.

Lemma filter_none {A} (P : A → Prop) `{∀ x, Decision (P x)} (l : list A) :
  Forall (λ x, ¬ P x) l → filter P l = [].
Proof.
  induction 1 as [| x l Hx _ IH]; [done |].
  by rewrite filter_cons, decide_False.
Qed.

Lemma filter_swap {A} (P Q : A → Prop) `{∀ x, Decision (P x)}
    `{∀ x, Decision (Q x)} (l : list A) :
  filter P (filter Q l) = filter Q (filter P l).
Proof.
  induction l as [| x l IH]; [done |].
  rewrite !filter_cons.
  destruct (decide (Q x)), (decide (P x));
    rewrite ?filter_cons, ?decide_True, ?decide_False by done; by rewrite IH.
Qed.

Lemma NoDup_fmap_elem_inj {A B} (f : A → B) (l : list A) x y :
  NoDup (f <$> l) → x ∈ l → y ∈ l → f x = f y → x = y.
Proof.
  induction l as [| z l IH]; intros Hnd Hx Hy Hf; [by apply elem_of_nil in Hx |].
  rewrite fmap_cons in Hnd. apply NoDup_cons in Hnd as [Hz Hnd].
  apply elem_of_cons in Hx as [-> | Hx]; apply elem_of_cons in Hy as [-> | Hy].
  - done.
  - exfalso. apply Hz. rewrite Hf. by apply list_elem_of_fmap_2.
  - exfalso. apply Hz. rewrite <- Hf. by apply list_elem_of_fmap_2.
  - by apply IH.
Qed.

Section remove.
Variables (mid now count : Z) (d : Store).
Hypothesis Hwf : strikes_wf d.
Hypothesis Hcount : 1 ≤ count.

Abbreviation act := (active_rows mid now d).
Abbreviation sorted := (merge_sort expires_le (active_rows mid now d)).
Abbreviation rows := (soonest_active mid now count d).
Abbreviation rest := (later_active mid now count d).
Abbreviation ids := (strike_id <$> soonest_active mid now count d).

Lemma sorted_split : sorted = rows ++ rest.
Proof. unfold soonest_active, later_active. by rewrite take_drop. Qed.

Lemma sorted_perm : sorted ≡ₚ act.
Proof. apply merge_sort_Permutation. Qed.

Lemma sorted_elem s : s ∈ sorted ↔ is_active mid now s = true ∧ s ∈ strikes d.
Proof.
  rewrite sorted_perm. unfold active_rows.
  apply (list_elem_of_filter (λ s, is_active mid now s = true)).
Qed.

Lemma rows_elem s : s ∈ rows → is_active mid now s = true ∧ s ∈ strikes d.
Proof.
  intros Hs. apply sorted_elem. rewrite sorted_split. apply elem_of_app. by left.
Qed.

Lemma sorted_ids_NoDup : NoDup (strike_id <$> sorted).
Proof.
  rewrite sorted_perm. destruct Hwf as [Hnd _].
  eapply sublist_NoDup; [exact Hnd |].
  apply fmap_sublist. apply sublist_filter.
Qed.

Lemma deleted_iff s : s ∈ strikes d → (strike_id s ∈ ids ↔ s ∈ rows).
Proof.
  intros Hs. split.
  - intros Hin. apply list_elem_of_fmap in Hin as (r & Heq & Hr).
    destruct (rows_elem r Hr) as [_ Hrd]. destruct Hwf as [Hnd _].
    by rewrite (NoDup_fmap_elem_inj strike_id (strikes d) s r Hnd Hs Hrd Heq).
  - intros Hr. by apply list_elem_of_fmap_2.
Qed.

Lemma rest_kept : Forall (λ s, strike_id s ∉ ids) rest.
Proof.
  apply Forall_forall. intros s Hs Hin.
  pose proof sorted_ids_NoDup as Hnd. rewrite sorted_split, fmap_app in Hnd.
  apply NoDup_app in Hnd as (_ & Hdisj & _).
  apply (Hdisj (strike_id s) Hin). by apply list_elem_of_fmap_2.
Qed.

Lemma rows_deleted : Forall (λ s, ¬ (strike_id s ∉ ids)) rows.
Proof.
  apply Forall_forall. intros s Hs Hnot. apply Hnot. by apply list_elem_of_fmap_2.
Qed.

Lemma active_after_delete :
  active_count mid now (delete_strikes ids d) = Z.of_nat (length rest).
Proof.
  unfold active_count, active_rows at 1, delete_strikes. simpl.
  rewrite filter_swap.
  change (filter (λ s, is_active mid now s = true) (strikes d)) with act.
  rewrite <- sorted_perm, sorted_split, filter_app.
  rewrite (filter_none _ rows rows_deleted), (filter_all _ rest rest_kept).
  done.
Qed.

Lemma rows_length : length rows = Nat.min (Z.to_nat count) (length act).
Proof.
  unfold soonest_active. by rewrite length_take, sorted_perm.
Qed.

Lemma rest_length : (length rest = length act - length rows)%nat.
Proof.
  pose proof (f_equal length sorted_split) as Hlen.
  rewrite length_app, sorted_perm in Hlen. lia.
Qed.

Lemma rows_nil : rows = [] ↔ act = [].
Proof.
  split; intros Hnil.
  - pose proof rows_length as Hlen. rewrite Hnil in Hlen. simpl in Hlen.
    destruct act; [done | simpl in Hlen; lia].
  - pose proof rows_length as Hlen. rewrite Hnil in Hlen. simpl in Hlen.
    rewrite Nat.min_0_r in Hlen. by destruct rows.
Qed.

Lemma rows_before_rest r k :
  r ∈ rows → k ∈ strikes d → is_active mid now k = true →
  strike_id k ∉ ids → expires_at r ≤ expires_at k.
Proof.
  intros Hr Hk Hact Hkeep.
  assert (Hks : k ∈ sorted) by (by apply sorted_elem).
  rewrite sorted_split in Hks. apply elem_of_app in Hks as [Hks | Hks].
  - exfalso. apply Hkeep. by apply list_elem_of_fmap_2.
  - pose proof (StronglySorted_merge_sort expires_le act) as Hss.
    rewrite sorted_split in Hss.
    exact (StronglySorted_app_1_elem_of _ _ _ _ _ Hss Hr Hks).
Qed.

Lemma deleted_length :
  (length (strikes d)
   = length (strikes (delete_strikes ids d)) + length rows)%nat.
Proof.
  unfold delete_strikes. simpl.
  rewrite <- (filter_app_complement (λ s, strike_id s ∉ ids) (strikes d)) at 1.
  rewrite length_app. f_equal.
  apply Permutation_length, NoDup_Permutation.
  - apply NoDup_filter. destruct Hwf as [Hnd _]. by eapply NoDup_fmap_1.
  - pose proof sorted_ids_NoDup as Hnd. apply NoDup_fmap_1 in Hnd.
    rewrite sorted_split in Hnd. by apply NoDup_app in Hnd as (? & _ & _).
  - intros s. rewrite list_elem_of_filter. split.
    + intros [Hdel Hs]. apply deleted_iff; [done |].
      by destruct (decide (strike_id s ∈ ids)).
    + intros Hr. destruct (rows_elem s Hr) as [_ Hs]. split; [| done].
      intros Hnot. apply Hnot. by apply deleted_iff.
Qed.

End remove.

Lemma strikes_remove_run env member count st :
  let now := clock env (ticks st) in
  let rows := soonest_active (m_id member) now count (db st) in
  let ids := strike_id <$> rows in
  ((strikes_remove env member count st).1,
   db (strikes_remove env member count st).2)
  = match rows with
    | [] => (NoActiveStrikes, db st)
    | _ => (Removed (Z.of_nat (length ids))
              (active_count (m_id member) now (delete_strikes ids (db st))),
            delete_strikes ids (db st))
    end.
Proof.
  intros now rows ids. unfold strikes_remove. run_step. fold now rows.
  unfold ids. destruct rows as [| r rows']; [done |].
  by destruct (command_log_channel env).
Qed.

(** The ledger operations keep the key invariant. *)
Lemma wf_delete_strikes ids d : strikes_wf d → strikes_wf (delete_strikes ids d).
Proof.
  intros [Hnd Hlt]. unfold strikes_wf, delete_strikes. simpl. split.
  - eapply sublist_NoDup; [exact Hnd |].
    apply fmap_sublist, sublist_filter.
  - apply Forall_forall. intros s Hs.
    apply list_elem_of_filter in Hs as [_ Hs].
    rewrite Forall_forall in Hlt. by apply Hlt.
Qed.

Lemma wf_issue_strike env member why by_ auto_ st :
  strikes_wf (db st) →
  strikes_wf (db (issue_strike env member why by_ auto_ st).2).
Proof. intros Hwf. rewrite issue_strike_run. simpl. by apply wf_insert_strike. Qed.

Lemma wf_strikes_remove env member count st :
  strikes_wf (db st) →
  strikes_wf (db (strikes_remove env member count st).2).
Proof.
  intros Hwf. pose proof (strikes_remove_run env member count st) as Hrun.
  simpl in Hrun.
  destruct (soonest_active (m_id member) (clock env (ticks st)) count (db st));
    injection Hrun as _ ->; [done | by apply wf_delete_strikes].
Qed.

(** C7.  [/strikes_remove member count] deletes [min count a] rows, where [a]
    is the member's active count: with no active strike it deletes nothing
    and answers that there is none; otherwise it answers the number deleted
    and the new active count [a - min count a].  Every deleted row was an
    active strike of the member and expires no later than any active strike
    of the member that is kept; no row is added or reordered.  Removing 2
    from a member with one active strike removes that one and leaves 0. *)
Theorem strikes_remove_soonest_first env member count st :
  strikes_wf (db st) → 1 ≤ count →
  let now := clock env (ticks st) in
  let mid := m_id member in
  let a := active_count mid now (db st) in
  let reply := (strikes_remove env member count st).1 in
  let d' := db (strikes_remove env member count st).2 in
  (a = 0 → reply = NoActiveStrikes ∧ d' = db st)
  ∧ (0 < a → reply = Removed (Z.min count a) (a - Z.min count a))
  ∧ active_count mid now d' = a - Z.min count a
  ∧ strikes d' `sublist_of` strikes (db st)
  ∧ Z.of_nat (length (strikes (db st))) - Z.of_nat (length (strikes d'))
    = Z.min count a
  ∧ (∀ s, s ∈ strikes (db st) → s ∉ strikes d' →
       is_active mid now s = true
       ∧ ∀ k, k ∈ strikes d' → is_active mid now k = true →
              expires_at s ≤ expires_at k)
  ∧ (count = 2 → a = 1 →
       reply = Removed 1 0 ∧ active_count mid now d' = 0).
Proof.
  intros Hwf Hcount now mid a reply d'.
  pose proof (strikes_remove_run env member count st) as Hrun.
  simpl in Hrun. fold now mid reply d' in Hrun.
  pose proof (rows_length mid now count (db st)) as Hlen.
  pose proof (rows_nil mid now count (db st) Hcount) as Hnil.
  pose proof (active_after_delete mid now count (db st) Hwf) as Hafter.
  pose proof (rest_length mid now count (db st)) as Hrest.
  pose proof (deleted_length mid now count (db st) Hwf) as Hdel.
  pose proof (deleted_iff mid now count (db st) Hwf) as Hiff.
  pose proof (rows_elem mid now count (db st)) as Hrows_elem.
  pose proof (rows_before_rest mid now count (db st)) as Hbefore.
  unfold later_active in *.
  set (rows := soonest_active mid now count (db st)) in *.
  set (act := active_rows mid now (db st)) in *.
  assert (Ha : a = Z.of_nat (length act)) by done.
  assert (Hmin : Z.of_nat (length rows) = Z.min count a) by lia.
  destruct (decide (act = [])) as [Hact | Hact].
  - (* no active strike: nothing is deleted *)
    assert (Hr : rows = []) by (by apply Hnil).
    rewrite Hr in Hrun. injection Hrun as Hreply Hd'.
    rewrite Hact in Ha. simpl in Ha. rewrite Hd'.
    repeat split; try done; try lia.
  - assert (Hpos : 0 < a).
    { destruct act; [done | simpl in Ha; lia]. }
    assert (Hrun' : reply = Removed (Z.of_nat (length (strike_id <$> rows)))
                     (active_count mid now
                        (delete_strikes (strike_id <$> rows) (db st)))
                    ∧ d' = delete_strikes (strike_id <$> rows) (db st)).
    { destruct rows as [| r rows'] eqn:Hr.
      - exfalso. apply Hact. by apply Hnil.
      - by injection Hrun as Hreply Hd'. }
    clear Hrun. destruct Hrun' as [Hreply Hd'].
    rewrite length_fmap, Hafter in Hreply.
    assert (Hgone : ∀ s, s ∈ strikes (db st) → s ∉ strikes d' → s ∈ rows).
    { intros s Hs Hnot. apply Hiff; [done |].
      destruct (decide (strike_id s ∈ strike_id <$> rows)) as [| Hn]; [done |].
      exfalso. apply Hnot. rewrite Hd'. unfold delete_strikes. simpl.
      by apply list_elem_of_filter. }
    rewrite Hd', Hafter.
    split; [lia |]. split; [intros _; rewrite Hreply; f_equal; lia |].
    split; [lia |]. split; [apply sublist_filter |].
    split; [lia |]. split.
    + intros s Hs Hnot. rewrite <- Hd' in Hnot.
      pose proof (Hgone s Hs Hnot) as Hsr. split.
      * by apply Hrows_elem.
      * intros k Hk Hkact. unfold delete_strikes in Hk. simpl in Hk.
        apply list_elem_of_filter in Hk as [Hkeep Hk].
        by apply Hbefore.
    + intros -> Ha1. split; [rewrite Hreply; f_equal; lia | lia].
Qed.

Lemma one_strike_store_wf : strikes_wf one_strike_store.
Proof.
  split.
  - apply (bool_decide_unpack _). by vm_compute.
  - apply (bool_decide_unpack _). by vm_compute.
Defined.

Lemma strikes_remove_soonest_first_witness :
  strikes_wf (db (start one_strike_store)) ∧ 1 ≤ 2
  ∧ (strikes_remove sample_env alice 2 (start one_strike_store)).1
    = Removed 1 0.
Proof.
  split; [exact one_strike_store_wf |]. split; [lia |].
  pose proof (strikes_remove_soonest_first sample_env alice 2
                (start one_strike_store) one_strike_store_wf ltac:(lia)) as H.
  destruct H as (_ & _ & _ & _ & _ & _ & Hscenario).
  apply Hscenario; reflexivity.
Defined.

(** Removing 2 of Alice's three active strikes deletes the two that expire
    first (days 20 and 30) and keeps the one that expires on day 40. *)
Example strikes_remove_two_of_three :
  let r := strikes_remove sample_env alice 2 (start three_strikes_store) in
  r.1 = Removed 2 1
  ∧ strikes (db r.2) = [sample_strike 3 1 (days 40)].
Proof. vm_compute. done. Qed.

(** ** Orientation *)

Lemma get_member_id g mid m : get_member g mid = Some m → m_id m = mid.
Proof.
  unfold get_member. intros H. apply find_some in H as [_ H].
  by apply Z.eqb_eq.
Qed.

Lemma find_member_id env mid m : find_member env mid = Some m → m_id m = mid.
Proof.
  unfold find_member. induction (guilds env) as [| g gs IH]; simpl; [done |].
  destruct (get_member g mid) as [m' |] eqn:Hg.
  - intros [= <-]. by eapply get_member_id.
  - exact IH.
Qed.

Lemma touches_posts id did evs :
  id ≠ did →
  Forall (λ e, ∃ r, e = EvRobloxPost did r) evs →
  Forall (λ e, touches id e = false) evs.
Proof.
  intros Hne Hall. eapply Forall_impl; [exact Hall |].
  intros e [r ->]. simpl. apply Z.eqb_neq. congruence.
Qed.

(** The 5-day warning of one row either does nothing or posts one alert and
    latches [warned_5d]. *)
Lemma warn_row_run env alert did remaining warned st :
  (warn_row env alert did remaining warned st = (tt, st))
  ∨ (∃ m, find_member env did = Some m
          ∧ (days 4 + hours 23 <=? remaining) = true
          ∧ warn_row env alert did remaining warned st =
              (tt, {| db := set_warned_5d did (db st); ticks := ticks st;
                      sql_count := S (sql_count st);
                      trace := trace st ++ [EvAlert did remaining] |})).
Proof.
  unfold warn_row.
  destruct (negb warned); simpl; [| by left].
  destruct (days 4 + hours 23 <=? remaining) eqn:Hlo; simpl; [| by left].
  destruct (remaining <=? days 5 + hours 1); simpl; [| by left].
  destruct alert; [| by left].
  destruct (find_member env did) as [m |] eqn:Hm; [| by left].
  right. exists m. split; [done |]. split; [done |].
  run_step. by rewrite (find_member_id _ _ _ Hm).
Qed.

(** The overdue enforcement of one row either does nothing or makes the
    calls of [expiry_events] and latches [expired_handled]. *)
Lemma expire_row_run env did remaining handled st :
  (expire_row env did remaining handled st = (tt, st)
   ∧ ((remaining <=? 0) && negb handled = false ∨ find_member env did = None))
  ∨ (∃ m n, find_member env did = Some m
            ∧ (remaining <=? 0) && negb handled = true
            ∧ expire_row env did remaining handled st =
                (tt, {| db := set_expired_handled did (db st);
                        ticks := ticks st; sql_count := n;
                        trace := trace st ++ expiry_events env did (db st) |})).
Proof.
  unfold expire_row.
  destruct ((remaining <=? 0) && negb handled) eqn:Hc; [| left; by split; [| left]].
  destruct (find_member env did) as [m |] eqn:Hm; [| left; by split; [| right]].
  right. rewrite (find_member_id _ _ _ Hm). run_step.
  destruct (try_remove_from_roblox_run env did
              {| db := db st; ticks := ticks st; sql_count := sql_count st;
                 trace := trace st ++ [EvSend did NoticeOrientationExpired] |})
    as (b & n & Heq).
  rewrite Heq. simpl. unfold expiry_events.
  destruct (command_log_channel env); simpl.
  - exists m, (S n). split; [done |]. split; [done |].
    unfold emit, ret. simpl. by rewrite <- !app_assoc.
  - exists m, (S n). split; [done |]. split; [done |].
    unfold ret. simpl. by rewrite <- !app_assoc.
Qed.

Lemma poll_row_run env alert now did o st :
  ∃ st' evs,
    poll_row env alert now (did, o) st = (tt, st')
    ∧ ticks st' = ticks st
    ∧ trace st' = trace st ++ evs
    ∧ ((db st' = db st ∧ evs = []
        ∧ (find_member env did = None
           ∨ ∀ dl, deadline o = Some dl →
                   (dl - now <=? 0) && negb (expired_handled o) = false))
       ∨ (db st' = set_warned_5d did (db st)
          ∧ ∃ rem, evs = [EvAlert did rem] ∧ is_Some (find_member env did)
                   ∧ ∀ dl, deadline o = Some dl → 0 < dl - now)
       ∨ (db st' = set_expired_handled did (db st)
          ∧ evs = expiry_events env did (db st)
          ∧ is_Some (find_member env did)
          ∧ expired_handled o = false)).
Proof.
  unfold poll_row. simpl. destruct (deadline o) as [dl |] eqn:Hdl.
  - unfold bind.
    destruct (warn_row_run env alert did (dl - now) (warned_5d o) st)
      as [Hw | (m & Hm & Hlo & Hw)]; rewrite Hw.
    + destruct (expire_row_run env did (dl - now) (expired_handled o) st)
        as [[He Hwhy] | (m & n & Hm & Hc & He)]; rewrite He.
      * exists st, []. rewrite app_nil_r. repeat split; try done.
        left. repeat split; try done.
        destruct Hwhy as [Hwhy | Hwhy]; [right | by left].
        by intros ? [= <-].
      * eexists _, _. repeat split; try done.
        right. right. simpl. repeat split; try done.
        apply andb_true_iff in Hc as [_ Hc]. by destruct (expired_handled o).
    + assert (Hrem : 0 < dl - now).
      { apply Z.leb_le in Hlo. unfold days, hours, seconds in Hlo. lia. }
      assert (Hnot : (dl - now <=? 0) = false) by (apply Z.leb_gt; lia).
      unfold expire_row. rewrite Hnot. simpl. unfold ret.
      eexists _, _. repeat split; try done.
      right. left. simpl. split; [done |].
      exists (dl - now). repeat split; try done. by intros ? [= <-].
  - exists st, []. rewrite app_nil_r. repeat split; try done.
    left. repeat split; try done. right. done.
Qed.

Lemma for_each_app {A} (l k : list A) (body : A → M unit) st :
  for_each (l ++ k) body st = for_each k body (for_each l body st).2.
Proof.
  revert st. induction l as [| x l IH]; intros st; simpl.
  - done.
  - unfold bind. destruct (body x st) as [[] st1]. apply IH.
Qed.

Lemma for_each_cons {A} (x : A) (l : list A) (body : A → M unit) st :
  for_each (x :: l) body st = for_each l body (body x st).2.
Proof. simpl. unfold bind. by destruct (body x st) as [[] st1]. Qed.

Lemma touches_expiry_events env id did d :
  id ≠ did → Forall (λ e, touches id e = false) (expiry_events env did d).
Proof.
  intros Hne. assert (Hb : (did =? id) = false) by (apply Z.eqb_neq; congruence).
  unfold expiry_events. constructor; [done |].
  apply Forall_app. split.
  - eapply touches_posts; [done | apply removal_events_posts].
  - constructor; [done |].
    destruct (command_log_channel env); repeat constructor; done.
Qed.

Lemma orientations_set_warned_ne id did d :
  id ≠ did →
  orientations (set_warned_5d did d) !! id = orientations d !! id.
Proof. intros Hne. simpl. by rewrite lookup_alter_ne. Qed.

Lemma orientations_set_expired_ne id did d :
  id ≠ did →
  orientations (set_expired_handled did d) !! id = orientations d !! id.
Proof. intros Hne. simpl. by rewrite lookup_alter_ne. Qed.

(** Rows of other members leave the record of [id] and the verification
    table alone, read no clock and make no call that concerns [id]. *)
Lemma poll_rows_frame env alert now rows id st :
  id ∉ rows.*1 →
  ∃ st' evs,
    for_each rows (poll_row env alert now) st = (tt, st')
    ∧ ticks st' = ticks st
    ∧ trace st' = trace st ++ evs
    ∧ Forall (λ e, touches id e = false) evs
    ∧ orientations (db st') !! id = orientations (db st) !! id
    ∧ roblox_verification (db st') = roblox_verification (db st).
Proof.
  revert st. induction rows as [| [did o] rows IH]; intros st Hnot.
  - exists st, []. rewrite app_nil_r. by repeat split.
  - rewrite fmap_cons in Hnot. apply not_elem_of_cons in Hnot as [Hne Hnot].
    simpl in Hne.
    destruct (poll_row_run env alert now did o st)
      as (st1 & evs1 & Hrun & Ht1 & Htr1 & Hcase).
    destruct (IH st1 Hnot) as (st' & evs & Hrest & Ht & Htr & Hall & Ho & Hv).
    exists st', (evs1 ++ evs). rewrite for_each_cons, Hrun. simpl.
    split; [exact Hrest |]. split; [congruence |].
    split; [by rewrite Htr, Htr1, app_assoc |].
    destruct Hcase as [(Hd & -> & _) | [(Hd & rem & -> & _) | (Hd & -> & _)]];
      rewrite Ho, Hv, Hd.
    + by repeat split.
    + repeat split; [| by apply orientations_set_warned_ne].
      constructor; [| done]. simpl. apply Z.eqb_neq. congruence.
    + repeat split; [| by apply orientations_set_expired_ne].
      apply Forall_app. split; [by apply touches_expiry_events | done].
Qed.

Lemma pending_rows_keys d : NoDup (pending_orientations d).*1.
Proof. unfold pending_orientations. apply NoDup_fst_map_to_list. Qed.

Lemma pending_rows_elem d id o :
  (id, o) ∈ pending_orientations d
  ↔ orientations d !! id = Some o ∧ passed o = false.
Proof.
  unfold pending_orientations. rewrite elem_of_map_to_list.
  by rewrite map_lookup_filter_Some.
Qed.

Lemma pending_rows_split d id o :
  orientations d !! id = Some o → passed o = false →
  ∃ l1 l2, pending_orientations d = l1 ++ (id, o) :: l2
           ∧ (id ∉ l1.*1) ∧ (id ∉ l2.*1).
Proof.
  intros Ho Hp.
  assert (Hin : (id, o) ∈ pending_orientations d) by (by apply pending_rows_elem).
  apply list_elem_of_split in Hin as (l1 & l2 & Heq).
  exists l1, l2. split; [done |].
  pose proof (pending_rows_keys d) as Hnd. rewrite Heq, fmap_app, fmap_cons in Hnd.
  apply NoDup_app in Hnd as (_ & Hdisj & Hnd2).
  apply NoDup_cons in Hnd2 as [Hn2 _]. split; [| done].
  intros Hin1. apply (Hdisj id Hin1). simpl. by left.
Qed.

Lemma pending_rows_absent d id :
  (∀ o, orientations d !! id = Some o → passed o = true) →
  id ∉ (pending_orientations d).*1.
Proof.
  intros Hp Hin. apply list_elem_of_fmap in Hin as ([id' o] & Heq & Hin).
  simpl in Heq. subst id'. apply pending_rows_elem in Hin as [Ho Hf].
  specialize (Hp o Ho). congruence.
Qed.

Lemma filter_touches_none id evs :
  Forall (λ e, touches id e = false) evs →
  filter (λ e, touches id e = true) evs = [].
Proof.
  intros Hall. apply filter_none.
  eapply Forall_impl; [exact Hall |]. simpl. intros e He. congruence.
Qed.

Lemma filter_touches_expiry env id d :
  filter (λ e, touches id e = true) (expiry_events env id d)
  = expiry_events env id d.
Proof.
  apply filter_all. unfold expiry_events.
  constructor; [simpl; apply Z.eqb_refl |].
  apply Forall_app. split.
  - eapply Forall_impl; [apply removal_events_posts |].
    intros e [r ->]. simpl. apply Z.eqb_refl.
  - constructor; [simpl; apply Z.eqb_refl |].
    destruct (command_log_channel env); repeat constructor.
    simpl. apply Z.eqb_refl.
Qed.

Lemma orientation_reminder_loop_run env st :
  ∃ t,
    orientation_reminder_loop env st
    = for_each (pending_orientations (db st))
        (poll_row env (orientation_alert_channel env) (clock env (ticks st)))
        {| db := db st; ticks := t; sql_count := S (sql_count st);
           trace := trace st |}.
Proof.
  unfold orientation_reminder_loop. run_step.
  destruct (pending_orientations (db st)); by eexists.
Qed.

Lemma expiry_events_ext env id d1 d :
  roblox_verification d1 = roblox_verification d →
  expiry_events env id d1 = expiry_events env id d.
Proof. intros H. unfold expiry_events, removal_events. by rewrite H. Qed.

(** A run of the poll, seen from one record.  If the record is absent or
    passed, no row concerns it.  Otherwise the rows before it and after it
    do not concern it, and its own row does one of three things. *)
Lemma poll_from_record env st id :
  let now := clock env (ticks st) in
  let st' := (orientation_reminder_loop env st).2 in
  (orientations (db st') !! id = orientations (db st) !! id
   ∧ Forall (λ e, touches id e = false) (new_events st st')
   ∧ ∀ o, orientations (db st) !! id = Some o → passed o = true)
  ∨ ∃ o d1 d2 evs1 evs2 evs3,
      orientations (db st) !! id = Some o ∧ passed o = false
      ∧ new_events st st' = evs1 ++ evs2 ++ evs3
      ∧ Forall (λ e, touches id e = false) evs1
      ∧ Forall (λ e, touches id e = false) evs3
      ∧ orientations d1 !! id = Some o
      ∧ roblox_verification d1 = roblox_verification (db st)
      ∧ orientations (db st') !! id = orientations d2 !! id
      ∧ ((d2 = d1 ∧ evs2 = []
          ∧ (find_member env id = None
             ∨ ∀ dl, deadline o = Some dl →
                     (dl - now <=? 0) && negb (expired_handled o) = false))
         ∨ (d2 = set_warned_5d id d1
            ∧ ∃ rem, evs2 = [EvAlert id rem] ∧ is_Some (find_member env id)
                     ∧ ∀ dl, deadline o = Some dl → 0 < dl - now)
         ∨ (d2 = set_expired_handled id d1
            ∧ evs2 = expiry_events env id d1
            ∧ is_Some (find_member env id)
            ∧ expired_handled o = false)).
Proof.
  intros now st'. unfold st'.
  destruct (orientation_reminder_loop_run env st) as [t ->]. fold now.
  set (st0 := {| db := db st; ticks := t;
                 sql_count := S (sql_count st); trace := trace st |}).
  set (body := poll_row env (orientation_alert_channel env) now).
  assert (Hpending : (∀ o, orientations (db st) !! id = Some o → passed o = true)
                     ∨ ∃ o, orientations (db st) !! id = Some o ∧ passed o = false).
  { destruct (orientations (db st) !! id) as [o |] eqn:Ho; [| by left].
    destruct (passed o) eqn:Hp; [left | right; by exists o].
    by intros ? [= <-]. }
  destruct Hpending as [Hdone | (o & Ho & Hp)].
  - left.
    destruct (poll_rows_frame env (orientation_alert_channel env) now
                (pending_orientations (db st)) id st0)
      as (st1 & evs & Hrun & _ & Htr & Hall & Hrec & _).
    { by apply pending_rows_absent. }
    fold body in Hrun. rewrite Hrun. cbn [snd].
    split; [by rewrite Hrec |]. split; [| done].
    by erewrite new_events_app by exact Htr.
  - right.
    destruct (pending_rows_split (db st) id o Ho Hp)
      as (l1 & l2 & Hsplit & Hn1 & Hn2).
    rewrite Hsplit, for_each_app.
    destruct (poll_rows_frame env (orientation_alert_channel env) now l1 id st0 Hn1)
      as (st1 & evs1 & Hrun1 & _ & Htr1 & Hall1 & Hrec1 & Hv1).
    fold body in Hrun1. rewrite Hrun1. cbn [snd]. rewrite for_each_cons.
    destruct (poll_row_run env (orientation_alert_channel env) now id o st1)
      as (st2 & evs2 & Hrun2 & _ & Htr2 & Hcase).
    fold body in Hrun2. rewrite Hrun2. cbn [snd].
    destruct (poll_rows_frame env (orientation_alert_channel env) now l2 id st2 Hn2)
      as (st3 & evs3 & Hrun3 & _ & Htr3 & Hall3 & Hrec3 & _).
    fold body in Hrun3. rewrite Hrun3. cbn [snd].
    exists o, (db st1), (db st2), evs1, evs2, evs3.
    split; [done |]. split; [done |]. split.
    { apply new_events_app. rewrite Htr3, Htr2, Htr1. simpl.
      by rewrite <- !app_assoc. }
    split; [done |]. split; [done |].
    split; [by rewrite Hrec1 |]. split; [done |]. split; [done |].
    exact Hcase.
Qed.

Lemma poll_trace_grows env st :
  trace (orientation_reminder_loop env st).2
  = trace st ++ new_events st (orientation_reminder_loop env st).2.
Proof.
  destruct (orientation_reminder_loop_run env st) as [t ->].
  set (body := poll_row _ _ _).
  generalize (pending_orientations (db st)). intros rows.
  assert (Hgen : ∀ rs s, ∃ evs, trace (for_each rs body s).2 = trace s ++ evs).
  { induction rs as [| [j oj] rs IH]; intros s.
    - exists []. simpl. by rewrite app_nil_r.
    - rewrite for_each_cons.
      destruct (poll_row_run env (orientation_alert_channel env)
                  (clock env (ticks st)) j oj s)
        as (s1 & e1 & Hr & _ & Ht & _).
      fold body in Hr. rewrite Hr. cbn [snd]. destruct (IH s1) as (e2 & He2).
      exists (e1 ++ e2). by rewrite He2, Ht, app_assoc. }
  destruct (Hgen rows {| db := db st; ticks := t;
                         sql_count := S (sql_count st); trace := trace st |})
    as (evs & Hevs).
  simpl in Hevs. rewrite Hevs. f_equal. symmetry. by apply new_events_app.
Qed.

(** C9.  When the member of an orientation record is in no guild, a run of
    the poll leaves the record as it was, whatever its deadline, and makes
    no call that concerns the member: no alert, notice, removal post, kick or
    log entry.  In particular [warned_5d] and [expired_handled] keep their
    values, so a record that awaited enforcement still awaits it. *)
Theorem unresolved_member_record_untouched env st id :
  find_member env id = None →
  let st' := (orientation_reminder_loop env st).2 in
  orientations (db st') !! id = orientations (db st) !! id
  ∧ Forall (λ e, touches id e = false) (new_events st st').
Proof.
  intros Hnone st'.
  destruct (poll_from_record env st id)
    as [(Hrec & Hall & _)
       | (o & d1 & d2 & evs1 & evs2 & evs3 & Ho & Hp & Hev & Hall1 & Hall3
          & Ho1 & _ & Hrec & Hcase)].
  - by split.
  - fold st' in Hev, Hrec.
    assert (Hsame : d2 = d1 ∧ evs2 = []).
    { destruct Hcase as [(Hd & He & _)
                        | [(_ & rem & _ & Hsome & _) | (_ & _ & Hsome & _)]].
      - done.
      - rewrite Hnone in Hsome. by destruct Hsome.
      - rewrite Hnone in Hsome. by destruct Hsome. }
    destruct Hsame as [-> ->].
    split; [by rewrite Hrec, Ho1, Ho |].
    rewrite Hev. simpl. apply Forall_app. by split.
Qed.

Lemma unresolved_member_record_untouched_witness :
  find_member sample_env 5 = None
  ∧ orientations
      (db (orientation_reminder_loop sample_env (start dave_overdue)).2) !! 5
    = orientations dave_overdue !! 5.
Proof.
  split; [reflexivity |].
  apply (unresolved_member_record_untouched sample_env (start dave_overdue) 5).
  reflexivity.
Defined.

Lemma expiry_event_touches id e :
  is_expiry_event id e = true → touches id e = true.
Proof.
  destruct e as [m n | m r | m why | title about | m rem | r | j m]; simpl;
    try done.
  - by destruct n.
  - by destruct why.
  - destruct about; [| done]. intros H. by apply andb_true_iff in H as [_ H].
Qed.

Lemma untouched_not_expiry id evs :
  Forall (λ e, touches id e = false) evs →
  Forall (λ e, is_expiry_event id e = false) evs.
Proof.
  intros Hall. eapply Forall_impl; [exact Hall |]. simpl. intros e He.
  destruct (is_expiry_event id e) eqn:Hx; [| done].
  apply expiry_event_touches in Hx. congruence.
Qed.

Lemma bind_run {A B} (c : M A) (k : A → M B) st :
  bind c k st = k (c st).1 (c st).2.
Proof. unfold bind. by destruct (c st). Qed.

Lemma latched_set_warned id j d : latched id d → latched id (set_warned_5d j d).
Proof.
  intros (o & Ho & Hl). unfold latched. simpl.
  destruct (decide (j = id)) as [-> | Hne].
  - rewrite lookup_alter_eq, Ho. simpl. by eexists.
  - rewrite lookup_alter_ne by done. by exists o.
Qed.

Lemma latched_set_deadline id j dl d :
  latched id d → latched id (set_deadline j dl d).
Proof.
  intros (o & Ho & Hl). unfold latched. simpl.
  destruct (decide (j = id)) as [-> | Hne].
  - rewrite lookup_alter_eq, Ho. simpl. by eexists.
  - rewrite lookup_alter_ne by done. by exists o.
Qed.

Lemma latched_insert_or_nothing id j o d :
  latched id d → latched id (insert_orientation_or_nothing j o d).
Proof.
  intros (o' & Ho & Hl). unfold latched, insert_orientation_or_nothing.
  destruct (orientations d !! j) eqn:Hj; [by exists o' |]. simpl.
  rewrite lookup_insert_ne by congruence. by exists o'.
Qed.

Lemma latched_mark_passed id j t d :
  latched id d → latched id (mark_passed j t d).
Proof.
  intros (o & Ho & Hl). unfold latched, mark_passed. simpl.
  destruct (decide (j = id)) as [-> | Hne].
  - rewrite Ho, lookup_insert_eq. by eexists.
  - destruct (orientations d !! j); rewrite lookup_insert_ne by done; by exists o.
Qed.

Lemma ensure_orientation_record_run env member st :
  ∃ t n,
    ensure_orientation_record env member st =
    (tt, {| db := match orientations (db st) !! m_id member with
                  | Some _ => db st
                  | None =>
                      if truthy_id (SCIENTIFIC_TRAINEE_ROLE_ID env)
                         && has_role (SCIENTIFIC_TRAINEE_ROLE_ID env) member
                      then insert_orientation (m_id member)
                             (new_orientation (clock env (ticks st))) (db st)
                      else db st
                  end;
            ticks := t; sql_count := n; trace := trace st |}).
Proof.
  unfold ensure_orientation_record. run_step.
  destruct (orientations (db st) !! m_id member); [by eexists _, _ |].
  destruct (_ && _); by eexists _, _.
Qed.

Lemma latched_ensure env member id st :
  latched id (db st) →
  latched id (db (ensure_orientation_record env member st).2)
  ∧ trace (ensure_orientation_record env member st).2 = trace st.
Proof.
  intros Hl. destruct (ensure_orientation_record_run env member st) as (t & n & ->).
  simpl. split; [| done].
  destruct (orientations (db st) !! m_id member) eqn:Hm; [done |].
  destruct (_ && _); [| done].
  destruct Hl as (o & Ho & Hl). exists o. split; [| done]. simpl.
  rewrite lookup_insert_ne; [done | congruence].
Qed.

Lemma log_not_expiry env id title about st :
  String.eqb title "Orientation Expiry Enforced" = false →
  ∃ evs, log_action env title about st =
           (tt, {| db := db st; ticks := ticks st; sql_count := sql_count st;
                   trace := trace st ++ evs |})
         ∧ Forall (λ e, is_expiry_event id e = false) evs.
Proof.
  intros Ht. unfold log_action. destruct (command_log_channel env).
  - exists [EvLog title about]. split; [done |].
    constructor; [| done]. simpl. destruct about; [| done]. by rewrite Ht.
  - exists []. split; [| done]. unfold ret. rewrite app_nil_r. by destruct st.
Qed.

(** Every operation on the orientation table keeps a latch that is set and
    makes none of the calls of the overdue enforcement for that record. *)
Lemma perform_keeps_latch a id st :
  latched id (db st) →
  latched id (db (perform a st))
  ∧ ∃ evs, trace (perform a st) = trace st ++ evs
           ∧ Forall (λ e, is_expiry_event id e = false) evs.
Proof.
  intros Hl. destruct a as [env | env before after | env member | env member
                           | env member ndays]; simpl.
  - (* the poll *)
    split.
    + destruct (poll_from_record env st id)
        as [(Hrec & _ & _)
           | (o & d1 & d2 & evs1 & evs2 & evs3 & Ho & Hp & _ & _ & _
              & Ho1 & _ & Hrec & Hcase)].
      * destruct Hl as (o & Ho & Hl). exists o. by rewrite Hrec.
      * destruct Hl as (o' & Ho' & Hl). rewrite Ho in Ho'. injection Ho' as <-.
        unfold latched. rewrite Hrec.
        destruct Hcase as [(-> & _) | [(-> & _) | (_ & _ & _ & Hf)]].
        -- by exists o.
        -- apply latched_set_warned. by exists o.
        -- congruence.
    + exists (new_events st (orientation_reminder_loop env st).2).
      split; [apply poll_trace_grows |].
      destruct (poll_from_record env st id)
        as [(_ & Hall & _)
           | (o & d1 & d2 & evs1 & evs2 & evs3 & Ho & Hp & Hev & Hall1 & Hall3
              & _ & _ & _ & Hcase)].
      * by apply untouched_not_expiry.
      * rewrite Hev. apply Forall_app. split; [by apply untouched_not_expiry |].
        apply Forall_app. split; [| by apply untouched_not_expiry].
        destruct Hcase as [(_ & -> & _) | [(_ & rem & -> & _) | (_ & _ & _ & Hf)]].
        -- done.
        -- by repeat constructor.
        -- destruct Hl as (o' & Ho' & Hl). congruence.
  - (* a role update *)
    unfold on_member_update. destruct (_ && _); simpl.
    + run_step. destruct (command_log_channel env); simpl.
      * split; [by apply latched_insert_or_nothing |].
        eexists. split; [done |]. by repeat constructor.
      * split; [by apply latched_insert_or_nothing |].
        exists []. by rewrite app_nil_r.
    + split; [done |]. exists []. by rewrite app_nil_r.
  - (* the lazy creation *)
    destruct (latched_ensure env member id st Hl) as [Hl' Htr].
    split; [done |]. exists []. by rewrite app_nil_r.
  - (* passing *)
    unfold passedorientation. run_step. destruct (command_log_channel env); simpl.
    + split; [by apply latched_mark_passed |].
      eexists. split; [done |]. by repeat constructor.
    + split; [by apply latched_mark_passed |].
      exists []. by rewrite app_nil_r.
  - (* an extension *)
    unfold extendorientation. rewrite bind_run.
    destruct (latched_ensure env member id st Hl) as [Hl' Htr].
    destruct (ensure_orientation_record env member st) as [[] st1].
    simpl in Hl', Htr. run_step.
    destruct (orientations (db st1) !! m_id member) as [o |]; simpl.
    + destruct (passed o); simpl.
      * split; [done |]. exists []. by rewrite app_nil_r, Htr.
      * destruct (deadline o); simpl; destruct (command_log_channel env); simpl;
          (split; [by apply latched_set_deadline |]); rewrite Htr;
          first [ eexists; split; [done |]; by repeat constructor
                | exists []; by rewrite app_nil_r ].
    + split; [done |]. exists []. by rewrite app_nil_r, Htr.
Qed.

Lemma perform_all_keeps_latch l id st :
  latched id (db st) →
  latched id (db (perform_all l st))
  ∧ ∃ evs, trace (perform_all l st) = trace st ++ evs
           ∧ Forall (λ e, is_expiry_event id e = false) evs.
Proof.
  revert st. induction l as [| a l IH]; intros st Hl; simpl.
  - split; [done |]. exists []. by rewrite app_nil_r.
  - destruct (perform_keeps_latch a id st Hl) as (Hl1 & evs1 & Ht1 & Hall1).
    destruct (IH (perform a st) Hl1) as (Hl2 & evs2 & Ht2 & Hall2).
    split; [done |]. exists (evs1 ++ evs2).
    split; [by rewrite Ht2, Ht1, app_assoc | by apply Forall_app].
Qed.

(** C6 (counterexample).  Dave's record is overdue and not yet handled, but
    Dave is in no guild: a run of the poll makes no call at all and leaves
    [expired_handled] false. *)
Lemma overdue_unresolved_not_enforced :
  let st := start dave_overdue in
  let st' := (orientation_reminder_loop sample_env st).2 in
  (deadline <$> orientations (db st) !! 5) = Some (Some (days 1))
  ∧ days 1 - clock sample_env 0 ≤ 0
  ∧ (expired_handled <$> orientations (db st) !! 5) = Some false
  ∧ (expired_handled <$> orientations (db st') !! 5) = Some false
  ∧ new_events st st' = [].
Proof. vm_compute. repeat split; try done. Qed.

(** C6 (amended).  For every record that is not passed, has a deadline with
    [deadline - now <= 0], has [expired_handled = false] and whose member is
    found in a guild, one run of the poll makes the calls of the overdue
    enforcement (notice, removal posts, kick, log entry) once, whatever they
    answer, and sets [expired_handled]; the other fields keep their values.
    Once the latch of a record is set, no sequence of polls, role updates,
    lazy creations, passes and extensions clears it or makes any of those
    calls for the record again. *)
Theorem overdue_enforced_once_if_resolved env st id o dl m actions :
  (orientations (db st) !! id = Some o → passed o = false →
   deadline o = Some dl → expired_handled o = false →
   find_member env id = Some m → dl - clock env (ticks st) ≤ 0 →
   let st' := (orientation_reminder_loop env st).2 in
   orientations (db st') !! id = Some (handled o)
   ∧ filter (λ e, touches id e = true) (new_events st st')
     = expiry_events env id (db st))
  ∧ (latched id (db st) →
     let st' := perform_all actions st in
     latched id (db st')
     ∧ Forall (λ e, is_expiry_event id e = false) (new_events st st')).
Proof.
  split.
  - intros Ho Hp Hdl Hh Hm Hover st'.
    destruct (poll_from_record env st id)
      as [(_ & _ & Hpassed)
         | (o' & d1 & d2 & evs1 & evs2 & evs3 & Ho' & _ & Hev & Hall1 & Hall3
            & Ho1 & Hv1 & Hrec & Hcase)].
    { specialize (Hpassed o Ho). congruence. }
    rewrite Ho in Ho'. injection Ho' as <-. fold st' in Hev, Hrec.
    assert (Hc : (dl - clock env (ticks st) <=? 0) && negb (expired_handled o)
                 = true).
    { rewrite Hh. simpl. rewrite andb_true_r. by apply Z.leb_le. }
    destruct Hcase as [(_ & _ & [Hnone | Hnot])
                      | [(_ & rem & _ & _ & Hpos) | (-> & -> & _)]].
    + congruence.
    + specialize (Hnot dl Hdl). congruence.
    + specialize (Hpos dl Hdl). lia.
    + split.
      * rewrite Hrec. simpl. by rewrite lookup_alter_eq, Ho1.
      * rewrite Hev, !filter_app, (filter_touches_none _ _ Hall1),
          (filter_touches_none _ _ Hall3), app_nil_r. simpl.
        rewrite filter_touches_expiry. by apply expiry_events_ext.
  - intros Hl st'.
    destruct (perform_all_keeps_latch actions id st Hl) as (Hl' & evs & Ht & Hall).
    split; [done |]. by erewrite new_events_app by exact Ht.
Qed.

Lemma overdue_enforced_once_if_resolved_witness :
  let o := {| assigned_at := Some (days (-13)); deadline := Some (days 1);
              passed := false; passed_at := None;
              warned_5d := true; expired_handled := false |} in
  let st := start carol_overdue in
  let st1 := (orientation_reminder_loop sample_env st).2 in
  (orientations (db st1) !! 4 = Some (handled o)
   ∧ filter (λ e, touches 4 e = true) (new_events st st1)
     = expiry_events sample_env 4 (db st))
  ∧ Forall (λ e, is_expiry_event 4 e = false)
      (new_events st1 (perform_all [Poll sample_env; Poll sample_env] st1)).
Proof.
  intros o st st1.
  pose proof (overdue_enforced_once_if_resolved sample_env st 4 o (days 1)
                carol [] ) as [Hfirst _].
  assert (Hrun : orientations (db st1) !! 4 = Some (handled o)
                 ∧ filter (λ e, touches 4 e = true) (new_events st st1)
                   = expiry_events sample_env 4 (db st)).
  { apply Hfirst; try reflexivity. vm_compute. discriminate. }
  split; [exact Hrun |].
  pose proof (overdue_enforced_once_if_resolved sample_env st1 4 o (days 1)
                carol [Poll sample_env; Poll sample_env]) as [_ Hlatch].
  apply Hlatch. exists (handled o). split; [apply Hrun | reflexivity].
Defined.

(** ** Weekly evaluation *)

Lemma roster_member_found g r mid :
  mid ∈ roster g r → is_Some (get_member g mid).
Proof.
  unfold roster, role_members. rewrite elem_of_list_to_set, list_elem_of_fmap.
  intros (m & -> & Hm).
  apply list_elem_of_filter in Hm as [_ Hm].
  apply list_elem_of_filter in Hm as [_ Hm].
  unfold get_member.
  destruct (find (λ m', m_id m' =? m_id m) (g_members g)) eqn:Hf; [by eexists |].
  apply list_elem_of_In in Hm.
  pose proof (find_none _ _ Hf m Hm) as Hno. simpl in Hno.
  by rewrite Z.eqb_refl in Hno.
Qed.

Lemma roster_filter_lookup (ids : gset Z) (m : gmap Z Z) mid :
  mid ∈ ids → filter (λ kv : Z * Z, kv.1 ∈ ids) m !! mid = m !! mid.
Proof.
  intros Hin. destruct (m !! mid) as [v |] eqn:Hv.
  - by apply map_lookup_filter_Some_2.
  - apply map_lookup_filter_None_2. by left.
Qed.

Lemma roster_filter_dom (ids : gset Z) (m : gmap Z Z) mid :
  mid ∈ dom (filter (λ kv : Z * Z, kv.1 ∈ ids) m)
  ↔ mid ∈ ids ∧ is_Some (m !! mid).
Proof.
  rewrite elem_of_dom. split.
  - intros [v Hv]. apply map_lookup_filter_Some in Hv as [Hv Hin].
    split; [done | by eexists].
  - intros [Hin [v Hv]]. exists v. by apply map_lookup_filter_Some_2.
Qed.

Section classify.
Variables (env : Env) (guild : Guild) (tasks_map time_map sc_map : gmap Z Z).

Abbreviation is_met := (λ x, found guild x ∧ meets env tasks_map time_map x = true).
Abbreviation is_not_met :=
  (λ x, found guild x ∧ meets env tasks_map time_map x = false).

Lemma classify_member_ids acc mid :
  let r := classify_member env guild tasks_map time_map sc_map acc mid in
  (λ x : MetRow, m_id x.1) <$> r.1
  = ((λ x : MetRow, m_id x.1) <$> acc.1) ++ filter is_met [mid]
  ∧ (λ x : NotMetRow, m_id x.1.1.1) <$> r.2
    = ((λ x : NotMetRow, m_id x.1.1.1) <$> acc.2) ++ filter is_not_met [mid].
Proof.
  unfold classify_member. rewrite !filter_cons, !filter_nil.
  fold (meets env tasks_map time_map mid).
  case_decide as Hmet; case_decide as Hnot; unfold found in Hmet, Hnot;
    destruct (get_member guild mid) as [m |] eqn:Hm;
    try pose proof (get_member_id _ _ _ Hm) as Hid;
    destruct (meets env tasks_map time_map mid) eqn:Hq;
    cbv zeta; simpl; rewrite ?fmap_app, ?app_nil_r; simpl; rewrite ?Hid;
    try done;
    try (destruct Hmet as [[? ?] ?]; discriminate);
    try (destruct Hnot as [[? ?] ?]; discriminate);
    try (destruct Hmet as [_ ?]; discriminate);
    try (destruct Hnot as [_ ?]; discriminate);
    try (exfalso; apply Hmet; split; [by eexists | done]);
    try (exfalso; apply Hnot; split; [by eexists | done]).
Qed.

Lemma classify_members_ids l acc :
  let r := foldl (classify_member env guild tasks_map time_map sc_map) acc l in
  (λ x : MetRow, m_id x.1) <$> r.1
  = ((λ x : MetRow, m_id x.1) <$> acc.1) ++ filter is_met l
  ∧ (λ x : NotMetRow, m_id x.1.1.1) <$> r.2
    = ((λ x : NotMetRow, m_id x.1.1.1) <$> acc.2) ++ filter is_not_met l.
Proof.
  revert acc. induction l as [| mid l IH]; intros acc.
  - simpl. by rewrite !app_nil_r.
  - simpl foldl. destruct (IH (classify_member env guild tasks_map time_map
                                 sc_map acc mid)) as [IH1 IH2].
    destruct (classify_member_ids acc mid) as [H1 H2].
    cbv zeta. rewrite IH1, IH2, H1, H2, <- !app_assoc.
    by rewrite <- !filter_app.
Qed.

Lemma classify_zero_ids l acc :
  (λ x : MetRow, m_id x.1) <$> foldl (classify_zero guild sc_map) acc l
  = ((λ x : MetRow, m_id x.1) <$> acc) ++ filter (found guild) l.
Proof.
  revert acc. induction l as [| mid l IH]; intros acc.
  - simpl. by rewrite app_nil_r.
  - simpl foldl. rewrite IH. unfold classify_zero at 1.
    rewrite filter_cons. case_decide as Hf; unfold found in Hf;
      destruct (get_member guild mid) as [m |] eqn:Hm.
    + rewrite fmap_app, <- app_assoc. simpl.
      by rewrite (get_member_id _ _ _ Hm).
    + by destruct Hf.
    + exfalso. apply Hf. by eexists.
    + done.
Qed.

End classify.

(** The three buckets, as lists of member identifiers. *)
Lemma classify_ids env guild ids all_tasks all_time sc_map :
  let tasks_map := filter (λ kv : Z * Z, kv.1 ∈ ids) all_tasks in
  let time_map := filter (λ kv : Z * Z, kv.1 ∈ ids) all_time in
  let considered : gset Z := dom tasks_map ∪ dom time_map in
  let b := classify env guild ids all_tasks all_time sc_map in
  met_ids b
  = filter (λ x, found guild x ∧ meets env tasks_map time_map x = true)
      (elements considered)
  ∧ not_met_ids b
    = filter (λ x, found guild x ∧ meets env tasks_map time_map x = false)
        (elements considered)
  ∧ zero_ids b = filter (found guild) (elements (ids ∖ considered)).
Proof.
  intros tasks_map time_map considered b.
  unfold met_ids, not_met_ids, zero_ids, b, classify. simpl.
  fold tasks_map time_map considered.
  destruct (classify_members_ids env guild tasks_map time_map sc_map
              (elements considered) ([], [])) as [H1 H2].
  split; [exact H1 |]. split; [exact H2 |].
  apply (classify_zero_ids guild sc_map _ []).
Qed.

(** C3.  For a roster member, with an absent counter read as 0: the member
    is in Met exactly when some counter table has a row for the member, the
    tasks reach [WEEKLY_REQUIREMENT] and the whole minutes reach
    [WEEKLY_TIME_REQUIREMENT]; in Not-met exactly when some table has a row
    and that test fails; in Zero-activity exactly when neither table has a
    row.  The member is in exactly one bucket, and no member is listed twice.
    With 2 tasks and 3000 seconds under a 3-task, 45-minute requirement the
    member is in Not-met. *)
Theorem weekly_buckets_partition env g r all_tasks all_time sc_map mid :
  mid ∈ roster g r →
  let b := classify env g (roster g r) all_tasks all_time sc_map in
  let touched := is_Some (all_tasks !! mid) ∨ is_Some (all_time !! mid) in
  let tasks_completed := default 0 (all_tasks !! mid) in
  let minutes := Z.div (default 0 (all_time !! mid)) 60 in
  let quota := WEEKLY_REQUIREMENT env ≤ tasks_completed
               ∧ WEEKLY_TIME_REQUIREMENT env ≤ minutes in
  (mid ∈ met_ids b ↔ touched ∧ quota)
  ∧ (mid ∈ not_met_ids b ↔ touched ∧ ¬ quota)
  ∧ (mid ∈ zero_ids b ↔ ¬ touched)
  ∧ ((mid ∈ met_ids b ∧ (mid ∉ not_met_ids b) ∧ (mid ∉ zero_ids b))
     ∨ ((mid ∉ met_ids b) ∧ mid ∈ not_met_ids b ∧ (mid ∉ zero_ids b))
     ∨ ((mid ∉ met_ids b) ∧ (mid ∉ not_met_ids b) ∧ mid ∈ zero_ids b))
  ∧ NoDup (met_ids b ++ not_met_ids b ++ zero_ids b)
  ∧ (0 < WEEKLY_REQUIREMENT env ∨ 0 < WEEKLY_TIME_REQUIREMENT env →
     (mid ∈ met_ids b ↔ quota))
  ∧ (WEEKLY_REQUIREMENT env = 3 → WEEKLY_TIME_REQUIREMENT env = 45 →
     all_tasks !! mid = Some 2 → all_time !! mid = Some 3000 →
     mid ∈ not_met_ids b).
Proof.
  intros Hin b touched tasks_completed minutes quota.
  destruct (classify_ids env g (roster g r) all_tasks all_time sc_map)
    as (Hmet & Hnot & Hzero).
  fold b in Hmet, Hnot, Hzero.
  set (tasks_map := filter (λ kv : Z * Z, kv.1 ∈ roster g r) all_tasks) in *.
  set (time_map := filter (λ kv : Z * Z, kv.1 ∈ roster g r) all_time) in *.
  set (considered := dom tasks_map ∪ dom time_map) in *.
  assert (Hfound : found g mid) by (by apply roster_member_found in Hin).
  assert (Hcons : mid ∈ considered ↔ touched).
  { unfold considered, tasks_map, time_map.
    rewrite elem_of_union, !roster_filter_dom. unfold touched. tauto. }
  assert (Hmeets : meets env tasks_map time_map mid = true ↔ quota).
  { unfold meets, meets_quota, tasks_map, time_map.
    rewrite !roster_filter_lookup by done.
    rewrite andb_true_iff, !Z.leb_le. done. }
  assert (Hmeetsf : meets env tasks_map time_map mid = false ↔ ¬ quota).
  { rewrite <- Hmeets. by destruct (meets env tasks_map time_map mid). }
  assert (H1 : mid ∈ met_ids b ↔ touched ∧ quota).
  { rewrite Hmet, list_elem_of_filter, elem_of_elements, Hcons, Hmeets. tauto. }
  assert (H2 : mid ∈ not_met_ids b ↔ touched ∧ ¬ quota).
  { rewrite Hnot, list_elem_of_filter, elem_of_elements, Hcons, Hmeetsf. tauto. }
  assert (H3 : mid ∈ zero_ids b ↔ ¬ touched).
  { rewrite Hzero, list_elem_of_filter, elem_of_elements, elem_of_difference,
      Hcons. tauto. }
  split; [exact H1 |]. split; [exact H2 |]. split; [exact H3 |].
  split.
  { rewrite H1, H2, H3.
    destruct (decide touched) as [Ht | Ht]; [| tauto].
    destruct (decide quota) as [Hq | Hq]; tauto. }
  split.
  { rewrite Hmet, Hnot, Hzero. apply NoDup_app. split; [| split].
    - apply NoDup_filter, NoDup_elements.
    - intros x Hx Hx'. apply list_elem_of_filter in Hx as [[_ Hxm] Hxc].
      apply elem_of_app in Hx' as [Hx' | Hx'].
      + apply list_elem_of_filter in Hx' as [[_ Hxn] _]. congruence.
      + apply list_elem_of_filter in Hx' as [_ Hxz].
        apply elem_of_elements in Hxc, Hxz.
        apply elem_of_difference in Hxz as [_ Hxz]. by apply Hxz.
    - apply NoDup_app. split; [| split].
      + apply NoDup_filter, NoDup_elements.
      + intros x Hx Hx'. apply list_elem_of_filter in Hx as [_ Hxc].
        apply list_elem_of_filter in Hx' as [_ Hxz].
        apply elem_of_elements in Hxc, Hxz.
        apply elem_of_difference in Hxz as [_ Hxz]. by apply Hxz.
      + apply NoDup_filter, NoDup_elements. }
  split.
  { intros Hpos. rewrite H1. split; [tauto |]. intros Hq. split; [| done].
    destruct (decide touched) as [Ht | Ht]; [done | exfalso].
    assert (Hnone : all_tasks !! mid = None ∧ all_time !! mid = None).
    { unfold touched in Ht. rewrite <- !not_eq_None_Some in Ht.
      destruct (all_tasks !! mid), (all_time !! mid); try done;
        exfalso; apply Ht; auto. }
    destruct Hnone as [Hn1 Hn2]. unfold quota, tasks_completed, minutes in Hq.
    rewrite Hn1, Hn2 in Hq. simpl in Hq. destruct Hq as [Hq1 Hq2].
    change (Z.div 0 60) with 0 in Hq2. lia. }
  intros Hreq Htime Htasks Hsecs. apply H2. unfold touched, quota,
    tasks_completed, minutes. rewrite Htasks, Hsecs, Hreq, Htime. simpl.
  split; [left; by eexists |]. lia.
Qed.

Lemma weekly_buckets_partition_witness :
  let b := classify sample_env sample_guild (roster sample_guild 10)
             (weekly_tasks sample_week) (roblox_time sample_week) ∅ in
  1 ∈ roster sample_guild 10 ∧ 1 ∈ not_met_ids b ∧ (1 ∉ met_ids b).
Proof.
  intros b.
  assert (Hin : 1 ∈ roster sample_guild 10).
  { apply (bool_decide_unpack _). by vm_compute. }
  pose proof (weekly_buckets_partition sample_env sample_guild 10
                (weekly_tasks sample_week) (roblox_time sample_week) ∅ 1 Hin)
    as (Hmet & _ & _ & _ & _ & _ & Hscenario).
  split; [exact Hin |]. split.
  - apply Hscenario; reflexivity.
  - intros Hm. apply Hmet in Hm as [_ [Hq _]]. vm_compute in Hq. by apply Hq.
Defined.

Lemma weekly_strike_flow_run env row st :
  ∃ n evs,
    weekly_strike_flow env row st =
    (tt, {| db := insert_strike (m_id row.1.1.1) "Missed weekly quota"
                    (clock env (ticks st)) (clock env (ticks st) + days 90)
                    None true (db st);
            ticks := S (ticks st); sql_count := n;
            trace := trace st ++ evs |}).
Proof.
  unfold weekly_strike_flow. rewrite bind_run, issue_strike_run. cbn [fst snd].
  destruct (3 <=? _).
  - match goal with |- context [enforce_three_strikes env ?m ?s] =>
      destruct (enforce_three_strikes_run env m s) as (n & evs & Heq & _) end.
    rewrite Heq. simpl. eexists _, _. by rewrite <- app_assoc.
  - unfold ret. by eexists _, _.
Qed.

(** The strike pass appends one row per bucket entry, in order, and touches
    nothing else in the store. *)
Lemma strike_pass_run env rows st :
  ∃ n evs,
    for_each rows (weekly_strike_flow env) st =
    (tt, {| db := with_strikes
                    (strikes (db st)
                     ++ quota_strikes env (strikes_seq (db st)) (ticks st) rows)
                    (strikes_seq (db st) + Z.of_nat (length rows)) (db st);
            ticks := (ticks st + length rows)%nat; sql_count := n;
            trace := trace st ++ evs |}).
Proof.
  revert st. induction rows as [| row rows IH]; intros st.
  - exists (sql_count st), []. simpl. unfold ret.
    rewrite !app_nil_r, Z.add_0_r, Nat.add_0_r. by destruct st as [[] ? ? ?].
  - rewrite for_each_cons.
    destruct (weekly_strike_flow_run env row st) as (n1 & evs1 & ->).
    cbn [snd]. destruct (IH {| db := insert_strike (m_id row.1.1.1)
                                       "Missed weekly quota"
                                       (clock env (ticks st))
                                       (clock env (ticks st) + days 90)
                                       None true (db st);
                               ticks := S (ticks st); sql_count := n1;
                               trace := trace st ++ evs1 |})
      as (n & evs & ->).
    exists n, (evs1 ++ evs). simpl. f_equal. f_equal.
    + unfold with_strikes, insert_strike. simpl. f_equal.
      * by rewrite <- app_assoc.
      * lia.
    + lia.
    + by rewrite app_assoc.
Qed.

Lemma length_quota_strikes env seq tick rows :
  length (quota_strikes env seq tick rows) = length rows.
Proof.
  revert seq tick. induction rows as [| r rows IH]; intros seq tick; simpl.
  - done.
  - by rewrite IH.
Qed.

Lemma quota_strikes_members env seq tick rows :
  member_id <$> quota_strikes env seq tick rows
  = (λ r : NotMetRow, m_id r.1.1.1) <$> rows.
Proof.
  revert seq tick. induction rows as [| r rows IH]; intros seq tick; simpl.
  - done.
  - by rewrite IH.
Qed.

Lemma quota_strikes_automatic env seq tick rows :
  Forall (λ s, reason s = "Missed weekly quota" ∧ set_by s = None
               ∧ auto s = true ∧ expires_at s = issued_at s + days 90)
    (quota_strikes env seq tick rows).
Proof.
  revert seq tick. induction rows as [| r rows IH]; intros seq tick; simpl.
  - constructor.
  - constructor; [done | apply IH].
Qed.

Lemma strike_rows_members b :
  (λ r : NotMetRow, m_id r.1.1.1) <$> strike_rows b
  = not_met_ids b ++ zero_ids b.
Proof.
  unfold strike_rows, not_met_ids, zero_ids. rewrite fmap_app. f_equal.
  rewrite <- list_fmap_compose. done.
Qed.

(** A run of [check_weekly_tasks] that passes the day, channel and role
    checks: the report, then the strike pass, then the reset. *)
Lemma check_weekly_tasks_run env g r st :
  weekday (clock env (ticks st)) = 6 →
  announcement_channel env = Some g →
  get_role g (DEPARTMENT_ROLE_ID env) = Some r →
  let wk := week_key env (clock env (S (ticks st))) in
  let excused_reason := ex_reason <$> activity_excuses (db st) !! wk in
  let b := classify env g (roster g r) (weekly_tasks (db st))
             (roblox_time (db st))
             (strike_counts_at (clock env (S (S (ticks st)))) (db st)) in
  let report :=
    {| r_week := wk;
       r_excuse := if truthy_str excused_reason then excused_reason else None;
       r_met := met b; r_not_met := not_met b; r_zero := zero b |} in
  let st1 := {| db := db st; ticks := S (S (S (ticks st)));
                sql_count := S (S (S (S (sql_count st))));
                trace := trace st ++ [EvReport report] |} in
  let st2 := (weekly_strike_pass env excused_reason b st1).2 in
  check_weekly_tasks env st =
  (WeeklyDone, {| db := reset_weekly_tables (db st2); ticks := ticks st2;
                  sql_count := S (sql_count st2); trace := trace st2 |}).
Proof.
  intros Hday Hch Hrole wk excused_reason b report st1 st2.
  unfold check_weekly_tasks, bind, ret, sql_exec, sql_query, emit, utcnow.
  cbn [db ticks sql_count trace]. rewrite Hday. cbn [Z.eqb Pos.eqb negb].
  rewrite Hch, Hrole. cbn [db ticks sql_count trace].
  fold wk excused_reason b report. fold st1.
  unfold st2. by destruct (weekly_strike_pass env excused_reason b st1).
Qed.

Lemma truthy_reason (o : option Excuse) :
  (∀ e, o = Some e → ex_reason e ≠ "") →
  truthy_str (ex_reason <$> o) = bool_decide (is_Some o).
Proof.
  intros Hwf. destruct o as [e |]; simpl; [| done].
  specialize (Hwf e eq_refl).
  destruct (String.eqb_spec (ex_reason e) ""); done.
Qed.

(** [/activityexcuse] keeps every stored excuse with a reason. *)
Lemma activityexcuse_keeps_reasons env user action week why st :
  excuses_wf (db st) →
  excuses_wf (db (activityexcuse env user action week why st).2).
Proof.
  intros Hwf. unfold activityexcuse. rewrite bind_run.
  set (pre := (if truthy_str week then ret (upper (default "" week))
               else (now <~ utcnow env ;; ret (upper (week_key env now)))) st).
  assert (Hpre : db pre.2 = db st).
  { unfold pre. destruct (truthy_str week); [done |]. by run_step. }
  destruct pre as [wk st0]. simpl in Hpre. cbn [fst snd].
  destruct (negb _); [unfold ret; simpl; by rewrite Hpre |].
  destruct (String.eqb action "set").
  - destruct (truthy_str why) eqn:Hwhy; simpl;
      [| unfold ret; simpl; by rewrite Hpre].
    run_step. assert (Hgoal : excuses_wf
      (with_excuses (<[wk := {| ex_reason := default "" why; ex_set_by := user;
                                ex_set_at := clock env (ticks st0) |}]>
                       (activity_excuses (db st0))) (db st0))).
    { intros k e. simpl. rewrite Hpre.
      destruct (decide (wk = k)) as [-> | Hne].
      - rewrite lookup_insert_eq. intros [= <-]. simpl.
        destruct why as [w |]; [| done]. simpl in *.
        destruct (String.eqb_spec w ""); done.
      - rewrite lookup_insert_ne by done. apply Hwf. }
    by destruct (command_log_channel env).
  - run_step. assert (Hgoal : excuses_wf
      (with_excuses (delete wk (activity_excuses (db st0))) (db st0))).
    { intros k e. simpl. rewrite Hpre.
      destruct (decide (wk = k)) as [-> | Hne].
      - by rewrite lookup_delete_eq.
      - rewrite lookup_delete_ne by done. apply Hwf. }
    by destruct (command_log_channel env).
Qed.

(** On any other day than Sunday the run returns at once and the store is
    left as it was. *)
Lemma check_weekly_tasks_day_gate env st :
  weekday (clock env (ticks st)) ≠ 6 →
  (check_weekly_tasks env st).1 = NotSunday
  ∧ db (check_weekly_tasks env st).2 = db st.
Proof.
  intros Hday.
  assert (Hrun : check_weekly_tasks env st
                 = (NotSunday, {| db := db st; ticks := S (ticks st);
                                  sql_count := sql_count st;
                                  trace := trace st |})).
  { unfold check_weekly_tasks, bind, utcnow.
    destruct (Z.eqb_spec (weekday (clock env (ticks st))) 6); done. }
  by rewrite Hrun.
Qed.

(** C5.  A run of [check_weekly_tasks] that passes the day, channel and role
    checks ends with the reset: afterwards [weekly_tasks], [roblox_time] and
    [roblox_sessions] (and the weekly task log) hold no row for anyone,
    whether or not the week was excused.  The orientation records, the
    excuses and the account links are after the run what they were before
    it, and the strike ledger is the ledger before the run followed by the
    rows the strike pass inserted, none in an excused week: the reset deletes
    and changes no strike and no orientation record. *)
Theorem weekly_reset_truncates env g r st :
  weekday (clock env (ticks st)) = 6 →
  announcement_channel env = Some g →
  get_role g (DEPARTMENT_ROLE_ID env) = Some r →
  let wk := week_key env (clock env (S (ticks st))) in
  let excused_reason := ex_reason <$> activity_excuses (db st) !! wk in
  let b := classify env g (roster g r) (weekly_tasks (db st))
             (roblox_time (db st))
             (strike_counts_at (clock env (S (S (ticks st)))) (db st)) in
  let issued := if truthy_str excused_reason then []
                else quota_strikes env (strikes_seq (db st))
                       (S (S (S (ticks st)))) (strike_rows b) in
  let st' := (check_weekly_tasks env st).2 in
  (check_weekly_tasks env st).1 = WeeklyDone
  ∧ weekly_tasks (db st') = ∅
  ∧ roblox_time (db st') = ∅
  ∧ roblox_sessions (db st') = ∅
  ∧ weekly_task_logs (db st') = []
  ∧ strikes (db st') = strikes (db st) ++ issued
  ∧ strikes_seq (db st') = strikes_seq (db st) + Z.of_nat (length issued)
  ∧ orientations (db st') = orientations (db st)
  ∧ activity_excuses (db st') = activity_excuses (db st)
  ∧ roblox_verification (db st') = roblox_verification (db st).
Proof.
  intros Hday Hch Hrole wk excused_reason b issued st'. unfold st'.
  rewrite (check_weekly_tasks_run env g r st Hday Hch Hrole).
  fold wk excused_reason b. cbn [fst snd db].
  unfold weekly_strike_pass, issued.
  destruct (truthy_str excused_reason); cbn [negb].
  - unfold ret. cbn. rewrite app_nil_r, Z.add_0_r. by repeat split.
  - match goal with |- context [for_each ?rows ?body ?s] =>
      destruct (strike_pass_run env rows s) as (n & evs & Hrun) end.
    rewrite Hrun. cbn. rewrite length_quota_strikes. by repeat split.
Qed.

Lemma sample_week_runs :
  weekday (clock sample_env 0) = 6
  ∧ announcement_channel sample_env = Some sample_guild
  ∧ get_role sample_guild (DEPARTMENT_ROLE_ID sample_env) = Some 10.
Proof. repeat split; vm_compute; reflexivity. Defined.

Lemma weekly_reset_truncates_witness :
  weekly_tasks (db (check_weekly_tasks sample_env (start sample_week)).2) = ∅
  ∧ roblox_sessions (db (check_weekly_tasks sample_env (start excused_week)).2)
    = ∅
  ∧ orientations (db (check_weekly_tasks sample_env (start carol_overdue)).2)
    = orientations carol_overdue.
Proof.
  destruct sample_week_runs as (Hday & Hch & Hrole). split; [| split].
  - pose proof (weekly_reset_truncates sample_env sample_guild 10
                  (start sample_week) Hday Hch Hrole) as H.
    cbv zeta in H. destruct H as (_ & H & _). exact H.
  - pose proof (weekly_reset_truncates sample_env sample_guild 10
                  (start excused_week) Hday Hch Hrole) as H.
    cbv zeta in H. destruct H as (_ & _ & _ & H & _). exact H.
  - pose proof (weekly_reset_truncates sample_env sample_guild 10
                  (start carol_overdue) Hday Hch Hrole) as H.
    cbv zeta in H. destruct H as (_ & _ & _ & _ & _ & _ & _ & H & _). exact H.
Defined.

(** C4.  In a run that passes the day, channel and role checks, over a store
    whose excuses all carry a reason: if the week of the run is excused, no
    strike is inserted and nothing is called but the posting of the report,
    which names the reason and the three buckets, and the counters are
    cleared; if it is not excused, the report is posted and one strike with
    reason "Missed weekly quota", no issuer and [auto = true], expiring 90
    days after it is issued, is inserted for each Not-met and each
    Zero-activity member, and for nobody else. *)
Theorem excused_week_reports_without_strikes env g r st :
  weekday (clock env (ticks st)) = 6 →
  announcement_channel env = Some g →
  get_role g (DEPARTMENT_ROLE_ID env) = Some r →
  excuses_wf (db st) →
  let wk := week_key env (clock env (S (ticks st))) in
  let b := classify env g (roster g r) (weekly_tasks (db st))
             (roblox_time (db st))
             (strike_counts_at (clock env (S (S (ticks st)))) (db st)) in
  let st' := (check_weekly_tasks env st).2 in
  (∀ e, activity_excuses (db st) !! wk = Some e →
     strikes (db st') = strikes (db st)
     ∧ new_events st st'
       = [EvReport {| r_week := wk; r_excuse := Some (ex_reason e);
                      r_met := met b; r_not_met := not_met b;
                      r_zero := zero b |}]
     ∧ weekly_tasks (db st') = ∅
     ∧ roblox_time (db st') = ∅
     ∧ roblox_sessions (db st') = ∅)
  ∧ (activity_excuses (db st) !! wk = None →
     ∃ new evs,
       strikes (db st') = strikes (db st) ++ new
       ∧ member_id <$> new = not_met_ids b ++ zero_ids b
       ∧ Forall (λ s, reason s = "Missed weekly quota" ∧ set_by s = None
                      ∧ auto s = true
                      ∧ expires_at s = issued_at s + days 90) new
       ∧ new_events st st'
         = EvReport {| r_week := wk; r_excuse := None;
                       r_met := met b; r_not_met := not_met b;
                       r_zero := zero b |} :: evs).
Proof.
  intros Hday Hch Hrole Hwf wk b st'. unfold st'.
  rewrite (check_weekly_tasks_run env g r st Hday Hch Hrole).
  fold wk b. cbn [snd db trace]. unfold weekly_strike_pass.
  rewrite truthy_reason by (intros e He; by apply (Hwf wk)).
  split.
  - intros e He. rewrite He. simpl. unfold ret. cbn [snd db trace].
    repeat split; try done. by apply new_events_app.
  - intros Hnone. rewrite Hnone. simpl.
    match goal with |- context [for_each ?rows ?body ?s] =>
      destruct (strike_pass_run env rows s) as (n & evs & Hrun) end.
    exists (quota_strikes env (strikes_seq (db st)) (S (S (S (ticks st))))
              (strike_rows b)), evs.
    rewrite Hrun. cbn [snd db trace strikes with_strikes reset_weekly_tables].
    split; [done |]. split.
    { by rewrite quota_strikes_members, strike_rows_members. }
    split; [apply quota_strikes_automatic |].
    apply new_events_app. by rewrite <- app_assoc.
Qed.

Lemma excused_week_wf : excuses_wf (db (start excused_week)).
Proof.
  intros wk e. simpl. intros H.
  apply lookup_singleton_Some in H as [_ <-]. done.
Defined.

Lemma sample_week_wf : excuses_wf (db (start sample_week)).
Proof. intros wk e. simpl. by rewrite lookup_empty. Defined.

Lemma excused_week_reports_without_strikes_witness :
  strikes (db (check_weekly_tasks sample_env (start excused_week)).2) = []
  ∧ ∃ new,
      strikes (db (check_weekly_tasks sample_env (start sample_week)).2)
      = [] ++ new
      ∧ member_id <$> new = [1; 2].
Proof.
  destruct sample_week_runs as (Hday & Hch & Hrole). split.
  - pose proof (excused_week_reports_without_strikes sample_env sample_guild 10
                  (start excused_week) Hday Hch Hrole excused_week_wf)
      as [Hexcused _].
    cbv zeta in Hexcused.
    destruct (Hexcused {| ex_reason := "Site maintenance"; ex_set_by := 9;
                          ex_set_at := days 2 |}) as [Hnone _];
      [by vm_compute | exact Hnone].
  - pose proof (excused_week_reports_without_strikes sample_env sample_guild 10
                  (start sample_week) Hday Hch Hrole sample_week_wf)
      as [_ Hplain].
    cbv zeta in Hplain.
    destruct Hplain as (new & evs & Hnew & Hids & _); [by vm_compute |].
    exists new. split; [exact Hnew |]. rewrite Hids. by vm_compute.
Defined.

(** ** Orientation assignment *)

Lemma on_member_update_granted env before after st :
  truthy_id (SCIENTIFIC_TRAINEE_ROLE_ID env)
  && negb (has_role (SCIENTIFIC_TRAINEE_ROLE_ID env) before)
  && has_role (SCIENTIFIC_TRAINEE_ROLE_ID env) after = true →
  db (on_member_update env before after st).2
  = insert_orientation_or_nothing (m_id after)
      (new_orientation (clock env (ticks st))) (db st).
Proof.
  intros Hgrant. unfold on_member_update. rewrite Hgrant. run_step.
  by destruct (command_log_channel env).
Qed.

(** C8.  For a member who already has an orientation record, a role-grant
    event and the lazy creation on a status query both leave the whole store
    as it was, and with it the record's [assigned_at], [deadline] and other
    fields.  After a role-grant event has been handled, a second one and a
    status query change nothing. *)
Theorem orientation_assignment_idempotent env before after member o st :
  (orientations (db st) !! m_id after = Some o →
   db (on_member_update env before after st).2 = db st)
  ∧ (orientations (db st) !! m_id member = Some o →
     db (ensure_orientation_record env member st).2 = db st)
  ∧ (truthy_id (SCIENTIFIC_TRAINEE_ROLE_ID env)
     && negb (has_role (SCIENTIFIC_TRAINEE_ROLE_ID env) before)
     && has_role (SCIENTIFIC_TRAINEE_ROLE_ID env) after = true →
     ∀ env2 before2,
       let st1 := (on_member_update env before after st).2 in
       db (on_member_update env2 before2 after st1).2 = db st1
       ∧ db (ensure_orientation_record env2 after st1).2 = db st1).
Proof.
  assert (Hupdate : ∀ env before after st o,
            orientations (db st) !! m_id after = Some o →
            db (on_member_update env before after st).2 = db st).
  { clear. intros env before after st o Ho. unfold on_member_update.
    destruct (_ && _); [| done]. run_step.
    unfold insert_orientation_or_nothing. rewrite Ho.
    by destruct (command_log_channel env). }
  assert (Hensure : ∀ env member st o,
            orientations (db st) !! m_id member = Some o →
            db (ensure_orientation_record env member st).2 = db st).
  { clear. intros env member st o Ho.
    destruct (ensure_orientation_record_run env member st) as (t & n & ->).
    simpl. by rewrite Ho. }
  split; [apply Hupdate |]. split; [apply Hensure |].
  intros Hgrant env2 before2 st1.
  assert (Hrec : is_Some (orientations (db st1) !! m_id after)).
  { unfold st1. rewrite (on_member_update_granted _ _ _ _ Hgrant).
    unfold insert_orientation_or_nothing.
    destruct (orientations (db st) !! m_id after) eqn:Ho.
    - by rewrite Ho.
    - simpl. by rewrite lookup_insert_eq. }
  destruct Hrec as [o1 Ho1]. split; [by eapply Hupdate | by eapply Hensure].
Qed.

Lemma orientation_assignment_idempotent_witness :
  let o := {| assigned_at := Some (days (-13)); deadline := Some (days 1);
              passed := false; passed_at := None;
              warned_5d := true; expired_handled := false |} in
  let st := start carol_overdue in
  orientations (db st) !! m_id carol = Some o
  ∧ orientations (db (on_member_update sample_env alice carol st).2) !! 4
    = Some o
  ∧ orientations (db (ensure_orientation_record sample_env carol st).2) !! 4
    = Some o.
Proof.
  intros o st.
  assert (Ho : orientations (db st) !! m_id carol = Some o) by reflexivity.
  pose proof (orientation_assignment_idempotent sample_env alice carol carol o st)
    as (Hupdate & Hensure & _).
  split; [exact Ho |]. split.
  - rewrite (Hupdate Ho). exact Ho.
  - rewrite (Hensure Ho). exact Ho.
Defined.

(** ** Session webhook *)

(** C10.  A request whose [X-Secret-Key] header differs from the configured
    secret is answered with status 401 and nothing else happens: the store
    is not read (the statement counter stands still) nor written, the clock
    is not read and no message is sent. *)
Theorem roblox_handler_rejects_bad_secret env request st :
  header_secret request ≠ API_SECRET_KEY env →
  roblox_handler env request st = (401, st).
Proof.
  intros Hbad. unfold roblox_handler.
  by rewrite bool_decide_eq_false_2.
Qed.

Lemma roblox_handler_rejects_bad_secret_witness :
  let request := {| header_secret := Some "guess"; body_roblox_id := Some 77;
                    body_status := "joined" |} in
  header_secret request ≠ API_SECRET_KEY sample_env
  ∧ roblox_handler sample_env request (start sample_week)
    = (401, start sample_week).
Proof.
  intros request.
  assert (Hbad : header_secret request ≠ API_SECRET_KEY sample_env)
    by discriminate.
  split; [exact Hbad |].
  exact (roblox_handler_rejects_bad_secret sample_env request
           (start sample_week) Hbad).
Defined.

(** A request with the right secret is served: a "joined" event of a linked
    account opens a session. *)
Example roblox_handler_accepts_secret :
  let request := {| header_secret := Some "s3cret"; body_roblox_id := Some 77;
                    body_status := "joined" |} in
  let r := roblox_handler sample_env request (start sample_week) in
  r.1 = 200 ∧ roblox_sessions (db r.2) !! 77 = Some (days 3).
Proof. vm_compute. done. Qed.

(** * Further properties *)

(** ** The removal gateway *)

Lemma retry_post_result env did rid n i st :
  (retry_post env did rid n i st).1 = true
  ↔ ∃ j, (i ≤ j < i + n)%nat ∧ post_ok env rid j = true.
Proof.
  revert i st. induction n as [| n IH]; intros i st; simpl.
  - split; [done | intros (j & Hj & _); lia].
  - rewrite bind_run. unfold emit at 1. cbn [fst snd].
    destruct (post_ok env rid i) eqn:Hi.
    + split; [| done]. intros _. exists i. split; [lia | done].
    + rewrite IH. split; intros (j & Hj & Hok).
      * exists j. split; [lia | done].
      * exists j. split; [| done].
        destruct (decide (j = i)) as [-> | Hne]; [congruence | lia].
Qed.

Lemma retry_events_length env did rid n i :
  (length (retry_events env did rid n i) ≤ n)%nat.
Proof.
  revert i. induction n as [| n IH]; intros i; simpl; [lia |].
  destruct (post_ok env rid i); simpl; [lia |]. specialize (IH (S i)). lia.
Qed.

(** The posts stop at the first success. *)
Lemma retry_events_stop env did rid n i :
  let k := length (retry_events env did rid n i) in
  (∀ j, (i ≤ j)%nat → (j + 1 < i + k)%nat → post_ok env rid j = false)
  ∧ ((k < n)%nat → (0 < k)%nat ∧ post_ok env rid (i + k - 1) = true).
Proof.
  revert i. induction n as [| n IH]; intros i; simpl.
  - split; [intros; lia | lia].
  - destruct (post_ok env rid i) eqn:Hi; simpl.
    + split; [intros; lia |]. intros _. split; [lia |].
      by replace (i + 1 - 1)%nat with i by lia.
    + destruct (IH (S i)) as [IH1 IH2]. split.
      * intros j Hj Hlt. destruct (decide (j = i)) as [-> | Hne]; [done |].
        apply IH1; lia.
      * intros Hk. destruct IH2 as [Hpos Hok]; [lia |]. split; [lia |].
        by replace (i + S (length (retry_events env did rid n (S i))) - 1)%nat
          with (S i + length (retry_events env did rid n (S i)) - 1)%nat by lia.
Qed.

Lemma try_remove_from_roblox_result env discord_id st :
  (try_remove_from_roblox env discord_id st).1 = true
  ↔ roblox_remove_configured env = true
    ∧ ∃ rid, roblox_verification (db st) !! discord_id = Some rid ∧ rid ≠ 0
             ∧ ∃ j, (j < 3)%nat ∧ post_ok env rid j = true.
Proof.
  unfold try_remove_from_roblox.
  destruct (roblox_remove_configured env); cbn [negb];
    [| split; [done | by intros []]].
  rewrite bind_run. unfold sql_query. cbn [fst snd db].
  destruct (roblox_verification (db st) !! discord_id) as [rid |] eqn:Hrid;
    cbn [truthy_id default].
  - destruct (Z.eqb_spec rid 0) as [-> | Hne]; cbn [negb].
    + split; [done |]. intros (_ & r & [= <-] & Hr & _). done.
    + rewrite retry_post_result. split.
      * intros (j & Hj & Hok). split; [done |]. exists rid.
        split; [done |]. split; [done |]. exists j. split; [lia | done].
      * intros (_ & r & [= <-] & _ & j & Hj & Hok). exists j. split; [lia | done].
  - split; [done |]. by intros (_ & r & ? & _).
Qed.

(** X1.  [try_remove_from_roblox] never changes the store and reads no clock;
    it posts at most three times, every post but the last one made has
    failed, and it answers [True] exactly when the removal is configured, the
    member has a linked account and one of the three attempts succeeds.
    Unconfigured, or without a linked account, it posts nothing. *)
Theorem removal_gateway_bounded env discord_id st :
  let r := try_remove_from_roblox env discord_id st in
  let posts := new_events st r.2 in
  db r.2 = db st ∧ ticks r.2 = ticks st
  ∧ Forall (λ e, ∃ rid, e = EvRobloxPost discord_id rid) posts
  ∧ (length posts ≤ 3)%nat
  ∧ (∀ rid j, roblox_verification (db st) !! discord_id = Some rid →
              (j + 1 < length posts)%nat → post_ok env rid j = false)
  ∧ (r.1 = true
     ↔ roblox_remove_configured env = true
       ∧ ∃ rid, roblox_verification (db st) !! discord_id = Some rid ∧ rid ≠ 0
                ∧ ∃ j, (j < 3)%nat ∧ post_ok env rid j = true)
  ∧ (roblox_remove_configured env = false
     ∨ roblox_verification (db st) !! discord_id = None → posts = []).
Proof.
  intros r posts.
  pose proof (try_remove_from_roblox_result env discord_id st) as Hres.
  fold r in Hres.
  destruct (try_remove_from_roblox_run env discord_id st) as (b & n & Hrun).
  assert (Hposts : posts = removal_events env discord_id (db st)).
  { unfold posts, r. rewrite Hrun. by apply new_events_app. }
  unfold r. rewrite Hrun. cbn [fst snd db ticks]. fold r.
  split; [done |]. split; [done |]. rewrite Hposts.
  split; [apply removal_events_posts |]. unfold removal_events.
  split.
  { destruct (_ && _); [apply retry_events_length | simpl; lia]. }
  split.
  { intros rid j Hrid Hj. rewrite Hrid in Hj. cbn [default] in Hj.
    destruct (_ && _); [| simpl in Hj; lia].
    pose proof (retry_events_stop env discord_id rid 3 0) as Hstop.
    cbv zeta in Hstop. destruct Hstop as [Hfail _].
    unfold id in Hj. apply Hfail; lia. }
  split; [unfold r in Hres; by rewrite Hrun in Hres |].
  intros [Hcfg | Hnone].
  - by rewrite Hcfg.
  - rewrite Hnone. simpl. by rewrite andb_false_r.
Qed.

Lemma removal_gateway_bounded_witness :
  roblox_verification (db (start dave_overdue)) !! 5 = None
  ∧ new_events (start dave_overdue)
      (try_remove_from_roblox sample_env 5 (start dave_overdue)).2 = [].
Proof.
  assert (Hnone : roblox_verification (db (start dave_overdue)) !! 5 = None)
    by reflexivity.
  split; [exact Hnone |].
  pose proof (removal_gateway_bounded sample_env 5 (start dave_overdue))
    as (_ & _ & _ & _ & _ & _ & Hquiet).
  apply Hquiet. by right.
Defined.

(** With a linked account and a service that keeps failing, three posts are
    made and the answer is [False]. *)
Example removal_gateway_gives_up :
  let r := try_remove_from_roblox sample_env 4 (start carol_overdue) in
  r.1 = false ∧ new_events (start carol_overdue) r.2
                = [EvRobloxPost 4 88; EvRobloxPost 4 88; EvRobloxPost 4 88].
Proof. vm_compute. done. Qed.

(** ** Expiry of strikes *)

Lemma active_count_antitone mid t1 t2 d :
  t1 ≤ t2 → active_count mid t2 d ≤ active_count mid t1 d.
Proof.
  intros Ht. unfold active_count, active_rows.
  induction (strikes d) as [| s l IH]; [done |].
  rewrite !filter_cons.
  destruct (decide (is_active mid t2 s = true)) as [H2 | H2].
  - rewrite decide_True; [simpl; lia |].
    unfold is_active in *. apply andb_true_iff in H2 as [Hm H2].
    apply andb_true_iff. split; [done |]. apply Z.ltb_lt in H2.
    apply Z.ltb_lt. lia.
  - destruct (decide (is_active mid t1 s = true)); simpl; lia.
Qed.

(** X2.  A strike counts as active for exactly 90 days: after
    [issue_strike] at [now], the member's active count read at any time [t]
    is the count of the earlier store at [t], plus one when
    [t < now + 90 days]; no row is deleted for a strike to expire.  And the
    active count of a fixed store never grows as time passes. *)
Theorem strike_counts_for_ninety_days env member why by_ auto_ st t t' :
  let now := clock env (ticks st) in
  let st' := (issue_strike env member why by_ auto_ st).2 in
  active_count (m_id member) t (db st')
  = active_count (m_id member) t (db st)
    + (if t <? now + days 90 then 1 else 0)
  ∧ strikes (db st) `prefix_of` strikes (db st')
  ∧ (t ≤ t' →
     active_count (m_id member) t' (db st')
     ≤ active_count (m_id member) t (db st')).
Proof.
  intros now st'. unfold st'. rewrite issue_strike_run. cbn [snd db]. fold now.
  split; [| split].
  - rewrite active_count_insert, Z.eqb_refl. done.
  - unfold insert_strike. simpl. by eexists.
  - apply active_count_antitone.
Qed.

Lemma strike_counts_for_ninety_days_witness :
  let st' := (issue_strike sample_env alice "Late report" (Some 9) false
                (start one_strike_store)).2 in
  days 31 ≤ days 93
  ∧ active_count (m_id alice) (days 93) (db st')
    ≤ active_count (m_id alice) (days 31) (db st').
Proof.
  intros st'.
  assert (Hle : days 31 ≤ days 93) by (by vm_compute).
  split; [exact Hle |].
  pose proof (strike_counts_for_ninety_days sample_env alice "Late report"
                (Some 9) false (start one_strike_store) (days 31) (days 93))
    as (_ & _ & H3).
  exact (H3 Hle).
Defined.

(** ** Removal after issuance *)

(** X3.  [/strikes_remove] does not undo the latest strike while an older
    one is still active: if every earlier strike of the member expires
    before the new one and one of them is active when the removal runs,
    removing one strike deletes an earlier one and the strike just issued
    stays in the ledger. *)
Theorem strikes_remove_keeps_latest env env2 member why by_ auto_ st old :
  strikes_wf (db st) →
  let now := clock env (ticks st) in
  let st1 := (issue_strike env member why by_ auto_ st).2 in
  let now2 := clock env2 (ticks st1) in
  let latest := {| strike_id := strikes_seq (db st); member_id := m_id member;
                   reason := why; issued_at := now;
                   expires_at := now + days 90;
                   set_by := by_; auto := auto_ |} in
  (∀ s, s ∈ strikes (db st) → member_id s = m_id member →
        expires_at s < now + days 90) →
  old ∈ strikes (db st) → is_active (m_id member) now2 old = true →
  let st2 := (strikes_remove env2 member 1 st1).2 in
  latest ∈ strikes (db st2)
  ∧ active_count (m_id member) now2 (db st2)
    = active_count (m_id member) now2 (db st1) - 1.
Proof.
  intros Hwf now st1 now2 latest Hearlier Hold Hact st2.
  assert (Hwf1 : strikes_wf (db st1)) by (by apply wf_issue_strike).
  assert (Hst1 : strikes (db st1) = strikes (db st) ++ [latest]).
  { unfold st1. rewrite issue_strike_run. done. }
  pose proof (strikes_remove_run env2 member 1 st1) as Hrun.
  cbv zeta in Hrun. fold now2 st2 in Hrun.
  pose proof (rows_length (m_id member) now2 1 (db st1)) as Hlen.
  pose proof (rows_nil (m_id member) now2 1 (db st1) ltac:(lia)) as Hnil.
  pose proof (rows_before_rest (m_id member) now2 1 (db st1)) as Hbefore.
  pose proof (rows_elem (m_id member) now2 1 (db st1)) as Helem.
  pose proof (active_after_delete (m_id member) now2 1 (db st1) Hwf1) as Hafter.
  pose proof (rest_length (m_id member) now2 1 (db st1)) as Hrest.
  assert (Hold1 : old ∈ strikes (db st1)).
  { rewrite Hst1. apply elem_of_app. by left. }
  assert (Hactive : old ∈ active_rows (m_id member) now2 (db st1)).
  { unfold active_rows.
    by apply (list_elem_of_filter (λ s, is_active (m_id member) now2 s = true)). }
  destruct (soonest_active (m_id member) now2 1 (db st1)) as [| r rows] eqn:Hrows.
  { destruct Hnil as [Hnil _]. rewrite Hnil in Hactive by done.
    by apply elem_of_nil in Hactive. }
  assert (rows = []) as ->.
  { change (Z.to_nat 1) with 1%nat in Hlen.
    pose proof (Nat.le_min_l 1 (length (active_rows (m_id member) now2 (db st1)))).
    destruct rows; [done | cbn [length] in Hlen; lia]. }
  assert (Hdb : db st2 = delete_strikes (strike_id <$> [r]) (db st1))
    by (by injection Hrun).
  split.
  - rewrite Hdb. unfold delete_strikes. simpl.
    apply list_elem_of_filter. split.
    + (* the deleted row is not the latest *)
      intros Hin. apply list_elem_of_singleton in Hin.
      assert (Hr : r ∈ [r]) by (by left).
      destruct (Helem r Hr) as [Hract Hrin].
      assert (r = latest) as ->.
      { destruct Hwf1 as [Hnd _].
        symmetry.
        apply (NoDup_fmap_elem_inj strike_id (strikes (db st1))); try done.
        rewrite Hst1. apply elem_of_app. right. by left. }
      assert (Hkeep : strike_id old ∉ strike_id <$> [latest]).
      { simpl. intros Hin'. apply list_elem_of_singleton in Hin'.
        destruct Hwf as [_ Hlt]. rewrite Forall_forall in Hlt.
        specialize (Hlt old Hold). simpl in Hin'. lia. }
      pose proof (Hbefore latest old Hr Hold1 Hact Hkeep) as Hle.
      assert (Hm : member_id old = m_id member).
      { unfold is_active in Hact. apply andb_true_iff in Hact as [Hm _].
        by apply Z.eqb_eq. }
      specialize (Hearlier old Hold Hm). simpl in Hle. lia.
    + rewrite Hst1. apply elem_of_app. right. by left.
  - rewrite Hdb, Hafter. unfold active_count. cbn [length] in Hrest.
    destruct (active_rows (m_id member) now2 (db st1)) as [| a act];
      [by apply elem_of_nil in Hactive |].
    cbn [length] in *. lia.
Qed.

Lemma strikes_remove_keeps_latest_witness :
  let st := start one_strike_store in
  let st1 := (issue_strike sample_env alice "Missed weekly quota" None true
                st).2 in
  {| strike_id := 2; member_id := 1; reason := "Missed weekly quota";
     issued_at := days 3; expires_at := days 3 + days 90; set_by := None;
     auto := true |} ∈ strikes (db (strikes_remove sample_env alice 1 st1).2).
Proof.
  intros st st1.
  pose proof (strikes_remove_keeps_latest sample_env sample_env alice
                "Missed weekly quota" None true st
                (sample_strike 1 1 (days 30)) one_strike_store_wf) as H.
  cbv zeta in H.
  destruct H as [Hin _].
  - intros s Hs _. apply list_elem_of_singleton in Hs as ->. by vm_compute.
  - by left.
  - reflexivity.
  - exact Hin.
Defined.

(** ** The weekly run *)

(** X4.  [check_weekly_tasks] runs to the end exactly when the first clock
    reading falls on a Sunday, the announcement channel is found and its
    guild has the department role; a run that stops at one of the three
    checks posts no report, issues no strike and clears no counter. *)
Theorem weekly_run_gates env st :
  let r := check_weekly_tasks env st in
  (r.1 = WeeklyDone
   ↔ weekday (clock env (ticks st)) = 6
     ∧ ∃ g, announcement_channel env = Some g
            ∧ is_Some (get_role g (DEPARTMENT_ROLE_ID env)))
  ∧ (r.1 ≠ WeeklyDone → db r.2 = db st ∧ trace r.2 = trace st).
Proof.
  intros r. unfold r.
  destruct (decide (weekday (clock env (ticks st)) = 6)) as [Hday | Hday].
  - destruct (announcement_channel env) as [g |] eqn:Hch.
    + destruct (get_role g (DEPARTMENT_ROLE_ID env)) as [role |] eqn:Hrole.
      * rewrite (check_weekly_tasks_run env g role st Hday Hch Hrole).
        cbn [fst snd]. split; [| done].
        split; [| done]. intros _. split; [done |]. exists g. by rewrite Hrole.
      * unfold check_weekly_tasks, bind, ret, sql_query, utcnow.
        rewrite Hday, Hch, Hrole. simpl. split; [| done].
        split; [done |]. intros (_ & g' & [= <-] & Hsome).
        rewrite Hrole in Hsome. by destruct Hsome.
    + unfold check_weekly_tasks, bind, ret, sql_query, utcnow.
      rewrite Hday, Hch. simpl. split; [| done].
      split; [done |]. by intros (_ & g' & ? & _).
  - destruct (check_weekly_tasks_day_gate env st Hday) as [Hout Hdb].
    assert (Htr : trace (check_weekly_tasks env st).2 = trace st).
    { unfold check_weekly_tasks, bind, utcnow.
      destruct (Z.eqb_spec (weekday (clock env (ticks st))) 6); done. }
    rewrite Hout. split; [| done]. split; [done |]. by intros [? _].
Qed.

Lemma weekly_run_gates_witness :
  (check_weekly_tasks sample_env (start sample_week)).1 = WeeklyDone.
Proof.
  pose proof (weekly_run_gates sample_env (start sample_week)) as [Hdone _].
  apply Hdone. split; [reflexivity |].
  exists sample_guild. split; [reflexivity |]. by eexists.
Defined.

(** The dictionary built from the grouped strike query gives each member
    the count the single-member query gives. *)
Lemma strike_counts_at_lookup now d mid :
  default 0 (strike_counts_at now d !! mid) = active_count mid now d.
Proof.
  unfold strike_counts_at, active_count, active_rows.
  induction (strikes d) as [| s l IH]; [done |].
  rewrite !filter_cons.
  destruct (decide ((now <? expires_at s) = true)) as [Hlt | Hge].
  - cbn [foldr].
    destruct (decide (member_id s = mid)) as [<- | Hne].
    + rewrite decide_True
        by (unfold is_active; by rewrite Z.eqb_refl, Hlt).
      rewrite lookup_insert_eq. cbn [default length]. rewrite IH. unfold id. lia.
    + rewrite decide_False.
      * rewrite lookup_insert_ne by done. exact IH.
      * unfold is_active. apply Z.eqb_neq in Hne. by rewrite Hne.
  - rewrite decide_False; [exact IH |].
    unfold is_active. apply not_true_is_false in Hge.
    rewrite Hge, andb_false_r. done.
Qed.

Lemma foldl_invariant {A B} (P : A → Prop) (f : A → B → A) (l : list B) acc :
  (∀ x a, x ∈ l → P a → P (f a x)) → P acc → P (foldl f acc l).
Proof.
  revert acc. induction l as [| x l IH]; intros acc Hstep Hacc; [done |].
  simpl. apply IH.
  - intros y a Hy. apply Hstep. by right.
  - apply Hstep; [by left | done].
Qed.

(** X5.  Every row of the weekly report is about a department roster
    member, resolved in the guild; its strike figure is the member's active
    count at the reading taken for the report, and a Not-met row shows the
    stored task counter and the stored seconds in whole minutes, with an
    absent counter shown as 0. *)
Theorem weekly_report_figures env g ids all_tasks all_time now d :
  let b := classify env g ids all_tasks all_time (strike_counts_at now d) in
  let named (m : Member) (sc : Z) :=
    get_member g (m_id m) = Some m ∧ m_id m ∈ ids
    ∧ sc = active_count (m_id m) now d in
  Forall (λ row : MetRow, named row.1 row.2) (met b ++ zero b)
  ∧ Forall (λ row : NotMetRow,
              named row.1.1.1 row.2
              ∧ row.1.1.2 = default 0 (all_tasks !! m_id row.1.1.1)
              ∧ row.1.2 = default 0 (all_time !! m_id row.1.1.1) `div` 60
              ∧ meets_quota env row.1.1.2 row.1.2 = false)
      (not_met b).
Proof.
  intros b named.
  set (tasks_map := filter (λ kv : Z * Z, kv.1 ∈ ids) all_tasks).
  set (time_map := filter (λ kv : Z * Z, kv.1 ∈ ids) all_time).
  set (considered := dom tasks_map ∪ dom time_map : gset Z).
  set (sc_map := strike_counts_at now d).
  set (Q1 := λ row : MetRow, named row.1 row.2).
  set (Q2 := λ row : NotMetRow,
               named row.1.1.1 row.2
               ∧ row.1.1.2 = default 0 (all_tasks !! m_id row.1.1.1)
               ∧ row.1.2 = default 0 (all_time !! m_id row.1.1.1) `div` 60
               ∧ meets_quota env row.1.1.2 row.1.2 = false).
  assert (Hmn : let mn := foldl (classify_member env g tasks_map time_map sc_map)
                            ([], []) (elements considered) in
                Forall Q1 mn.1 ∧ Forall Q2 mn.2).
  { apply (foldl_invariant (λ acc : list MetRow * list NotMetRow,
                              Forall Q1 acc.1 ∧ Forall Q2 acc.2));
      [| by split].
    intros mid acc Hmid [H1 H2]. unfold classify_member.
    destruct (get_member g mid) as [m |] eqn:Hm; [| done].
    pose proof (get_member_id _ _ _ Hm) as Hid.
    assert (Hin : mid ∈ ids).
    { apply elem_of_elements in Hmid. unfold considered in Hmid.
      apply elem_of_union in Hmid as [Hmid | Hmid];
        apply roster_filter_dom in Hmid; tauto. }
    assert (Hnamed : named m (default 0 (sc_map !! mid))).
    { unfold named. rewrite Hid. split; [done |]. split; [done |].
      apply strike_counts_at_lookup. }
    destruct (meets_quota env _ _) eqn:Hq; cbn [fst snd].
    - split; [| done]. apply Forall_app. split; [done |].
      by apply Forall_singleton.
    - split; [done |]. apply Forall_app. split; [done |].
      apply Forall_singleton. unfold Q2. cbn [fst snd]. rewrite Hid.
      unfold tasks_map, time_map in *.
      rewrite !roster_filter_lookup in * by done. done. }
  assert (Hzero : Forall Q1 (foldl (classify_zero g sc_map) []
                               (elements (ids ∖ considered)))).
  { apply (foldl_invariant (Forall Q1)); [| done].
    intros mid acc Hmid Hacc. unfold classify_zero.
    destruct (get_member g mid) as [m |] eqn:Hm; [| done].
    pose proof (get_member_id _ _ _ Hm) as Hid.
    apply elem_of_elements, elem_of_difference in Hmid as [Hin _].
    apply Forall_app. split; [done |]. apply Forall_singleton.
    unfold Q1, named. cbn [fst snd]. rewrite Hid.
    split; [done |]. split; [done |]. apply strike_counts_at_lookup. }
  destruct Hmn as [H1 H2]. split; [| exact H2].
  apply Forall_app. split; [exact H1 | exact Hzero].
Qed.

(** ** Weekly excuses *)

Lemma upper_app s1 s2 : upper (s1 +:+ s2) = upper s1 +:+ upper s2.
Proof. induction s1 as [| c s1 IH]; simpl; [done | by rewrite IH]. Qed.

Lemma upper_pretty_N_go x s :
  upper s = s → upper (pretty_N_go x s) = pretty_N_go x s.
Proof.
  revert s. induction (N.lt_wf_0 x) as [x _ IH]; intros s Hs.
  assert (x = 0 ∨ 0 < x)%N as [-> | Hpos] by lia.
  - by rewrite pretty_N_go_0.
  - rewrite pretty_N_go_step by done. apply IH; [by apply N.div_lt |].
    simpl. rewrite Hs. f_equal.
    unfold pretty_N_char. by repeat case_match.
Qed.

Lemma upper_pretty_Z (x : Z) : upper (pretty x) = pretty x.
Proof.
  assert (HN : ∀ n : N, upper (pretty n) = pretty n).
  { intros n. unfold pretty, pretty_N. case_decide; [done |].
    by apply upper_pretty_N_go. }
  destruct x as [| p | p]; [done | apply HN |].
  unfold pretty, pretty_Z. rewrite upper_app. f_equal. apply HN.
Qed.

(** The week key holds digits, a dash and a capital W: upper-casing it
    changes nothing. *)
Lemma upper_week_key env t : upper (week_key env t) = week_key env t.
Proof.
  unfold week_key. cbv zeta. rewrite !upper_app, !upper_pretty_Z.
  by destruct (_ <? 10).
Qed.

Lemma week_key_not_empty env t : week_key env t ≠ "".
Proof.
  unfold week_key. cbv zeta.
  destruct (pretty (isocalendar env t).1) as [| c s] eqn:Hp; [| done].
  done.
Qed.

Lemma activityexcuse_set_run env user why st :
  why ≠ "" →
  let wk := week_key env (clock env (ticks st)) in
  let e := {| ex_reason := why; ex_set_by := user;
              ex_set_at := clock env (S (ticks st)) |} in
  activityexcuse env user "set" None (Some why) st
  = (ExcuseSet wk,
     {| db := with_excuses (<[wk := e]> (activity_excuses (db st))) (db st);
        ticks := S (S (ticks st)); sql_count := S (sql_count st);
        trace := trace st ++ (if command_log_channel env
                              then [EvLog "Activity Excuse Set" None]
                              else []) |}).
Proof.
  intros Hwhy wk e. unfold activityexcuse.
  cbn [truthy_str]. rewrite bind_run.
  assert (Hpre : (now <~ utcnow env ;; ret (upper (week_key env now))) st
                 = (wk, {| db := db st; ticks := S (ticks st);
                           sql_count := sql_count st; trace := trace st |})).
  { unfold bind, utcnow, ret. cbn [fst snd]. by rewrite upper_week_key. }
  rewrite Hpre. cbn [fst snd].
  change (String.eqb "set" "set") with true. cbn [orb negb].
  destruct (String.eqb_spec why "") as [-> | _]; [done |]. cbn [negb].
  unfold bind, utcnow, sql_exec, log_action, emit, ret. cbn [ticks db default].
  destruct (command_log_channel env); cbn; [done |].
  by rewrite app_nil_r.
Qed.

Lemma activityexcuse_clear_run env user week st :
  week ≠ "" →
  activityexcuse env user "clear" (Some week) None st
  = (ExcuseCleared (upper week),
     {| db := with_excuses (delete (upper week) (activity_excuses (db st)))
                (db st);
        ticks := ticks st; sql_count := S (sql_count st);
        trace := trace st ++ (if command_log_channel env
                              then [EvLog "Activity Excuse Cleared" None]
                              else []) |}).
Proof.
  intros Hne. unfold activityexcuse. cbn [truthy_str].
  destruct (String.eqb_spec week "") as [-> | _]; [done |]. cbn [negb].
  change (String.eqb "clear" "set") with false.
  change (String.eqb "clear" "clear") with true. cbn [orb negb].
  unfold bind, sql_exec, log_action, emit, ret. cbn [fst snd db default].
  destruct (command_log_channel env); cbn; [done |].
  by rewrite app_nil_r.
Qed.

(** X6.  An excuse set for the current week is stored under the key the
    weekly run computes, with the reason, the caller and the time of the
    call; excuses of other weeks are left alone; and clearing the week,
    written in any letter case, removes it again.  Without a reason nothing
    is stored. *)
Theorem excuse_set_then_clear env user user2 why week st :
  why ≠ "" →
  let wk := week_key env (clock env (ticks st)) in
  let r1 := activityexcuse env user "set" None (Some why) st in
  r1.1 = ExcuseSet wk
  ∧ activity_excuses (db r1.2) !! wk
    = Some {| ex_reason := why; ex_set_by := user;
              ex_set_at := clock env (S (ticks st)) |}
  ∧ (∀ k, k ≠ wk →
          activity_excuses (db r1.2) !! k = activity_excuses (db st) !! k)
  ∧ (upper week = wk →
     let r2 := activityexcuse env user2 "clear" (Some week) None r1.2 in
     r2.1 = ExcuseCleared wk
     ∧ activity_excuses (db r2.2) = delete wk (activity_excuses (db st)))
  ∧ (activityexcuse env user "set" None None st).1 = ReasonRequired
  ∧ db (activityexcuse env user "set" None None st).2 = db st
  ∧ db (activityexcuse env user "set" None (Some "") st).2 = db st.
Proof.
  intros Hwhy wk r1. unfold r1.
  rewrite (activityexcuse_set_run env user why st Hwhy). fold wk.
  cbn [fst snd db with_excuses activity_excuses].
  split; [done |]. split; [by rewrite lookup_insert_eq |].
  split; [intros k Hk; by rewrite lookup_insert_ne |].
  split; [| by split].
  intros Hweek. cbv zeta.
  assert (Hne : week ≠ "").
  { intros ->. simpl in Hweek. by apply (week_key_not_empty env (clock env (ticks st))). }
  rewrite (activityexcuse_clear_run env user2 week _ Hne), Hweek.
  cbn [fst snd db with_excuses activity_excuses].
  split; [done | by rewrite delete_insert_eq].
Qed.

Lemma excuse_set_then_clear_witness :
  let r1 := activityexcuse sample_env 9 "set" None (Some "Exam week")
              (start empty_store) in
  let r2 := activityexcuse sample_env 9 "clear" (Some "1970-w01") None r1.2 in
  r1.1 = ExcuseSet "1970-W01" ∧ r2.1 = ExcuseCleared "1970-W01"
  ∧ activity_excuses (db r2.2) = delete "1970-W01" ∅.
Proof.
  pose proof (excuse_set_then_clear sample_env 9 9 "Exam week" "1970-w01"
                (start empty_store) ltac:(done)) as H.
  cbv zeta in H. destruct H as (Hset & _ & _ & Hclear & _).
  destruct (Hclear eq_refl) as [Hreply Hdb].
  split; [exact Hset |]. split; [exact Hreply | exact Hdb].
Defined.

(** X7.  An excuse set through [/activityexcuse] is honoured by the weekly
    run of the same week: the run posts its report with the reason given,
    inserts no strike, and leaves the excuse in place. *)
Theorem excuse_set_suppresses_strikes env user why g r st :
  why ≠ "" →
  let s1 := (activityexcuse env user "set" None (Some why) st).2 in
  weekday (clock env (ticks s1)) = 6 →
  announcement_channel env = Some g →
  get_role g (DEPARTMENT_ROLE_ID env) = Some r →
  week_key env (clock env (S (ticks s1))) = week_key env (clock env (ticks st)) →
  let s2 := (check_weekly_tasks env s1).2 in
  strikes (db s2) = strikes (db st)
  ∧ (∃ rep, new_events s1 s2 = [EvReport rep] ∧ r_excuse rep = Some why)
  ∧ ex_reason <$> activity_excuses (db s2) !! week_key env (clock env (ticks st))
    = Some why.
Proof.
  intros Hwhy s1 Hday Hch Hrole Hweek s2. unfold s2.
  rewrite (check_weekly_tasks_run env g r s1 Hday Hch Hrole). rewrite Hweek.
  assert (Hdb : db s1 = with_excuses
                  (<[week_key env (clock env (ticks st)) :=
                       {| ex_reason := why; ex_set_by := user;
                          ex_set_at := clock env (S (ticks st)) |}]>
                     (activity_excuses (db st))) (db st)).
  { unfold s1. by rewrite (activityexcuse_set_run env user why st Hwhy). }
  clearbody s1. rewrite Hdb. cbn [db with_excuses activity_excuses].
  rewrite lookup_insert_eq. cbn [fmap option_fmap option_map ex_reason truthy_str].
  destruct (String.eqb_spec why "") as [-> | _]; [done |]. cbn [negb].
  unfold weekly_strike_pass. cbn [truthy_str].
  destruct (String.eqb_spec why "") as [-> | _]; [done |]. cbn [negb].
  unfold ret. cbn [snd db trace reset_weekly_tables strikes activity_excuses
                   with_excuses].
  split; [done |]. split.
  - eexists. split; [by apply new_events_app | done].
  - by rewrite lookup_insert_eq.
Qed.

Lemma excuse_set_suppresses_strikes_witness :
  let s1 := (activityexcuse sample_env 9 "set" None (Some "Exam week")
               (start sample_week)).2 in
  strikes (db (check_weekly_tasks sample_env s1).2) = [].
Proof.
  pose proof (excuse_set_suppresses_strikes sample_env 9 "Exam week"
                sample_guild 10 (start sample_week) ltac:(done)) as H.
  cbv zeta in H.
  destruct H as (Hstrikes & _); [reflexivity .. |].
  exact Hstrikes.
Defined.

(** ** The 5-day warning *)

Lemma expiry_events_no_alert env did d :
  Forall (λ e, ∀ m rem, e ≠ EvAlert m rem) (expiry_events env did d).
Proof.
  unfold expiry_events. constructor; [done |]. apply Forall_app. split.
  - eapply Forall_impl; [apply removal_events_posts |].
    intros e [r ->]. done.
  - constructor; [done |].
    destruct (command_log_channel env); repeat constructor; done.
Qed.

(** One turn of the loop either sends no alert, or sends the alert of its
    own row, which was due, and sets [warned_5d]. *)
Lemma poll_row_alert env alert now did o st :
  ∃ st' evs,
    poll_row env alert now (did, o) st = (tt, st')
    ∧ trace st' = trace st ++ evs
    ∧ (((db st' = db st ∨ db st' = set_expired_handled did (db st))
        ∧ Forall (λ e, ∀ m rem, e ≠ EvAlert m rem) evs)
       ∨ (db st' = set_warned_5d did (db st)
          ∧ ∃ dl, evs = [EvAlert did (dl - now)] ∧ deadline o = Some dl
                  ∧ warned_5d o = false ∧ alert = true
                  ∧ is_Some (find_member env did)
                  ∧ days 4 + hours 23 ≤ dl - now ≤ days 5 + hours 1)).
Proof.
  unfold poll_row. cbn [fst snd].
  destruct (deadline o) as [dl |] eqn:Hdl.
  - rewrite bind_run.
    assert (Hquiet : ∀ s, ∃ st' evs,
              expire_row env did (dl - now) (expired_handled o) s = (tt, st')
              ∧ trace st' = trace s ++ evs
              ∧ (db st' = db s ∨ db st' = set_expired_handled did (db s))
              ∧ Forall (λ e, ∀ m rem, e ≠ EvAlert m rem) evs).
    { intros s.
      destruct (expire_row_run env did (dl - now) (expired_handled o) s)
        as [[He _] | (m & n & _ & _ & He)]; rewrite He.
      - exists s, []. rewrite app_nil_r. repeat split; [by left | done].
      - eexists _, _. split; [done |]. cbn [trace db].
        split; [done |]. split; [by right | apply expiry_events_no_alert]. }
    unfold warn_row.
    destruct (warned_5d o) eqn:Hw; cbn [negb andb].
    { unfold ret at 1. cbn [fst snd].
      destruct (Hquiet st) as (st' & evs & He & Ht & Hd & Hall).
      exists st', evs. by repeat split; [| | left]. }
    destruct (Z.leb_spec (days 4 + hours 23) (dl - now)) as [Hlo | Hlo];
      cbn [andb];
      [| unfold ret at 1; cbn [fst snd];
         destruct (Hquiet st) as (st' & evs & He & Ht & Hd & Hall);
         exists st', evs; by repeat split; [| | left]].
    destruct (Z.leb_spec (dl - now) (days 5 + hours 1)) as [Hhi | Hhi];
      [| unfold ret at 1; cbn [fst snd];
         destruct (Hquiet st) as (st' & evs & He & Ht & Hd & Hall);
         exists st', evs; by repeat split; [| | left]].
    destruct alert;
      [| unfold ret at 1; cbn [fst snd];
         destruct (Hquiet st) as (st' & evs & He & Ht & Hd & Hall);
         exists st', evs; by repeat split; [| | left]].
    destruct (find_member env did) as [m |] eqn:Hm;
      [| unfold ret at 1; cbn [fst snd];
         destruct (Hquiet st) as (st' & evs & He & Ht & Hd & Hall);
         exists st', evs; by repeat split; [| | left]].
    rewrite (find_member_id _ _ _ Hm).
    unfold bind at 1, emit at 1, sql_exec at 1. cbn [fst snd db trace].
    unfold expire_row.
    assert (Hpos : (dl - now <=? 0) = false).
    { apply Z.leb_gt. unfold days, hours, seconds in Hlo. lia. }
    rewrite Hpos. cbn [andb]. unfold ret.
    eexists _, _. split; [done |]. cbn [trace db]. split; [done |].
    right. split; [done |]. exists dl. by repeat split.
  - exists st, []. unfold ret. rewrite app_nil_r.
    repeat split. left. by split; [left |].
Qed.

Lemma warned_set_warned_own j d :
  is_Some (orientations d !! j) → warned j (set_warned_5d j d).
Proof.
  intros [oj Hj]. unfold warned. simpl.
  rewrite lookup_alter_eq, Hj. simpl. by eexists.
Qed.

Lemma warned_set_warned id j d : warned id d → warned id (set_warned_5d j d).
Proof.
  intros (o & Ho & Hl). unfold warned. simpl.
  destruct (decide (j = id)) as [-> | Hne].
  - rewrite lookup_alter_eq, Ho. simpl. by eexists.
  - rewrite lookup_alter_ne by done. by exists o.
Qed.

Lemma warned_set_expired id j d :
  warned id d → warned id (set_expired_handled j d).
Proof.
  intros (o & Ho & Hl). unfold warned. simpl.
  destruct (decide (j = id)) as [-> | Hne].
  - rewrite lookup_alter_eq, Ho. simpl. by eexists.
  - rewrite lookup_alter_ne by done. by exists o.
Qed.

Lemma warned_set_deadline id j dl d :
  warned id d → warned id (set_deadline j dl d).
Proof.
  intros (o & Ho & Hl). unfold warned. simpl.
  destruct (decide (j = id)) as [-> | Hne].
  - rewrite lookup_alter_eq, Ho. simpl. by eexists.
  - rewrite lookup_alter_ne by done. by exists o.
Qed.

Lemma warned_insert_or_nothing id j o d :
  warned id d → warned id (insert_orientation_or_nothing j o d).
Proof.
  intros (o' & Ho & Hl). unfold warned, insert_orientation_or_nothing.
  destruct (orientations d !! j) eqn:Hj; [by exists o' |]. simpl.
  rewrite lookup_insert_ne by congruence. by exists o'.
Qed.

Lemma warned_mark_passed id j t d :
  warned id d → warned id (mark_passed j t d).
Proof.
  intros (o & Ho & Hl). unfold warned, mark_passed. simpl.
  destruct (decide (j = id)) as [-> | Hne].
  - rewrite Ho, lookup_insert_eq. by eexists.
  - destruct (orientations d !! j); rewrite lookup_insert_ne by done; by exists o.
Qed.

Lemma warned_ensure env member id st :
  warned id (db st) →
  warned id (db (ensure_orientation_record env member st).2)
  ∧ trace (ensure_orientation_record env member st).2 = trace st.
Proof.
  intros Hl. destruct (ensure_orientation_record_run env member st) as (t & n & ->).
  simpl. split; [| done].
  destruct (orientations (db st) !! m_id member) eqn:Hm; [done |].
  destruct (_ && _); [| done].
  destruct Hl as (o & Ho & Hl). exists o. split; [| done]. simpl.
  rewrite lookup_insert_ne; [done | congruence].
Qed.

(** The rows of one poll keep every record in the table and every latch
    [warned_5d] that is set; an alert is sent only for a row that was due and
    leaves the latch of its record set. *)
Lemma poll_rows_alerts env alert now rows st :
  (∀ id o, (id, o) ∈ rows → is_Some (orientations (db st) !! id)) →
  ∃ st' evs,
    for_each rows (poll_row env alert now) st = (tt, st')
    ∧ trace st' = trace st ++ evs
    ∧ (∀ id, is_Some (orientations (db st) !! id)
             → is_Some (orientations (db st') !! id))
    ∧ (∀ id, warned id (db st) → warned id (db st'))
    ∧ (∀ m rem, EvAlert m rem ∈ evs →
         warned m (db st') ∧ alert = true ∧ is_Some (find_member env m)
         ∧ ∃ o dl, (m, o) ∈ rows ∧ deadline o = Some dl ∧ warned_5d o = false
                   ∧ rem = dl - now
                   ∧ days 4 + hours 23 ≤ rem ≤ days 5 + hours 1).
Proof.
  revert st. induction rows as [| [did o] rows IH]; intros st Hrows.
  - exists st, []. rewrite app_nil_r.
    split; [done |]. split; [done |]. split; [done |]. split; [done |].
    intros m rem Hin. by apply elem_of_nil in Hin.
  - destruct (poll_row_alert env alert now did o st)
      as (s1 & evs1 & Hrun & Htr1 & Hcase).
    assert (Hdid : is_Some (orientations (db st) !! did))
      by (apply (Hrows did o); by left).
    assert (Hkeep : ∀ id, is_Some (orientations (db st) !! id)
                          → is_Some (orientations (db s1) !! id)).
    { intros id Hid.
      destruct Hcase as [[[-> | ->] _] | [-> _]]; [done | |]; simpl;
        (destruct (decide (did = id)) as [-> | Hne];
         [rewrite lookup_alter_eq; by apply fmap_is_Some
         | by rewrite lookup_alter_ne by done]). }
    assert (Hmono : ∀ id, warned id (db st) → warned id (db s1)).
    { intros id Hid.
      destruct Hcase as [[[-> | ->] _] | [-> _]]; [done | |].
      - by apply warned_set_expired.
      - by apply warned_set_warned. }
    destruct (IH s1) as (st' & evs & Hrest & Htr & Hkeep' & Hmono' & Halert).
    { intros id o' Hin. apply Hkeep. apply (Hrows id o'). by right. }
    exists st', (evs1 ++ evs). rewrite for_each_cons, Hrun. cbn [snd].
    split; [exact Hrest |]. split; [by rewrite Htr, Htr1, app_assoc |].
    split; [intros id Hid; by apply Hkeep', Hkeep |].
    split; [intros id Hid; by apply Hmono', Hmono |].
    intros m rem Hin. apply elem_of_app in Hin as [Hin | Hin].
    + destruct Hcase as [[_ Hall] | (Hdb & dl & -> & Hdl & Hw & Ha & Hm & Hwin)].
      { rewrite Forall_forall in Hall. by destruct (Hall _ Hin m rem). }
      apply list_elem_of_singleton in Hin. injection Hin as Hm1 Hr1. subst m rem.
      split.
      { apply Hmono'. rewrite Hdb. by apply warned_set_warned_own. }
      split; [done |]. split; [done |].
      exists o, dl. split; [by left |]. destruct Hwin. by repeat split.
    + destruct (Halert m rem Hin) as (Hw & Ha & Hm & o' & dl & Hin' & Hrest').
      split; [done |]. split; [done |]. split; [done |].
      exists o', dl. split; [by right | done].
Qed.

(** X8.  The poll sends the 5-day alert only for a record that is not
    passed and not yet warned, whose member is found, when the alert channel
    exists and the time left at the reading of the run lies between 4 days
    23 hours and 5 days 1 hour; the alert shows that time left, and after the
    run the record carries [warned_5d]. *)
Theorem alert_only_when_due env st m rem :
  let now := clock env (ticks st) in
  let st' := (orientation_reminder_loop env st).2 in
  EvAlert m rem ∈ new_events st st' →
  orientation_alert_channel env = true
  ∧ is_Some (find_member env m)
  ∧ warned m (db st')
  ∧ ∃ o dl, orientations (db st) !! m = Some o ∧ passed o = false
            ∧ warned_5d o = false ∧ deadline o = Some dl
            ∧ rem = dl - now
            ∧ days 4 + hours 23 ≤ rem ≤ days 5 + hours 1.
Proof.
  intros now st'. unfold st'.
  destruct (orientation_reminder_loop_run env st) as [t ->]. fold now.
  set (st0 := {| db := db st; ticks := t; sql_count := S (sql_count st);
                 trace := trace st |}).
  destruct (poll_rows_alerts env (orientation_alert_channel env) now
              (pending_orientations (db st)) st0)
    as (s' & evs & Hrun & Htr & _ & _ & Halert).
  { intros id o Hin. apply pending_rows_elem in Hin as [Ho _]. by eexists. }
  rewrite Hrun. cbn [snd].
  rewrite (new_events_app st s' evs) by exact Htr.
  intros Hin. destruct (Halert m rem Hin) as (Hw & Ha & Hm & o & dl & Hrow & Hrest).
  apply pending_rows_elem in Hrow as [Ho Hp].
  split; [done |]. split; [done |]. split; [done |].
  exists o, dl. destruct Hrest as (? & ? & ? & ? & ?). by repeat split.
Qed.

Lemma alert_only_when_due_witness :
  let st' := (orientation_reminder_loop sample_env (start carol_due)).2 in
  EvAlert 4 (days 5) ∈ new_events (start carol_due) st'
  ∧ warned 4 (db st').
Proof.
  intros st'.
  assert (Hin : EvAlert 4 (days 5) ∈ new_events (start carol_due) st').
  { apply (list_elem_of_singleton (EvAlert 4 (days 5)) (EvAlert 4 (days 5))).
    reflexivity. }
  split; [exact Hin |].
  pose proof (alert_only_when_due sample_env (start carol_due) 4 (days 5) Hin)
    as (_ & _ & Hw & _).
  exact Hw.
Defined.

(** ** Commands on orientation records *)

Lemma log_action_command env title about st :
  String.eqb title "Orientation Expiry Enforced" = false →
  ∃ evs, log_action env title about st =
           (tt, {| db := db st; ticks := ticks st; sql_count := sql_count st;
                   trace := trace st ++ evs |})
         ∧ Forall is_command_log evs.
Proof.
  intros Ht. unfold log_action. destruct (command_log_channel env).
  - exists [EvLog title about]. split; [done |].
    constructor; [by eexists _, _ | done].
  - exists []. unfold ret. rewrite app_nil_r. split; [| done].
    by destruct st.
Qed.

(** The role event and the three commands change the store only through
    the four statements below, and write nothing but log entries. *)
Lemma perform_command (P : Store → Prop) a st :
  (∀ j o d, P d → P (insert_orientation_or_nothing j o d)) →
  (∀ j o d, orientations d !! j = None → P d → P (insert_orientation j o d)) →
  (∀ j t d, P d → P (mark_passed j t d)) →
  (∀ j dl d o, orientations d !! j = Some o → passed o = false → P d →
               P (set_deadline j dl d)) →
  P (db st) →
  match a with
  | Poll _ => True
  | _ => P (db (perform a st))
         ∧ ∃ evs, trace (perform a st) = trace st ++ evs
                  ∧ Forall is_command_log evs
  end.
Proof.
  intros Hins Hnew Hpass Hext HP.
  destruct a as [env | env before after | env member | env member
                | env member ndays]; [done | ..]; cbn [perform].
  - (* a role update *)
    unfold on_member_update. destruct (_ && _).
    + unfold bind, utcnow, sql_exec. cbn [fst snd db ticks sql_count trace].
      match goal with |- context [log_action env ?t ?a ?s] =>
        destruct (log_action_command env t a s eq_refl) as (evs & -> & Hall) end.
      cbn [snd db trace]. split; [by apply Hins | by exists evs].
    + unfold ret. cbn [snd]. split; [done |]. exists []. by rewrite app_nil_r.
  - (* the lazy creation *)
    destruct (ensure_orientation_record_run env member st) as (t & n & ->).
    cbn [snd db trace]. split; [| exists []; by rewrite app_nil_r].
    destruct (orientations (db st) !! m_id member) eqn:Hm; [done |].
    destruct (_ && _); [by apply Hnew | done].
  - (* passing *)
    unfold passedorientation.
    unfold bind, utcnow, sql_exec. cbn [fst snd db ticks sql_count trace].
    match goal with |- context [log_action env ?t ?a ?s] =>
      destruct (log_action_command env t a s eq_refl) as (evs & -> & Hall) end.
    cbn [snd db trace]. split; [by apply Hpass | by exists evs].
  - (* an extension *)
    unfold extendorientation. rewrite !bind_run.
    destruct (ensure_orientation_record_run env member st) as (t & n & ->).
    cbn [fst snd].
    set (d1 := match orientations (db st) !! m_id member with
               | Some _ => db st
               | None => _
               end).
    assert (HP1 : P d1).
    { unfold d1. destruct (orientations (db st) !! m_id member) eqn:Hm; [done |].
      destruct (_ && _); [by apply Hnew | done]. }
    clearbody d1.
    unfold sql_query. cbn [fst snd db ticks sql_count trace].
    destruct (orientations d1 !! m_id member) as [o |] eqn:Ho.
    + destruct (passed o) eqn:Hp.
      * unfold ret. cbn [snd db trace]. split; [done |].
        exists []. by rewrite app_nil_r.
      * destruct (deadline o) as [dl |];
          unfold bind, ret, utcnow, sql_exec;
          cbn [fst snd db ticks sql_count trace];
          match goal with |- context [log_action env ?t ?a ?s] =>
            destruct (log_action_command env t a s eq_refl)
              as (evs & -> & Hall) end;
          cbn [snd db trace];
          (split; [by eapply Hext | by exists evs]).
    + unfold ret. cbn [snd db trace]. split; [done |].
      exists []. by rewrite app_nil_r.
Qed.

Lemma perform_all_invariant (P : Store → Prop) (Q : Event → Prop) l st :
  (∀ a s, P (db s) →
          P (db (perform a s))
          ∧ ∃ evs, trace (perform a s) = trace s ++ evs ∧ Forall Q evs) →
  P (db st) →
  P (db (perform_all l st)) ∧ Forall Q (new_events st (perform_all l st)).
Proof.
  intros Hstep. revert st.
  assert (Hgen : ∀ st, P (db st) →
            P (db (perform_all l st))
            ∧ ∃ evs, trace (perform_all l st) = trace st ++ evs ∧ Forall Q evs).
  { induction l as [| a l IH]; intros st HP; simpl.
    - split; [done |]. exists []. by rewrite app_nil_r.
    - destruct (Hstep a st HP) as (HP1 & evs1 & Ht1 & Hall1).
      destruct (IH (perform a st) HP1) as (HP2 & evs2 & Ht2 & Hall2).
      split; [done |]. exists (evs1 ++ evs2).
      split; [by rewrite Ht2, Ht1, app_assoc | by apply Forall_app]. }
  intros st HP. destruct (Hgen st HP) as (HP' & evs & Ht & Hall).
  split; [done |]. by rewrite (new_events_app _ _ _ Ht).
Qed.

Lemma command_log_no_alert id evs :
  Forall is_command_log evs →
  Forall (λ e, is_alert id e = false ∧ is_expiry_event id e = false) evs.
Proof.
  intros Hall. eapply Forall_impl; [exact Hall |]. simpl.
  intros e (title & about & -> & Ht). split; [done |]. simpl.
  destruct about; [| done]. by rewrite Ht.
Qed.

(** X9.  The 5-day warning is sent once: when the record of a member
    carries [warned_5d], no sequence of polls, role events, lazy creations,
    passes and extensions clears the latch or sends another alert about the
    member, also when an extension moves the deadline back into the warning
    window. *)
Theorem five_day_warning_once actions id st :
  warned id (db st) →
  let st' := perform_all actions st in
  warned id (db st') ∧ Forall (λ e, is_alert id e = false) (new_events st st').
Proof.
  intros Hw st'. unfold st'.
  apply (perform_all_invariant (warned id)); [| done].
  clear st Hw st'. intros a st Hw.
  destruct a as [env | env before after | env member | env member
                | env member ndays];
    [| destruct (perform_command (warned id) (RoleUpdate env before after) st)
         as (HP & evs & Ht & Hall)
     | destruct (perform_command (warned id) (EnsureRecord env member) st)
         as (HP & evs & Ht & Hall)
     | destruct (perform_command (warned id) (PassOrientation env member) st)
         as (HP & evs & Ht & Hall)
     | destruct (perform_command (warned id)
                   (ExtendOrientation env member ndays) st)
         as (HP & evs & Ht & Hall)];
    try (intros; by apply warned_insert_or_nothing);
    try (intros; by apply warned_mark_passed);
    try (intros; by apply warned_set_deadline);
    try (intros j o d Hnone (o' & Ho' & Hl'); exists o'; split; [| done];
         simpl; rewrite lookup_insert_ne; [done | congruence]);
    try done;
    try (split; [done |]; exists evs; split; [done |];
         eapply Forall_impl; [exact (command_log_no_alert id evs Hall) |];
         by intros e [? _]).
  (* the poll *)
  cbn [perform].
  destruct (orientation_reminder_loop_run env st) as [t ->].
  set (st0 := {| db := db st; ticks := t; sql_count := S (sql_count st);
                 trace := trace st |}).
  destruct (poll_rows_alerts env (orientation_alert_channel env)
              (clock env (ticks st)) (pending_orientations (db st)) st0)
    as (s' & evs & Hrun & Htr & _ & Hmono & Halert).
  { intros j o Hin. apply pending_rows_elem in Hin as [Ho _]. by eexists. }
  rewrite Hrun. cbn [snd]. split; [by apply Hmono |].
  exists evs. split; [exact Htr |].
  apply Forall_forall. intros e He.
  destruct e as [| | | | m rem | |]; try done. simpl.
  destruct (Z.eqb_spec m id) as [-> | Hne]; [exfalso | done].
  destruct (Halert id rem He) as (_ & _ & _ & o & dl & Hrow & _ & Hnot & _).
  apply pending_rows_elem in Hrow as [Ho _].
  destruct Hw as (o' & Ho' & Hw). congruence.
Qed.

Lemma five_day_warning_once_witness :
  let st := (orientation_reminder_loop sample_env (start carol_due)).2 in
  let st' := perform_all [ExtendOrientation sample_env carol 1;
                          Poll sample_env] st in
  warned 4 (db st) ∧ warned 4 (db st') ∧ new_events st st' = [EvLog "Orientation Deadline Extended" (Some 4)].
Proof.
  intros st st'.
  assert (Hw : warned 4 (db st)).
  { eexists. split; [reflexivity | reflexivity]. }
  pose proof (five_day_warning_once
                [ExtendOrientation sample_env carol 1; Poll sample_env] 4 st Hw)
    as [Hw' _].
  split; [exact Hw |]. split; [exact Hw' |]. reflexivity.
Defined.

(** X10.  [/passedorientation] marks the record of the member as passed at
    the time of the call and sets both latches; an existing record keeps its
    assignment and deadline, a missing one is created with a 14-day window,
    and no other record changes.  Afterwards no sequence of polls, role
    events, lazy creations, passes and extensions un-passes the record or
    moves its deadline, and no poll alerts about the member or enforces the
    deadline. *)
Theorem passed_orientation_is_final env member actions st :
  let now := clock env (ticks st) in
  let id := m_id member in
  let a := match orientations (db st) !! id with
           | Some o => assigned_at o | None => Some now end in
  let dl := match orientations (db st) !! id with
            | Some o => deadline o | None => Some (now + days 14) end in
  let st1 := (passedorientation env member st).2 in
  let st2 := perform_all actions st1 in
  orientations (db st1)
  = <[id := {| assigned_at := a; deadline := dl; passed := true;
               passed_at := Some now; warned_5d := true;
               expired_handled := true |}]> (orientations (db st))
  ∧ passed_with id a dl (db st2)
  ∧ Forall (λ e, is_alert id e = false ∧ is_expiry_event id e = false)
      (new_events st1 st2).
Proof.
  intros now id a dl st1 st2.
  assert (Hdb : db st1 = mark_passed id now (db st)).
  { unfold st1, passedorientation. run_step.
    by destruct (command_log_channel env). }
  assert (Hrec : orientations (db st1)
                 = <[id := {| assigned_at := a; deadline := dl; passed := true;
                              passed_at := Some now; warned_5d := true;
                              expired_handled := true |}]>
                     (orientations (db st))).
  { rewrite Hdb. unfold mark_passed, a, dl. simpl.
    by destruct (orientations (db st) !! id). }
  split; [exact Hrec |].
  assert (Hp : passed_with id a dl (db st1)).
  { eexists. rewrite Hrec, lookup_insert_eq. by repeat split. }
  clearbody st1. unfold st2.
  apply (perform_all_invariant (passed_with id a dl)); [| done].
  clear st1 st2 Hdb Hrec Hp. intros act s Hp.
  assert (Hins : ∀ j o d, passed_with id a dl d →
                          passed_with id a dl (insert_orientation_or_nothing j o d)).
  { intros j o d (o' & Ho' & Hrest). unfold insert_orientation_or_nothing.
    destruct (orientations d !! j) eqn:Hj; [by exists o' |].
    exists o'. split; [| done]. simpl.
    rewrite lookup_insert_ne; [done | congruence]. }
  assert (Hnew : ∀ j o d, orientations d !! j = None → passed_with id a dl d →
                          passed_with id a dl (insert_orientation j o d)).
  { intros j o d Hnone (o' & Ho' & Hrest). exists o'. split; [| done]. simpl.
    rewrite lookup_insert_ne; [done | congruence]. }
  assert (Hpass : ∀ j t d, passed_with id a dl d →
                           passed_with id a dl (mark_passed j t d)).
  { intros j t d (o' & Ho' & Hpd & Ha & Hdl & Hw & Hh). unfold mark_passed.
    destruct (decide (j = id)) as [-> | Hne].
    - rewrite Ho'. eexists. simpl. rewrite lookup_insert_eq.
      by repeat split.
    - exists o'. simpl.
      destruct (orientations d !! j); rewrite lookup_insert_ne by done;
        by repeat split. }
  assert (Hext : ∀ j dl' d o, orientations d !! j = Some o → passed o = false →
                              passed_with id a dl d →
                              passed_with id a dl (set_deadline j dl' d)).
  { intros j dl' d o Ho Hpf (o' & Ho' & Hpd & Hrest).
    assert (Hne : j ≠ id) by (intros ->; congruence).
    exists o'. simpl. by rewrite lookup_alter_ne by done. }
  destruct act as [env' | env' before after | env' member' | env' member'
                  | env' member' ndays];
    [| destruct (perform_command (passed_with id a dl)
                   (RoleUpdate env' before after) s Hins Hnew Hpass Hext Hp)
         as (HP & evs & Ht & Hall)
     | destruct (perform_command (passed_with id a dl)
                   (EnsureRecord env' member') s Hins Hnew Hpass Hext Hp)
         as (HP & evs & Ht & Hall)
     | destruct (perform_command (passed_with id a dl)
                   (PassOrientation env' member') s Hins Hnew Hpass Hext Hp)
         as (HP & evs & Ht & Hall)
     | destruct (perform_command (passed_with id a dl)
                   (ExtendOrientation env' member' ndays) s Hins Hnew Hpass
                   Hext Hp)
         as (HP & evs & Ht & Hall)];
    try (split; [done |]; exists evs; split; [done |];
         by apply command_log_no_alert).
  (* the poll *)
  cbn [perform]. destruct Hp as (o & Ho & Hpd & Hrest).
  destruct (poll_from_record env' s id)
    as [(Hsame & Hall & _)
       | (o' & _ & _ & _ & _ & _ & Ho' & Hpf & _)]; [| congruence].
  split.
  - exists o. by rewrite Hsame.
  - eexists. split; [apply poll_trace_grows |].
    eapply Forall_impl; [exact Hall |]. simpl. intros e He. split.
    + by destruct e.
    + destruct (is_expiry_event id e) eqn:Hx; [| done].
      apply expiry_event_touches in Hx. congruence.
Qed.

Lemma extendorientation_run env member n st o dl :
  orientations (db st) !! m_id member = Some o → passed o = false →
  deadline o = Some dl →
  ∃ t sq,
    extendorientation env member n st
    = (Extended (dl + days n),
       {| db := set_deadline (m_id member) (dl + days n) (db st);
          ticks := t; sql_count := sq;
          trace := trace st
                   ++ (if command_log_channel env
                       then [EvLog "Orientation Deadline Extended"
                               (Some (m_id member))]
                       else []) |}).
Proof.
  intros Ho Hp Hdl. unfold extendorientation. rewrite !bind_run.
  destruct (ensure_orientation_record_run env member st) as (t & sq & ->).
  cbn [fst snd]. unfold sql_query. cbn [fst snd db ticks sql_count trace].
  rewrite !Ho, Hp, Hdl. unfold bind, ret, sql_exec, log_action, emit.
  cbn [fst snd db ticks sql_count trace].
  destruct (command_log_channel env); cbn; eexists _, _; [done |].
  by rewrite app_nil_r.
Qed.

(** X11.  [/extendorientation] on a record that is not passed moves the
    deadline by the given number of days, counted from the stored deadline
    and not from the time of the call; the other fields, and with them the
    two latches, keep their values.  Two extensions add up. *)
Theorem extension_adds_days env env2 member n k st o dl :
  orientations (db st) !! m_id member = Some o → passed o = false →
  deadline o = Some dl →
  let r := extendorientation env member n st in
  let r2 := extendorientation env2 member k r.2 in
  r.1 = Extended (dl + days n)
  ∧ orientations (db r.2)
    = <[m_id member := with_deadline (dl + days n) o]> (orientations (db st))
  ∧ r2.1 = Extended (dl + days (n + k))
  ∧ orientations (db r2.2)
    = <[m_id member := with_deadline (dl + days (n + k)) o]>
        (orientations (db st)).
Proof.
  intros Ho Hp Hdl r r2.
  destruct (extendorientation_run env member n st o dl Ho Hp Hdl)
    as (t & sq & Hr).
  assert (Hrec : orientations (db r.2)
                 = <[m_id member := with_deadline (dl + days n) o]>
                     (orientations (db st))).
  { unfold r. rewrite Hr. cbn [snd db set_deadline with_orientations orientations].
    apply map_eq. intros j. destruct (decide (j = m_id member)) as [-> | Hne].
    - by rewrite lookup_alter_eq, lookup_insert_eq, Ho.
    - by rewrite lookup_alter_ne, lookup_insert_ne. }
  assert (Ho1 : orientations (db r.2) !! m_id member
                = Some (with_deadline (dl + days n) o))
    by (by rewrite Hrec, lookup_insert_eq).
  destruct (extendorientation_run env2 member k r.2
              (with_deadline (dl + days n) o) (dl + days n) Ho1 Hp eq_refl)
    as (t2 & sq2 & Hr2).
  assert (Hsum : dl + days n + days k = dl + days (n + k))
    by (unfold days, seconds; lia).
  split; [unfold r; by rewrite Hr |]. split; [exact Hrec |].
  unfold r2. rewrite Hr2, Hsum. split; [done |].
  cbn [snd db set_deadline with_orientations orientations]. rewrite Hrec.
  apply map_eq. intros j. destruct (decide (j = m_id member)) as [-> | Hne].
  - by rewrite lookup_alter_eq, !lookup_insert_eq.
  - by rewrite lookup_alter_ne, !lookup_insert_ne.
Qed.

Lemma extension_adds_days_witness :
  let r := extendorientation sample_env carol 7 (start carol_due) in
  let r2 := extendorientation sample_env carol 3 r.2 in
  r.1 = Extended (days 8 + days 7) ∧ r2.1 = Extended (days 8 + days (7 + 3)).
Proof.
  pose proof (extension_adds_days sample_env sample_env carol 7 3
                (start carol_due) _ (days 8) eq_refl eq_refl eq_refl) as H.
  cbv zeta in H. destruct H as (H1 & _ & H2 & _).
  split; [exact H1 | exact H2].
Defined.

(** X12.  A refused extension changes nothing: when [/extendorientation]
    answers that there is no record, or that the member already passed, the
    store is as before the call and nothing is written to the log. *)
Theorem refused_extension_changes_nothing env member n st :
  let r := extendorientation env member n st in
  r.1 = NoOrientationRecord ∨ r.1 = AlreadyPassed →
  db r.2 = db st ∧ trace r.2 = trace st
  ∧ (r.1 = AlreadyPassed
     ↔ ∃ o, orientations (db st) !! m_id member = Some o ∧ passed o = true).
Proof.
  intros r. unfold r, extendorientation. rewrite !bind_run.
  destruct (ensure_orientation_record_run env member st) as (t & sq & ->).
  cbn [fst snd]. unfold sql_query. cbn [fst snd db ticks sql_count trace].
  destruct (orientations (db st) !! m_id member) as [o |] eqn:Ho.
  - rewrite Ho. destruct (passed o) eqn:Hp.
    + unfold ret. cbn [fst snd db trace]. intros _.
      split; [done |]. split; [done |]. split; [by exists o | done].
    + destruct (deadline o); unfold bind, ret, utcnow, sql_exec, log_action;
        cbn [fst snd db ticks sql_count trace];
        destruct (command_log_channel env); cbn; by intros [|].
  - destruct (truthy_id (SCIENTIFIC_TRAINEE_ROLE_ID env)
              && has_role (SCIENTIFIC_TRAINEE_ROLE_ID env) member).
    + cbn [orientations insert_orientation with_orientations].
      rewrite lookup_insert_eq. cbn [passed new_orientation deadline].
      unfold bind, ret, utcnow, sql_exec, log_action;
        cbn [fst snd db ticks sql_count trace];
        destruct (command_log_channel env); cbn; by intros [|].
    + rewrite Ho. unfold ret. cbn [fst snd db trace]. intros _.
      split; [done |]. split; [done |]. split; [done |].
      by intros (o & ? & _).
Qed.

Lemma refused_extension_changes_nothing_witness :
  let st := (passedorientation sample_env carol (start carol_due)).2 in
  let r := extendorientation sample_env carol 7 st in
  r.1 = AlreadyPassed ∧ db r.2 = db st.
Proof.
  intros st r.
  assert (Hr : r.1 = AlreadyPassed) by reflexivity.
  split; [exact Hr |].
  pose proof (refused_extension_changes_nothing sample_env carol 7 st
                (or_intror Hr)) as [Hdb _].
  exact Hdb.
Defined.

(** ** The session webhook *)

Lemma discord_of_roblox_linked d did rid :
  roblox_verification d !! did = Some rid →
  (∀ j, roblox_verification d !! j = Some rid → j = did) →
  discord_of_roblox (Some rid) d = Some did.
Proof.
  intros Hlink Huniq. unfold discord_of_roblox.
  destruct (find _ _) as [[j r] |] eqn:Hf; simpl.
  - apply find_some in Hf as [Hin Hr]. simpl in Hr.
    apply Z.eqb_eq in Hr as ->.
    apply list_elem_of_In, elem_of_map_to_list in Hin.
    by rewrite (Huniq j Hin).
  - assert (Hin : (did, rid) ∈ map_to_list (roblox_verification d))
      by (by apply elem_of_map_to_list).
    apply list_elem_of_In in Hin.
    pose proof (find_none _ _ Hf _ Hin) as Hno. simpl in Hno.
    by rewrite Z.eqb_refl in Hno.
Qed.

Lemma send_activity_embed_run env joined did st :
  ∃ evs, send_activity_embed env joined did st
         = (tt, {| db := db st; ticks := ticks st; sql_count := sql_count st;
                   trace := trace st ++ evs |})
         ∧ evs = if activity_log_channel env || command_log_channel env
                 then [EvActivity joined did] else [].
Proof.
  unfold send_activity_embed. destruct (_ || _).
  - by eexists.
  - exists []. unfold ret. rewrite app_nil_r. by destruct st.
Qed.

Lemma roblox_handler_joined env request st did rid :
  header_secret request = API_SECRET_KEY env →
  body_roblox_id request = Some rid → body_status request = "joined" →
  discord_of_roblox (Some rid) (db st) = Some did → did ≠ 0 →
  ∃ sq evs,
    roblox_handler env request st
    = (200, {| db := with_sessions
                       (<[rid := clock env (ticks st)]> (roblox_sessions (db st)))
                       (roblox_time (db st)) (db st);
               ticks := S (ticks st); sql_count := sq;
               trace := trace st ++ evs |}).
Proof.
  intros Hsec Hrid Hstatus Hdid Hne. unfold roblox_handler.
  rewrite bool_decide_eq_true_2 by done. cbn [negb].
  rewrite Hrid, Hstatus. rewrite !bind_run.
  unfold sql_query at 1 2 3. cbn [fst snd]. rewrite Hdid. cbn [truthy_id default from_option id].
  destruct (Z.eqb_spec did 0) as [| _]; [done |]. cbn [negb].
  change (String.eqb "joined" "joined") with true. cbv iota.
  unfold bind, utcnow, sql_exec. cbn [fst snd db ticks sql_count trace].
  match goal with |- context [send_activity_embed env ?j ?m ?s] =>
    destruct (send_activity_embed_run env j m s) as (evs & -> & _) end.
  unfold ret. cbn. by eexists _, _.
Qed.

Lemma roblox_handler_left env request st did rid t0 :
  header_secret request = API_SECRET_KEY env →
  body_roblox_id request = Some rid → body_status request = "left" →
  discord_of_roblox (Some rid) (db st) = Some did → did ≠ 0 →
  roblox_sessions (db st) !! rid = Some t0 →
  let closed := with_sessions (delete rid (roblox_sessions (db st)))
                  (roblox_time (db st)) (db st) in
  let secs := (clock env (ticks st) - t0) `quot` seconds 1 in
  ∃ sq evs,
    roblox_handler env request st
    = match add_time did secs closed with
      | Some d => (200, {| db := d; ticks := S (S (ticks st)); sql_count := sq;
                           trace := trace st ++ evs |})
      | None => (500, {| db := closed; ticks := S (ticks st); sql_count := sq;
                         trace := trace st |})
      end.
Proof.
  intros Hsec Hrid Hstatus Hdid Hne Hopen closed secs. unfold roblox_handler.
  cbn [header_of]. rewrite bool_decide_eq_true_2 by done. cbn [negb].
  rewrite Hrid, Hstatus. rewrite !bind_run.
  unfold sql_query at 1 2 3. cbn [fst snd]. rewrite Hdid.
  cbn [truthy_id default from_option id].
  destruct (Z.eqb_spec did 0) as [| _]; [done |]. cbn [negb].
  change (String.eqb "left" "joined") with false.
  change (String.eqb "left" "left") with true. cbv iota.
  unfold bind, sql_query. cbn [fst snd db ticks sql_count trace].
  rewrite Hopen, ?Hdid. cbn [default from_option id].
  unfold bind, utcnow, sql_exec, sql_query, sql_try.
  cbn [fst snd db ticks sql_count trace]. fold closed secs.
  destruct (add_time did secs closed) as [d |].
  - cbn [fst snd db ticks sql_count trace].
    match goal with |- context [send_activity_embed env ?j ?m ?s] =>
      destruct (send_activity_embed_run env j m s) as (evs & -> & _) end.
    unfold ret. cbn [fst snd]. by eexists _, _.
  - unfold ret. by eexists _, [].
Qed.

(** X13.  A session is counted from its latest "joined" event to the "left"
    event.  For an account linked to one member, a "joined" request is
    answered with 200 and opens the session at the reading of the clock,
    restarting one that was open; the "left" request that follows closes it.
    When the whole seconds between the two readings, and the member's weekly
    time with them added, fit the INT column [time_spent], the "left" request
    is answered with 200, the seconds are added to the member's weekly time
    and no other member's time changes.  When they do not fit, the statement
    raises after the session row is deleted: the request is answered with 500
    and the weekly time is as it was. *)
Theorem session_time_is_counted env join left st did rid :
  header_secret join = API_SECRET_KEY env →
  header_secret left = API_SECRET_KEY env →
  body_roblox_id join = Some rid → body_status join = "joined" →
  body_roblox_id left = Some rid → body_status left = "left" →
  roblox_verification (db st) !! did = Some rid →
  (∀ j, roblox_verification (db st) !! j = Some rid → j = did) →
  did ≠ 0 →
  let r1 := roblox_handler env join st in
  let r2 := roblox_handler env left r1.2 in
  let elapsed := (clock env (S (ticks st)) - clock env (ticks st))
                   `quot` seconds 1 in
  let total := default 0 (roblox_time (db st) !! did) + elapsed in
  r1.1 = 200
  ∧ roblox_sessions (db r1.2) !! rid = Some (clock env (ticks st))
  ∧ roblox_sessions (db r2.2) = delete rid (roblox_sessions (db st))
  ∧ (fits_int4 elapsed && fits_int4 total = true →
     r2.1 = 200
     ∧ roblox_time (db r2.2) = <[did := total]> (roblox_time (db st)))
  ∧ (fits_int4 elapsed && fits_int4 total = false →
     r2.1 = 500 ∧ roblox_time (db r2.2) = roblox_time (db st)).
Proof.
  intros Hs1 Hs2 Hr1 Hj Hr2 Hl Hlink Huniq Hne r1 r2 elapsed total.
  pose proof (discord_of_roblox_linked _ _ _ Hlink Huniq) as Hdid.
  destruct (roblox_handler_joined env join st did rid Hs1 Hr1 Hj Hdid Hne)
    as (sq1 & evs1 & Hrun1).
  unfold r2, r1. rewrite Hrun1. cbn [fst snd].
  match goal with |- context [roblox_handler env (Typed left) ?s] =>
    destruct (roblox_handler_left env left s did rid (clock env (ticks st))
                Hs2 Hr2 Hl Hdid Hne) as (sq2 & evs2 & Hrun2) end.
  { cbn. by rewrite lookup_insert_eq. }
  cbv zeta in Hrun2. rewrite Hrun2. clear Hrun2.
  cbn [db ticks roblox_sessions roblox_time with_sessions].
  fold elapsed. unfold add_time.
  cbn [db ticks roblox_sessions roblox_time with_sessions].
  assert (Htotal : match roblox_time (db st) !! did with
                   | Some t => t + elapsed
                   | None => elapsed
                   end = total).
  { unfold total. destruct (roblox_time (db st) !! did); cbn; unfold id; lia. }
  rewrite Htotal.
  split; [done |]. split; [by rewrite lookup_insert_eq |].
  destruct (fits_int4 elapsed && fits_int4 total);
    cbn [fst snd db roblox_sessions roblox_time with_sessions].
  - split; [by rewrite delete_insert_eq |]. by split.
  - split; [by rewrite delete_insert_eq |]. by split.
Qed.

Lemma session_time_is_counted_witness :
  let join := {| header_secret := Some "s3cret"; body_roblox_id := Some 77;
                 body_status := "joined" |} in
  let left := {| header_secret := Some "s3cret"; body_roblox_id := Some 77;
                 body_status := "left" |} in
  let r1 := roblox_handler sample_env join (start sample_week) in
  let r2 := roblox_handler sample_env left r1.2 in
  r2.1 = 200
  ∧ roblox_time (db r2.2) = <[1 := 3000 + 1]> (roblox_time sample_week).
Proof.
  intros join left r1 r2.
  pose proof (session_time_is_counted sample_env join left (start sample_week)
                1 77 eq_refl eq_refl eq_refl eq_refl eq_refl eq_refl eq_refl)
    as H.
  cbv zeta in H. destruct H as (_ & _ & _ & Hfits & _).
  - intros j Hj. cbn in Hj. apply lookup_singleton_Some in Hj as [<- _]. done.
  - done.
  - apply Hfits. reflexivity.
Defined.

(** A clock that jumps by 2^31 seconds between the two requests: the "left"
    request is answered with 500, the session row is gone and no time is
    added. *)
Example session_time_overflow :
  let env := {| clock := λ n, match n with
                              | O => 0
                              | _ => seconds 2147483648
                              end;
                isocalendar := isocalendar sample_env;
                guilds := guilds sample_env;
                announcement_channel := announcement_channel sample_env;
                orientation_alert_channel := true;
                command_log_channel := true;
                activity_log_channel := false;
                DEPARTMENT_ROLE_ID := DEPARTMENT_ROLE_ID sample_env;
                SCIENTIFIC_TRAINEE_ROLE_ID :=
                  SCIENTIFIC_TRAINEE_ROLE_ID sample_env;
                WEEKLY_REQUIREMENT := 3; WEEKLY_TIME_REQUIREMENT := 45;
                API_SECRET_KEY := Some "s3cret";
                roblox_remove_configured := false;
                send_ok := λ _, false; kick_ok := λ _, false;
                post_ok := λ _ _, false |} in
  let join := {| header_secret := Some "s3cret"; body_roblox_id := Some 77;
                 body_status := "joined" |} in
  let left := {| header_secret := Some "s3cret"; body_roblox_id := Some 77;
                 body_status := "left" |} in
  let r1 := roblox_handler env join (start sample_week) in
  let r2 := roblox_handler env left r1.2 in
  r2.1 = 500 ∧ roblox_sessions (db r2.2) !! 77 = None
  ∧ roblox_time (db r2.2) !! 1 = Some 3000.
Proof. vm_compute. done. Qed.

(** X14.  The webhook answers 401 exactly when the [X-Secret-Key] header
    differs from the configured secret, and 200 or 500 otherwise.  A request
    with the right secret whose body cannot be read, or whose [robloxId] the
    driver refuses, is answered with 500 and changes nothing.  Any other
    request with the right secret is answered with 200 and changes nothing in
    the store when the account is linked to no member, when the status is
    neither "joined" nor "left", or when a "left" event finds no open
    session; in the first two cases nothing is posted either. *)
Theorem webhook_ignored_requests env incoming st :
  let r := roblox_handler env incoming st in
  (r.1 = 401 ↔ header_of incoming ≠ API_SECRET_KEY env)
  ∧ (r.1 = 200 ∨ r.1 = 401 ∨ r.1 = 500)
  ∧ (header_of incoming = API_SECRET_KEY env →
     (∀ header, incoming = Malformed header →
        r.1 = 500 ∧ db r.2 = db st ∧ trace r.2 = trace st)
     ∧ (∀ request, incoming = Typed request →
          let did := discord_of_roblox (body_roblox_id request) (db st) in
          (truthy_id did = false
           ∨ (body_status request ≠ "joined" ∧ body_status request ≠ "left") →
           r.1 = 200 ∧ db r.2 = db st ∧ trace r.2 = trace st)
          ∧ (body_status request = "left" →
             roblox_sessions (db st) !! default 0 (body_roblox_id request)
             = None →
             r.1 = 200 ∧ db r.2 = db st))).
Proof.
  intros r.
  destruct (decide (header_of incoming = API_SECRET_KEY env)) as [Hs | Hs].
  - destruct incoming as [request | header].
    + set (s0 := {| db := db st; ticks := ticks st;
                    sql_count := S (sql_count st); trace := trace st |}).
      set (did := discord_of_roblox (body_roblox_id request) (db st)).
      assert (Hrun : ∃ inner : M Z,
                r = inner s0
                ∧ ((inner s0).1 = 200 ∨ (inner s0).1 = 500)
                ∧ (truthy_id did = false
                   ∨ (body_status request ≠ "joined"
                      ∧ body_status request ≠ "left") → inner = ret 200)
                ∧ (body_status request = "left" →
                   roblox_sessions (db st) !! default 0 (body_roblox_id request)
                   = None →
                   (inner s0).1 = 200 ∧ db (inner s0).2 = db st)).
      { unfold r, roblox_handler.
        rewrite bool_decide_eq_true_2 by done. cbn [negb].
        unfold bind at 1, sql_query at 1.
        cbn [fst snd db ticks sql_count trace]. fold did s0.
        set (inner := if truthy_id did then _ else _).
        exists inner. split; [done |].
        assert (Hleft : body_status request = "left" →
                  roblox_sessions (db st) !! default 0 (body_roblox_id request)
                  = None →
                  (inner s0).1 = 200 ∧ db (inner s0).2 = db st).
        { intros Hleft Hnone. unfold inner.
          destruct (truthy_id did); [| done].
          rewrite Hleft.
          change (String.eqb "left" "joined") with false.
          change (String.eqb "left" "left") with true. cbv iota.
          unfold bind, sql_query, s0. cbn [fst snd db ticks sql_count trace].
          rewrite Hnone.
          match goal with |- context [send_activity_embed env ?j ?m ?s] =>
            destruct (send_activity_embed_run env j m s) as (evs & -> & _) end.
          done. }
        split; [| split; [| exact Hleft]].
        - set (P := λ c : Z, c = 200 ∨ c = 500).
          change (P (inner s0).1).
          assert (H200 : P 200) by (by left).
          assert (H500 : P 500) by (by right).
          clearbody P. unfold inner. destruct (truthy_id did); [| done].
          destruct (String.eqb_spec (body_status request) "joined") as [Hj | Hj].
          + unfold bind, utcnow, sql_exec, s0.
            cbn [fst snd db ticks sql_count trace].
            match goal with |- context [send_activity_embed env ?j ?m ?s] =>
              destruct (send_activity_embed_run env j m s) as (evs & -> & _) end.
            done.
          + destruct (String.eqb_spec (body_status request) "left") as [Hl | Hl];
              [| done].
            unfold bind at 1, sql_query at 1, s0.
            cbn [fst snd db ticks sql_count trace].
            destruct (roblox_sessions (db st) !! default 0 (body_roblox_id request))
              as [t0 |] eqn:Hopen.
            * unfold bind, utcnow, sql_exec, sql_try, sql_query.
              cbn [fst snd db ticks sql_count trace].
              destruct (add_time _ _ _) as [d |];
                cbn [fst snd db ticks sql_count trace]; [| done].
              match goal with |- context [send_activity_embed env ?j ?m ?s] =>
                destruct (send_activity_embed_run env j m s) as (evs & -> & _)
              end.
              done.
            * unfold bind, sql_query. cbn [fst snd db ticks sql_count trace].
              match goal with |- context [send_activity_embed env ?j ?m ?s] =>
                destruct (send_activity_embed_run env j m s) as (evs & -> & _)
              end.
              done.
        - intros [Hnone | [Hnj Hnl]]; unfold inner.
          + by rewrite Hnone.
          + destruct (truthy_id did); [| done].
            destruct (String.eqb_spec (body_status request) "joined"); [done |].
            by destruct (String.eqb_spec (body_status request) "left"). }
      destruct Hrun as (inner & -> & Hstatus & Hquiet & Hleft).
      split.
      { split; [| done]. intros H401. destruct Hstatus; congruence. }
      split; [destruct Hstatus; auto |].
      intros _. split; [done |]. intros request' [= <-]. cbv zeta. split.
      * intros Hcase. by rewrite (Hquiet Hcase).
      * exact Hleft.
    + assert (Hrun : r = (500, st)).
      { unfold r, roblox_handler. by rewrite bool_decide_eq_true_2. }
      rewrite Hrun. cbn [fst snd].
      split; [done |]. split; [auto |]. intros _. split; [| done].
      by intros _ _.
  - assert (Hrun : r = (401, st)).
    { unfold r, roblox_handler. by rewrite bool_decide_eq_false_2. }
    rewrite Hrun. cbn [fst snd]. split; [done |]. split; [auto |]. done.
Qed.

Lemma webhook_ignored_requests_witness :
  let request := {| header_secret := Some "s3cret"; body_roblox_id := Some 99;
                    body_status := "joined" |} in
  let r := roblox_handler sample_env request (start sample_week) in
  r.1 = 200 ∧ db r.2 = sample_week
  ∧ (roblox_handler sample_env (Malformed (Some "s3cret"))
       (start sample_week)).1 = 500.
Proof.
  intros request r.
  pose proof (webhook_ignored_requests sample_env request (start sample_week))
    as (_ & _ & Hserved).
  destruct (Hserved eq_refl) as [_ Htyped].
  destruct (Htyped request eq_refl) as [Hquiet _].
  destruct Hquiet as (Hstatus & Hdb & _); [left; reflexivity |].
  split; [exact Hstatus |]. split; [exact Hdb |].
  pose proof (webhook_ignored_requests sample_env (Malformed (Some "s3cret"))
                (start sample_week)) as (_ & _ & Hserved').
  destruct (Hserved' eq_refl) as [Hbad _].
  by destruct (Hbad (Some "s3cret") eq_refl).
Defined.

(** ** Texts *)

(** X15.  In the window of the 5-day warning the time left is written
    without minutes: "4d 23h" below five days, "5d" in the first hour from
    five days on, and "5d 1h" at five days and one hour. *)
Theorem human_remaining_in_warning_window delta :
  days 4 + hours 23 ≤ delta ≤ days 5 + hours 1 →
  human_remaining delta
  = if delta <? days 5 then "4d 23h"
    else if delta <? days 5 + hours 1 then "5d" else "5d 1h".
Proof.
  unfold human_remaining, days, hours, seconds. intros [Hlo Hhi].
  destruct (Z.leb_spec delta 0) as [Hneg | _]; [lia |].
  cbv zeta.
  destruct (Z.ltb_spec delta (5 * 86400 * 1000000)) as [H5 | H5].
  - assert (Hd : delta `div` (1 * 86400 * 1000000) = 4)
      by (symmetry; apply Z.div_unique with (r := delta - 4 * 86400000000); lia).
    assert (Hh : ((delta `mod` (1 * 86400 * 1000000)) `div` (1 * 1000000))
                   `div` 3600 = 23).
    { rewrite Z.div_div by lia.
      assert (delta `mod` (1 * 86400 * 1000000) = delta - 4 * 86400000000)
        by (symmetry; apply Z.mod_unique with (q := 4); lia).
      symmetry. apply Z.div_unique
        with (r := delta `mod` (1 * 86400 * 1000000) - 23 * 3600000000); lia. }
    rewrite Hd, Hh. change (4 =? 0) with false. rewrite andb_false_r.
    reflexivity.
  - destruct (Z.ltb_spec delta (5 * 86400 * 1000000 + 1 * 3600 * 1000000))
      as [H1 | H1].
    + assert (Hd : delta `div` (1 * 86400 * 1000000) = 5)
        by (symmetry; apply Z.div_unique with (r := delta - 5 * 86400000000); lia).
      assert (Hh : ((delta `mod` (1 * 86400 * 1000000)) `div` (1 * 1000000))
                     `div` 3600 = 0).
      { rewrite Z.div_div by lia.
        assert (delta `mod` (1 * 86400 * 1000000) = delta - 5 * 86400000000)
          by (symmetry; apply Z.mod_unique with (q := 5); lia).
        apply Z.div_small. lia. }
      rewrite Hd, Hh. change (5 =? 0) with false. rewrite andb_false_r.
      reflexivity.
    + assert (delta = 5 * 86400 * 1000000 + 1 * 3600 * 1000000) as -> by lia.
      reflexivity.
Qed.

Lemma human_remaining_in_warning_window_witness :
  human_remaining (days 5 - seconds 1) = "4d 23h".
Proof.
  apply (human_remaining_in_warning_window (days 5 - seconds 1)).
  by vm_compute.
Defined.

Lemma rfind_from_spec c text size i j :
  rfind_from c text size i = Some j →
  (i ≤ j < i + size)%nat ∧ text !! (j - i)%nat = Some c.
Proof.
  revert text i. induction size as [| size IH]; intros text i;
    [by destruct text |].
  destruct text as [| x text]; [done |]. simpl.
  destruct (rfind_from c text size (S i)) as [k |] eqn:Hk.
  - intros [= <-]. destruct (IH _ _ Hk) as [Hb Hl]. split; [lia |].
    replace (k - i)%nat with (S (k - S i)) by lia. exact Hl.
  - destruct (N.eqb_spec x c) as [-> | _]; [| done].
    intros [= <-]. split; [lia |]. by rewrite Nat.sub_diag.
Qed.

Lemma rfind_bound c text size j :
  rfind c text size = Some j → (j < size)%nat ∧ text !! j = Some c.
Proof.
  intros H. apply rfind_from_spec in H as [Hb Hl].
  rewrite Nat.sub_0_r in Hl. split; [lia | done].
Qed.

Lemma lstrip_length text : (length (lstrip text) ≤ length text)%nat.
Proof.
  induction text as [| c text IH]; simpl; [done |].
  destruct (isspace c); simpl; lia.
Qed.

Lemma lstrip_space c text :
  isspace c = true → (length (lstrip (c :: text)) ≤ length text)%nat.
Proof. intros H. simpl. rewrite H. apply lstrip_length. Qed.

Lemma lstrip_sublist text : lstrip text `sublist_of` text.
Proof.
  induction text as [| c text IH]; simpl; [done |].
  destruct (isspace c); [by apply sublist_cons | done].
Qed.

Lemma lstrip_letters text :
  filter (λ c, isspace c = false) (lstrip text)
  = filter (λ c, isspace c = false) text.
Proof.
  induction text as [| c text IH]; simpl; [done |].
  destruct (isspace c) eqn:Hc; [| done].
  rewrite filter_cons, decide_False by congruence. done.
Qed.

(** One turn of the loop cuts below [size], and shortens the text when
    [size] is positive. *)
Lemma split_index_bound text size :
  (size < length text)%nat →
  let split_index :=
    match rfind 10 text size with
    | Some i => i
    | None => match rfind 32 text size with Some i => i | None => size end
    end in
  (split_index ≤ size)%nat
  ∧ ((0 < size)%nat →
     (length (lstrip (drop split_index text)) < length text)%nat).
Proof.
  intros Hlen. cbv zeta.
  assert (Hcut : ∀ c j, isspace c = true → rfind c text size = Some j →
            (j ≤ size)%nat
            ∧ (length (lstrip (drop j text)) < length text)%nat).
  { intros c j Hc Hj. apply rfind_bound in Hj as [Hb Hl]. split; [lia |].
    destruct (drop j text) as [| x rest] eqn:Hd.
    - simpl. lia.
    - assert (Hx : x = c).
      { pose proof (lookup_drop text j 0) as H0. rewrite Hd in H0. simpl in H0.
        rewrite Nat.add_0_r, Hl in H0. congruence. }
      subst x. pose proof (lstrip_space c rest Hc) as Hs.
      pose proof (f_equal length Hd) as Hdl. rewrite length_drop in Hdl.
      simpl in Hdl. lia. }
  destruct (rfind 10 text size) as [i |] eqn:Hn.
  { destruct (Hcut 10%N i eq_refl Hn). by split. }
  destruct (rfind 32 text size) as [i |] eqn:Hs.
  { destruct (Hcut 32%N i eq_refl Hs). by split. }
  split; [done |]. intros Hpos.
  pose proof (lstrip_length (drop size text)) as Hl.
  rewrite length_drop in Hl. lia.
Qed.

Lemma smart_chunk_loop_run fuel size text chunks :
  (0 < size)%nat → (length text ≤ fuel)%nat →
  ∃ new,
    smart_chunk_loop fuel size text chunks = Some (chunks ++ new)
    ∧ new ≠ []
    ∧ Forall (λ c, (length c ≤ size)%nat) new
    ∧ concat new `sublist_of` text
    ∧ filter (λ c, isspace c = false) (concat new)
      = filter (λ c, isspace c = false) text
    ∧ ((length text ≤ size)%nat → new = [text]).
Proof.
  intros Hpos. revert text chunks.
  induction fuel as [| fuel IH]; intros text chunks Hfuel.
  - assert (text = []) as -> by (destruct text; [done | simpl in Hfuel; lia]).
    exists [[]]. simpl. destruct size; [lia |]. simpl.
    split; [done |]. split; [done |].
    split; [constructor; [simpl; lia | constructor] |].
    by repeat split.
  - cbn [smart_chunk_loop].
    destruct (Nat.ltb_spec size (length text)) as [Hlong | Hshort].
    + pose proof (split_index_bound text size Hlong) as Hsplit.
      cbv zeta in Hsplit.
      set (split_index := match rfind 10 text size with
                          | Some i => i
                          | None => match rfind 32 text size with
                                    | Some i => i | None => size end
                          end) in *.
      destruct Hsplit as [Hle Hshrink]. specialize (Hshrink Hpos).
      destruct (IH (lstrip (drop split_index text))
                  (chunks ++ [take split_index text]) ltac:(lia))
        as (new & Hrun & Hne & Hall & Hsub & Hfil & _).
      exists (take split_index text :: new).
      rewrite Hrun, <- app_assoc. split; [done |]. split; [done |].
      split.
      { constructor; [rewrite length_take; lia | done]. }
      split.
      { simpl. rewrite <- (take_drop split_index text) at 2.
        apply sublist_app; [done |].
        etrans; [exact Hsub | apply lstrip_sublist]. }
      split.
      { simpl. rewrite filter_app, Hfil, lstrip_letters, <- filter_app.
        by rewrite take_drop. }
      intros Hshort. lia.
    + exists [text]. split; [done |]. split; [done |].
      split; [constructor; [done | constructor] |]. simpl. rewrite app_nil_r.
      by repeat split.
Qed.

(** X16.  For a positive [size], [smart_chunk] returns after at most
    [len (text)] turns of its loop with at least one chunk; no chunk is longer
    than [size]; the chunks, put together, are the text with some white space
    taken out and nothing else changed; and a text that fits is returned
    whole. *)
Theorem smart_chunk_bounded fuel text size :
  (0 < size)%nat → (length text ≤ fuel)%nat →
  ∃ chunks,
    smart_chunk fuel text size = Some chunks
    ∧ chunks ≠ []
    ∧ Forall (λ c, (length c ≤ size)%nat) chunks
    ∧ concat chunks `sublist_of` text
    ∧ filter (λ c, isspace c = false) (concat chunks)
      = filter (λ c, isspace c = false) text
    ∧ ((length text ≤ size)%nat → chunks = [text]).
Proof.
  intros Hpos Hfuel. unfold smart_chunk.
  destruct (smart_chunk_loop_run fuel size text [] Hpos Hfuel)
    as (new & Hrun & Hrest).
  exists new. by split.
Qed.

Lemma smart_chunk_bounded_witness :
  ∃ chunks,
    smart_chunk 9 [104; 105; 32; 116; 104; 101; 114; 101; 33]%N 4 = Some chunks
    ∧ Forall (λ c, (length c ≤ 4)%nat) chunks.
Proof.
  destruct (smart_chunk_bounded 9 [104; 105; 32; 116; 104; 101; 114; 101; 33]%N
              4 ltac:(lia) ltac:(simpl; lia))
    as (chunks & Hrun & _ & Hall & _).
  exists chunks. by split.
Defined.

(** The chunks of "hi there!" for size 4: the space at the cut is dropped. *)
Example smart_chunk_hi_there :
  smart_chunk 9 [104; 105; 32; 116; 104; 101; 114; 101; 33]%N 4
  = Some [[104; 105]; [116; 104; 101; 114]; [101; 33]]%N.
Proof. reflexivity. Qed.

(** With [size = 0] the loop does not end on a text that does not start
    with white space. *)
Lemma smart_chunk_size_zero fuel c text :
  isspace c = false → smart_chunk fuel (c :: text) 0 = None.
Proof.
  intros Hc. unfold smart_chunk. generalize (@nil (list N)).
  induction fuel as [| fuel IH]; intros chunks; [done |].
  cbn [smart_chunk_loop length Nat.ltb Nat.leb]. 
  change (rfind 10 (c :: text) 0) with (@None nat).
  change (rfind 32 (c :: text) 0) with (@None nat).
  cbn [drop lstrip]. rewrite Hc. apply IH.
Qed.

Lemma lstrip_char_head c s : head (lstrip_char c s) ≠ Some c.
Proof.
  induction s as [| x s IH]; simpl; [done |].
  destruct (N.eqb_spec x c) as [-> | Hne]; [done |]. simpl. congruence.
Qed.

Lemma lstrip_char_app c a b :
  c ∉ b → ∃ x, lstrip_char c (a ++ b) = x ++ b.
Proof.
  intros Hb. induction a as [| y a IH]; simpl.
  - exists []. destruct b as [| y b]; [done |]. simpl.
    destruct (N.eqb_spec y c) as [-> | _]; [| done].
    exfalso. apply Hb. by left.
  - destruct (N.eqb_spec y c) as [-> | _]; [done |]. by exists (y :: a).
Qed.

Lemma lstrip_char_id c s : head s ≠ Some c → lstrip_char c s = s.
Proof.
  destruct s as [| x s]; simpl; [done |]. intros Hx.
  destruct (N.eqb_spec x c) as [-> | _]; done.
Qed.

Lemma rstrip_char_last c s : last (rstrip_char c s) ≠ Some c.
Proof.
  unfold rstrip_char. rewrite last_reverse. apply lstrip_char_head.
Qed.

Lemma rstrip_char_prefix c p s :
  c ∉ p → p `prefix_of` rstrip_char c (p ++ s).
Proof.
  intros Hp. unfold rstrip_char. rewrite reverse_app.
  destruct (lstrip_char_app c (reverse s) (reverse p)) as [x Hx].
  { by rewrite elem_of_reverse. }
  rewrite Hx, reverse_app, reverse_involutive. by eexists.
Qed.

Lemma rstrip_char_id c s : last s ≠ Some c → rstrip_char c s = s.
Proof.
  intros Hl. unfold rstrip_char.
  rewrite lstrip_char_id; [apply reverse_involutive |].
  by rewrite head_reverse.
Qed.

Lemma lstrip_id s : (∀ c, head s = Some c → isspace c = false) → lstrip s = s.
Proof.
  destruct s as [| x s]; simpl; [done |]. intros Hx.
  by rewrite (Hx x eq_refl).
Qed.

Lemma slash_not_in_http : 47%N ∉ [104; 116; 116; 112]%N.
Proof.
  intros H. repeat (apply elem_of_cons in H as [H | H]; [done |]).
  by apply elem_of_nil in H.
Qed.

(** X17.  [_normalize_base] gives no base for a missing or empty setting;
    otherwise the base it gives starts with "http" and never ends with a
    slash, and a setting that already carries a scheme, has no white space
    around it and no slash at its end is returned as it is. *)
Theorem normalize_base_shape url :
  (_normalize_base url = None ↔ url = None ∨ url = Some [])
  ∧ (∀ base, _normalize_base url = Some base →
       [104; 116; 116; 112]%N `prefix_of` base ∧ last base ≠ Some 47%N)
  ∧ (∀ u, url = Some u →
       startswith http_scheme u || startswith https_scheme u = true →
       (∀ c, head u = Some c ∨ last u = Some c → isspace c = false) →
       last u ≠ Some 47%N →
       _normalize_base url = Some u).
Proof.
  split; [| split].
  - destruct url as [[| c u] |]; simpl.
    + split; [by right | done].
    + split; [| by intros [|]]. by destruct (_ || _).
    + split; [by left | done].
  - intros base. destruct url as [[| c u] |]; [done | | done].
    unfold _normalize_base. cbv zeta.
    set (s := strip (c :: u)).
    destruct (startswith http_scheme s || startswith https_scheme s) eqn:Hs.
    + intros [= <-]. split; [| apply rstrip_char_last].
      assert (Hp : [104; 116; 116; 112]%N `prefix_of` s).
      { apply orb_true_iff in Hs as [Hs | Hs];
          apply bool_decide_eq_true in Hs as [rest ->].
        - by exists ([58; 47; 47]%N ++ rest).
        - by exists ([115; 58; 47; 47]%N ++ rest). }
      destruct Hp as [rest ->].
      apply rstrip_char_prefix, slash_not_in_http.
    + intros [= <-]. split; [| apply rstrip_char_last].
      apply (rstrip_char_prefix 47 [104; 116; 116; 112]%N
               ([115; 58; 47; 47]%N ++ s)), slash_not_in_http.
  - intros u -> Hs Hspace Hslash.
    assert (Hstrip : strip u = u).
    { unfold strip. rewrite (lstrip_id u) by (intros c Hc; apply Hspace; by left).
      rewrite lstrip_id; [apply reverse_involutive |].
      intros c Hc. rewrite head_reverse in Hc. apply Hspace. by right. }
    destruct u as [| c u].
    { apply orb_true_iff in Hs as [Hs | Hs];
        apply bool_decide_eq_true in Hs as [rest Hrest]; done. }
    unfold _normalize_base. cbv zeta. rewrite Hstrip, Hs.
    by rewrite rstrip_char_id.
Qed.

Lemma normalize_base_shape_witness :
  _normalize_base (Some [32; 97; 46; 105; 111; 47; 47]%N)
  = Some [104; 116; 116; 112; 115; 58; 47; 47; 97; 46; 105; 111]%N
  ∧ last [104; 116; 116; 112; 115; 58; 47; 47; 97; 46; 105; 111]%N ≠ Some 47%N.
Proof.
  assert (Hrun : _normalize_base (Some [32; 97; 46; 105; 111; 47; 47]%N)
                 = Some [104; 116; 116; 112; 115; 58; 47; 47; 97; 46; 105; 111]%N)
    by reflexivity.
  split; [exact Hrun |].
  destruct (normalize_base_shape (Some [32; 97; 46; 105; 111; 47; 47]%N))
    as (_ & Hshape & _).
  by destruct (Hshape _ Hrun).
Defined.

(** ** Account links *)

Lemma taken_by_other_spec user rid d :
  taken_by_other user rid d = true
  ↔ ∃ j, j ≠ user ∧ roblox_verification d !! j = Some rid.
Proof.
  unfold taken_by_other. rewrite existsb_exists. split.
  - intros ([j r] & Hin & Hc). simpl in Hc.
    apply andb_true_iff in Hc as [Hj Hr].
    apply Z.eqb_eq in Hr as ->. apply negb_true_iff, Z.eqb_neq in Hj.
    apply list_elem_of_In, elem_of_map_to_list in Hin. by exists j.
  - intros (j & Hj & Hl). exists (j, rid). split.
    + by apply list_elem_of_In, elem_of_map_to_list.
    + simpl. rewrite Z.eqb_refl, andb_true_r.
      by apply negb_true_iff, Z.eqb_neq.
Qed.

(** X18.  [/verify] keeps the account links one-to-one.  When it answers
    that the caller is verified, the lookup had found the account, the
    caller's link now points to it and replaces any earlier one, no other link
    changed, and the session webhook resolves the account to the caller.  In
    every other case the store is as before.  When the lookup fails or finds
    nobody, nothing is logged.  When the database refuses the account because
    another member holds it, the error handler of the commands logs the
    failure, and nothing else is posted. *)
Theorem verify_links_one_to_one env user resp st :
  links_unique (db st) →
  let r := verify env user resp st in
  links_unique (db r.2)
  ∧ (∀ name, r.1 = Verified name →
       ∃ rid, resp_status resp = 200 ∧ resp_data resp = Some (rid, name)
              ∧ roblox_verification (db r.2)
                = <[user := rid]> (roblox_verification (db st))
              ∧ discord_of_roblox (Some rid) (db r.2) = Some user)
  ∧ ((∀ name, r.1 ≠ Verified name) → db r.2 = db st)
  ∧ (r.1 = UserNotFound ∨ r.1 = LookupFailed → trace r.2 = trace st)
  ∧ (r.1 = UniqueViolation →
     new_events st r.2
     = if command_log_channel env then [EvLog "Slash Command Error" None]
       else [])
  ∧ (r.1 = UniqueViolation
     ↔ resp_status resp = 200
       ∧ ∃ rid name j, resp_data resp = Some (rid, name) ∧ j ≠ user
                       ∧ roblox_verification (db st) !! j = Some rid).
Proof.
  intros Huniq r.
  destruct (Z.eqb_spec (resp_status resp) 200) as [Hst | Hst].
  2: { assert (Hrun : r = (LookupFailed, st)).
       { unfold r, verify. by destruct (Z.eqb_spec (resp_status resp) 200). }
       rewrite Hrun. cbn [fst snd].
       split; [done |]. split; [done |]. split; [done |]. split; [done |].
       split; [done |]. split; [done | by intros [? _]]. }
  destruct (resp_data resp) as [[rid name] |] eqn:Hdata.
  2: { assert (Hrun : r = (UserNotFound, st)).
       { unfold r, verify. rewrite Hdata.
         by destruct (Z.eqb_spec (resp_status resp) 200). }
       rewrite Hrun. cbn [fst snd].
       split; [done |]. split; [done |]. split; [done |]. split; [done |].
       split; [done |]. split; [done | by intros (_ & ? & ? & ? & ? & _)]. }
  destruct (taken_by_other user rid (db st)) eqn:Htaken.
  - assert (Hrun : r = (UniqueViolation,
                        {| db := db st; ticks := ticks st;
                           sql_count := S (sql_count st);
                           trace := trace st
                                    ++ (if command_log_channel env
                                        then [EvLog "Slash Command Error" None]
                                        else []) |})).
    { unfold r, verify. rewrite Hdata.
      destruct (Z.eqb_spec (resp_status resp) 200); [| done].
      unfold bind, sql_try, upsert_verification, global_app_command_error,
        log_action, emit, ret. rewrite Htaken.
      destruct (command_log_channel env); [done |]. by rewrite app_nil_r. }
    rewrite Hrun. cbn [fst snd db trace].
    split; [done |]. split; [done |]. split; [done |]. split; [by intros [|] |].
    split; [intros _; by apply new_events_app |].
    split; [| done]. intros _. split; [done |].
    apply taken_by_other_spec in Htaken as (j & Hj & Hl). by exists rid, name, j.
  - set (d' := {| weekly_tasks := weekly_tasks (db st);
                  weekly_task_logs := weekly_task_logs (db st);
                  roblox_verification := <[user := rid]>
                                           (roblox_verification (db st));
                  roblox_time := roblox_time (db st);
                  roblox_sessions := roblox_sessions (db st);
                  orientations := orientations (db st);
                  strikes := strikes (db st);
                  strikes_seq := strikes_seq (db st);
                  activity_excuses := activity_excuses (db st) |}).
    assert (Hrun : ∃ evs, r = (Verified name,
                               {| db := d'; ticks := ticks st;
                                  sql_count := S (sql_count st);
                                  trace := trace st ++ evs |})).
    { unfold r, verify. rewrite Hdata.
      destruct (Z.eqb_spec (resp_status resp) 200); [| done].
      unfold bind, sql_try, upsert_verification, log_action, emit, ret.
      rewrite Htaken. fold d'.
      destruct (command_log_channel env); [by eexists |].
      exists []. by rewrite app_nil_r. }
    destruct Hrun as [evs Hrun]. rewrite Hrun. cbn [fst snd db trace].
    assert (Huniq' : links_unique d').
    { intros i j r0. unfold d'. cbn [roblox_verification].
      destruct (decide (i = user)) as [-> | Hi];
        destruct (decide (j = user)) as [-> | Hj]; [done | | |].
      - rewrite lookup_insert_eq, lookup_insert_ne by done. intros [= <-] Hl.
        exfalso. apply not_true_iff_false in Htaken. apply Htaken.
        apply taken_by_other_spec. by exists j.
      - rewrite lookup_insert_eq, lookup_insert_ne by done. intros Hl [= <-].
        exfalso. apply not_true_iff_false in Htaken. apply Htaken.
        apply taken_by_other_spec. by exists i.
      - rewrite !lookup_insert_ne by done. apply Huniq. }
    split; [done |]. split.
    + intros name' [= <-]. exists rid. split; [done |]. split; [done |].
      split; [done |].
      apply discord_of_roblox_linked.
      * unfold d'. cbn [roblox_verification]. by rewrite lookup_insert_eq.
      * intros j Hj. apply (Huniq' j user rid Hj).
        unfold d'. cbn [roblox_verification]. by rewrite lookup_insert_eq.
    + split; [intros Hnot; by destruct (Hnot name) |].
      split; [by intros [|] |]. split; [done |].
      split; [done |]. intros (_ & rid' & name' & j & [= <- <-] & Hj & Hl).
      apply not_true_iff_false in Htaken. exfalso. apply Htaken.
      apply taken_by_other_spec. by exists j.
Qed.

Lemma verify_links_one_to_one_witness :
  let r := verify sample_env 2 {| resp_status := 200;
                                  resp_data := Some (77, "alice_rbx") |}
             (start sample_week) in
  links_unique sample_week ∧ r.1 = UniqueViolation ∧ db r.2 = sample_week
  ∧ new_events (start sample_week) r.2 = [EvLog "Slash Command Error" None].
Proof.
  intros r.
  assert (Huniq : links_unique (db (start sample_week))).
  { intros i j r0 Hi Hj. cbn in Hi, Hj.
    apply lookup_singleton_Some in Hi as [<- _].
    by apply lookup_singleton_Some in Hj as [<- _]. }
  pose proof (verify_links_one_to_one sample_env 2
                {| resp_status := 200; resp_data := Some (77, "alice_rbx") |}
                (start sample_week) Huniq) as H.
  cbv zeta in H. destruct H as (_ & _ & Hquiet & _ & Hlogged & Hrefused).
  assert (Hr : r.1 = UniqueViolation).
  { apply Hrefused. split; [done |]. by exists 77, "alice_rbx", 1. }
  split; [exact Huniq |]. split; [exact Hr |]. split.
  - apply Hquiet. intros name. fold r. by rewrite Hr.
  - exact (Hlogged Hr).
Defined.

(** ** Task logs *)

Ltac run_task :=
  unfold Tasks.on_submit, Tasks.addtask, Tasks.removelastlog, Tasks.viewtest,
    Tasks.send_long_embed, Tasks.log_action, mbind, Tasks.T_bind, mret,
    Tasks.T_ret, Tasks.query, Tasks.execute, Tasks.utcnow, Tasks.send;
  cbn [fst snd Tasks.db Tasks.ticks Tasks.trace negb].

Lemma on_submit_db env m ty proof comments_value st :
  let seq_no := if Tasks.in_test_types ty
                then Some (Tasks.count_of_type m ty (Tasks.db st) + 1)
                else None in
  ∃ c t1 t2,
    Tasks.db (Tasks.on_submit env true m ty proof comments_value st).2
    = Tasks.add_weekly_tasks m 1
        (Tasks.insert_weekly_task_log m ty (Some proof) c t2 seq_no
           (Tasks.insert_task_log m ty (Some proof) c t1 seq_no (Tasks.db st))).
Proof.
  intros seq_no. unfold seq_no. run_task.
  destruct (Tasks.in_test_types ty); cbn [fst snd Tasks.db];
    destruct (command_log_channel env); cbn [fst snd Tasks.db];
    by eexists _, _, _.
Qed.

Lemma addtask_db env m ty count comments_ proof st :
  let start_n := if Tasks.in_test_types ty
                 then Some (Tasks.count_of_type m ty (Tasks.db st) + 1)
                 else None in
  let numbers := Tasks.batch_numbers start_n count in
  ∃ c t,
    Tasks.db (Tasks.addtask env m ty count comments_ proof st).2
    = Tasks.add_weekly_tasks m count
        (Tasks.insert_weekly_task_logs m ty proof c t numbers
           (Tasks.insert_task_logs m ty proof c t numbers (Tasks.db st))).
Proof.
  intros start_n numbers. unfold numbers, start_n. run_task.
  destruct (Tasks.in_test_types ty); cbn [fst snd Tasks.db];
    destruct (command_log_channel env); cbn [fst snd Tasks.db];
    by eexists _, _.
Qed.

Lemma removelastlog_db env latest m st :
  let rows := filter (λ r, Tasks.member_id r = m)
                (Tasks.weekly_task_logs (Tasks.db st)) in
  let r := Tasks.removelastlog env latest m st in
  match latest rows with
  | None => r = (Tasks.NoWeeklyTasks, st)
  | Some l =>
      let d' := Tasks.decrement_weekly_tasks m
                  (Tasks.delete_weekly_log (Tasks.log_id l) (Tasks.db st)) in
      r.1 = Tasks.RemovedLast l (Tasks.weekly_tasks d' !! m)
      ∧ Tasks.db r.2 = d'
  end.
Proof.
  intros rows r. unfold r, rows. run_task.
  destruct (latest _) as [l |]; [| done].
  cbn [fst snd Tasks.db]. by destruct (command_log_channel env).
Qed.

(** *** Sequence numbers *)

Lemma numbered_same_logs d d' :
  Tasks.task_logs d' = Tasks.task_logs d → Tasks.numbered d → Tasks.numbered d'.
Proof. intros Heq Hn m ty Hty. rewrite Heq. by apply Hn. Qed.

Lemma of_type_new_row key m ty p c t s :
  Tasks.of_type m ty (Tasks.new_row key m ty p c t s) = true.
Proof.
  unfold Tasks.of_type. cbn. by rewrite Z.eqb_refl, String.eqb_refl.
Qed.

Lemma of_type_inv m ty r :
  Tasks.of_type m ty r = true → Tasks.member_id r = m ∧ Tasks.task_type r = ty.
Proof.
  unfold Tasks.of_type. intros H. apply andb_true_iff in H as [Hm Ht].
  split; [by apply Z.eqb_eq | by apply String.eqb_eq].
Qed.

Lemma count_insert_task_log m ty p c t s d :
  Tasks.count_of_type m ty (Tasks.insert_task_log m ty p c t s d)
  = Tasks.count_of_type m ty d + 1.
Proof.
  unfold Tasks.count_of_type. cbn [Tasks.task_logs Tasks.insert_task_log].
  rewrite filter_app, length_app, filter_cons, decide_True
    by (by rewrite of_type_new_row).
  simpl. lia.
Qed.

Lemma numbered_insert_task_log m ty p c t s d :
  Tasks.numbered d →
  (Tasks.in_test_types ty = true → s = Some (Tasks.count_of_type m ty d + 1)) →
  Tasks.numbered (Tasks.insert_task_log m ty p c t s d).
Proof.
  intros Hn Hs m' ty' Hty'. cbn [Tasks.task_logs Tasks.insert_task_log].
  rewrite filter_app, filter_cons.
  destruct (decide (Tasks.of_type m' ty' _ = true)) as [Hof | Hnot].
  - apply of_type_inv in Hof as [Hm Ht].
    cbn in Hm, Ht. subst m' ty'. specialize (Hs Hty'). subst s.
    rewrite filter_nil, fmap_app, length_app. cbn [length].
    rewrite Nat.add_1_r, seq_S, fmap_app, <- (Hn m ty Hty'). f_equal.
    cbn. unfold Tasks.count_of_type. do 2 f_equal. lia.
  - rewrite filter_nil, app_nil_r. by apply Hn.
Qed.

Lemma insert_task_logs_app m ty p c t l1 l2 d :
  Tasks.insert_task_logs m ty p c t (l1 ++ l2) d
  = Tasks.insert_task_logs m ty p c t l2
      (Tasks.insert_task_logs m ty p c t l1 d).
Proof. unfold Tasks.insert_task_logs. apply foldl_app. Qed.

Lemma numbered_batch m ty p c t count d :
  Tasks.numbered d →
  let start_n := if Tasks.in_test_types ty
                 then Some (Tasks.count_of_type m ty d + 1) else None in
  Tasks.numbered
    (Tasks.insert_task_logs m ty p c t (Tasks.batch_numbers start_n count) d).
Proof.
  intros Hn start_n. unfold start_n, Tasks.batch_numbers.
  destruct (Tasks.in_test_types ty) eqn:Hty.
  - generalize (Z.to_nat count). intros n.
    assert (Hgen : Tasks.numbered
                     (Tasks.insert_task_logs m ty p c t
                        ((λ i, Some (Tasks.count_of_type m ty d + 1
                                     + Z.of_nat i)) <$> seq 0 n) d)
                   ∧ Tasks.count_of_type m ty
                       (Tasks.insert_task_logs m ty p c t
                          ((λ i, Some (Tasks.count_of_type m ty d + 1
                                       + Z.of_nat i)) <$> seq 0 n) d)
                     = Tasks.count_of_type m ty d + Z.of_nat n).
    { induction n as [| n [IHn IHc]].
      - simpl. split; [done | lia].
      - rewrite seq_S, fmap_app, insert_task_logs_app. cbn [fmap list_fmap].
        unfold Tasks.insert_task_logs at 1 3. cbn [foldl]. split.
        + apply numbered_insert_task_log; [done |]. intros _. rewrite IHc.
          f_equal. cbn. lia.
        + rewrite count_insert_task_log, IHc. lia. }
    apply Hgen.
  - generalize (Z.to_nat count). intros n. revert d Hn.
    induction n as [| n IH]; intros d Hn; [done |].
    cbn [replicate]. unfold Tasks.insert_task_logs. cbn [foldl].
    apply IH. apply numbered_insert_task_log; [done | congruence].
Qed.

Lemma insert_task_logs_grows m ty p c t l d :
  Tasks.task_logs d
  `prefix_of` Tasks.task_logs (Tasks.insert_task_logs m ty p c t l d).
Proof.
  revert d. induction l as [| n l IH]; intros d; [done |].
  unfold Tasks.insert_task_logs. cbn [foldl].
  etrans; [| apply IH]. cbn. by apply prefix_app_r.
Qed.

Lemma insert_weekly_task_logs_keeps m ty p c t l d :
  Tasks.task_logs (Tasks.insert_weekly_task_logs m ty p c t l d)
  = Tasks.task_logs d.
Proof.
  revert d. induction l as [| n l IH]; intros d; [done |].
  unfold Tasks.insert_weekly_task_logs. cbn [foldl].
  etrans; [apply IH | done].
Qed.

Lemma run_numbered c st :
  Tasks.numbered (Tasks.db st) →
  Tasks.numbered (Tasks.db (Tasks.run c st))
  ∧ Tasks.task_logs (Tasks.db st)
    `prefix_of` Tasks.task_logs (Tasks.db (Tasks.run c st)).
Proof.
  intros Hn.
  destruct c as [env [|] m ty proof cv | env m ty count cm proof
                | env latest m |]; cbn [Tasks.run].
  - destruct (on_submit_db env m ty proof cv st) as (c & t1 & t2 & ->).
    split.
    + eapply numbered_same_logs; [done |].
      apply numbered_insert_task_log; [done |].
      intros Hty. by rewrite Hty.
    + cbn. by apply prefix_app_r.
  - by split.
  - destruct (addtask_db env m ty count cm proof st) as (c & t & ->).
    split.
    + eapply numbered_same_logs;
        [cbn [Tasks.task_logs Tasks.add_weekly_tasks];
         apply insert_weekly_task_logs_keeps |].
      by apply numbered_batch.
    + cbn [Tasks.task_logs Tasks.add_weekly_tasks].
      rewrite insert_weekly_task_logs_keeps. apply insert_task_logs_grows.
  - pose proof (removelastlog_db env latest m st) as Hr. cbv zeta in Hr.
    destruct (latest _) as [l |].
    + destruct Hr as [_ ->]. by split.
    + rewrite Hr. by split.
  - by split.
Qed.

(** X19.  The permanent task log only grows, and its numbering stays
    consecutive: if the logs of every member in every numbered type carry 1,
    2, 3, ... in the order of insertion, they still do after any sequence of
    form submissions, management batches, removals of the last weekly log and
    weekly resets.  A removal frees no number. *)
Theorem test_numbers_stay_consecutive cmds st :
  Tasks.numbered (Tasks.db st) →
  let st' := Tasks.run_all cmds st in
  Tasks.numbered (Tasks.db st')
  ∧ Tasks.task_logs (Tasks.db st) `prefix_of` Tasks.task_logs (Tasks.db st').
Proof.
  revert st. induction cmds as [| c cmds IH]; intros st Hn; cbn [Tasks.run_all].
  - by split.
  - destruct (run_numbered c st Hn) as [Hn1 Hp1].
    destruct (IH _ Hn1) as [Hn2 Hp2]. split; [done | by etrans].
Qed.

Lemma test_numbers_stay_consecutive_witness :
  let st' := Tasks.run_all
               [Tasks.Submit sample_env true 1 "Cross-Testing" "url" "";
                Tasks.RemoveLast sample_env Tasks.first_latest 1;
                Tasks.AddTask sample_env 1 "Cross-Testing" 2 None None]
               (Tasks.start Tasks.empty_tables) in
  Tasks.numbered (Tasks.db st')
  ∧ Tasks.sequence_no <$> Tasks.task_logs (Tasks.db st')
    = [Some 1; Some 2; Some 3].
Proof.
  intros st'. split; [| reflexivity].
  apply test_numbers_stay_consecutive. by intros m ty _.
Defined.

Lemma find_filter {A} (g f : A → bool) (l : list A) :
  find (λ x, g x && f x) l = find f (filter (λ x, g x = true) l).
Proof.
  induction l as [| x l IH]; [done |]. rewrite filter_cons. cbn [find].
  destruct (decide (g x = true)) as [Hx | Hx].
  - rewrite Hx. cbn [andb find]. by destruct (f x).
  - apply not_true_is_false in Hx. rewrite Hx. exact IH.
Qed.

(** In a list numbered from [s] on, the row with number [k] is at place
    [k - s]. *)
Lemma find_numbered (l : list Tasks.TaskLog) (s : nat) (k : Z) :
  Tasks.sequence_no <$> l = (λ i, Some (Z.of_nat i)) <$> seq s (length l) →
  find (Tasks.is_numbered k) l
  = if (Z.of_nat s <=? k) && (k <? Z.of_nat (s + length l))
    then l !! (Z.to_nat k - s)%nat else None.
Proof.
  revert s. induction l as [| r l IH]; intros s Hl.
  - simpl. rewrite Nat.add_0_r.
    destruct (Z.leb_spec (Z.of_nat s) k), (Z.ltb_spec k (Z.of_nat s)); simpl;
      try done; lia.
  - simpl in Hl.
    injection Hl as Hr Hl.
    cbn [find]. unfold Tasks.is_numbered at 1. rewrite Hr.
    destruct (Z.eqb_spec (Z.of_nat s) k) as [<- | Hne].
    + destruct (Z.leb_spec (Z.of_nat s) (Z.of_nat s)); [| lia].
      destruct (Z.ltb_spec (Z.of_nat s) (Z.of_nat (s + length (r :: l))));
        [| cbn [length] in *; lia].
      cbn [andb]. rewrite Nat2Z.id, Nat.sub_diag. done.
    + rewrite (IH (S s) Hl). cbn [length].
      replace (S s + length l)%nat with (s + S (length l))%nat by lia.
      destruct (Z.leb_spec (Z.of_nat (S s)) k), (Z.leb_spec (Z.of_nat s) k);
        try lia; cbn [andb]; [| done].
      destruct (Z.ltb_spec k (Z.of_nat (s + S (length l)))); [| done].
      replace (Z.to_nat k - s)%nat with (S (Z.to_nat k - S s)) by lia. done.
Qed.

Lemma omap_numbered (l : list Tasks.TaskLog) (s : nat) :
  Tasks.sequence_no <$> l = (λ i, Some (Z.of_nat i)) <$> seq s (length l) →
  omap Tasks.sequence_no l = (λ i, Z.of_nat i) <$> seq s (length l).
Proof.
  revert s. induction l as [| r l IH]; intros s Hl; [done |].
  simpl in Hl. injection Hl as Hr Hl.
  cbn [omap list_omap length seq fmap list_fmap]. rewrite Hr.
  by rewrite (IH (S s) Hl).
Qed.

Lemma foldl_max_seq (s k : nat) :
  foldl Z.max (Z.of_nat s) ((λ i, Z.of_nat i) <$> seq (S s) k)
  = Z.of_nat (s + k).
Proof.
  revert s. induction k as [| k IH]; intros s; cbn [seq fmap list_fmap foldl].
  - by rewrite Nat.add_0_r.
  - replace (Z.max (Z.of_nat s) (Z.of_nat (S s))) with (Z.of_nat (S s)) by lia.
    rewrite IH. f_equal. lia.
Qed.

(** X20.  Over a numbered log, [/viewtest] with number [k] shows the
    [k]-th log the member has in that type, which carries the number [k];
    for a number that is too large, or below 1, it answers that the member
    has no such logs when there is none, and otherwise names the number of
    logs there are. *)
Theorem viewtest_shows_kth env target test_type number st :
  Tasks.numbered (Tasks.db st) →
  Tasks.in_test_types test_type = true →
  let logs := filter (λ r, Tasks.of_type target test_type r = true)
                (Tasks.task_logs (Tasks.db st)) in
  let reply := (Tasks.viewtest env target test_type number st).1 in
  (∀ r, 1 ≤ number → logs !! (Z.to_nat number - 1)%nat = Some r →
        reply = Tasks.TestFound r ∧ Tasks.sequence_no r = Some number)
  ∧ (number < 1 ∨ Z.of_nat (length logs) < number →
     reply = if decide (logs = []) then Tasks.NoTestLogs
             else Tasks.NumberMissing (Z.of_nat (length logs)))
  ∧ Tasks.db (Tasks.viewtest env target test_type number st).2 = Tasks.db st.
Proof.
  intros Hn Hty logs reply.
  pose proof (Hn target test_type Hty) as Hseq. fold logs in Hseq.
  assert (Hfind : find (λ r, Tasks.of_type target test_type r
                             && Tasks.is_numbered number r)
                    (Tasks.task_logs (Tasks.db st))
                  = if (1 <=? number) && (number <? Z.of_nat (1 + length logs))
                    then logs !! (Z.to_nat number - 1)%nat else None).
  { rewrite find_filter. fold logs. by rewrite (find_numbered logs 1 number Hseq). }
  assert (Hmax : Tasks.max_sequence_no target test_type (Tasks.db st)
                 = Z.of_nat (length logs)).
  { unfold Tasks.max_sequence_no. fold logs.
    rewrite (omap_numbered logs 1 Hseq).
    destruct (length logs) as [| n]; [done |].
    cbn [seq fmap list_fmap]. by rewrite foldl_max_seq. }
  split; [| split].
  - intros r Hpos Hr. unfold reply. run_task. rewrite Hfind.
    assert (Hlt : (Z.to_nat number - 1 < length logs)%nat)
      by (by apply lookup_lt_Some in Hr).
    destruct (Z.leb_spec 1 number); [| lia].
    destruct (Z.ltb_spec number (Z.of_nat (1 + length logs))); [| lia].
    cbn [andb]. rewrite Hr. cbn [fst]. split; [done |].
    apply (f_equal (λ l, l !! (Z.to_nat number - 1)%nat)) in Hseq.
    rewrite !list_lookup_fmap, Hr, lookup_seq_lt in Hseq by done.
    cbn in Hseq. injection Hseq as ->. f_equal. lia.
  - intros Hout. unfold reply. run_task. rewrite Hfind.
    assert (Hnone : (1 <=? number) && (number <? Z.of_nat (1 + length logs))
                    = false).
    { destruct (Z.leb_spec 1 number); [| done].
      destruct (Z.ltb_spec number (Z.of_nat (1 + length logs))); [lia | done]. }
    rewrite Hnone. cbn [fst snd]. rewrite Hmax.
    destruct (decide (logs = [])) as [-> | Hne]; [done |].
    destruct (Z.eqb_spec (Z.of_nat (length logs)) 0) as [H0 | _]; [| done].
    destruct logs; [done | simpl in H0; lia].
  - run_task.
    by destruct (find _ _);
      [| destruct (Tasks.max_sequence_no target test_type (Tasks.db st) =? 0)].
Qed.

Lemma viewtest_shows_kth_witness :
  let st := Tasks.run_all
              [Tasks.AddTask sample_env 1 "Anomaly Testing" 3 None None]
              (Tasks.start Tasks.empty_tables) in
  ∃ r, (Tasks.viewtest sample_env 1 "Anomaly Testing" 2 st).1 = Tasks.TestFound r
       ∧ Tasks.sequence_no r = Some 2.
Proof.
  intros st.
  assert (Hn : Tasks.numbered (Tasks.db st)).
  { apply (run_numbered
             (Tasks.AddTask sample_env 1 "Anomaly Testing" 3 None None)
             (Tasks.start Tasks.empty_tables)).
    by intros m ty _. }
  pose proof (viewtest_shows_kth sample_env 1 "Anomaly Testing" 2 st Hn eq_refl)
    as [Hfound _].
  eexists. apply Hfound; [lia | reflexivity].
Defined.

(** *** The weekly counter *)

Lemma insert_task_logs_keeps_weekly m ty p c t l d :
  let d' := Tasks.insert_task_logs m ty p c t l d in
  Tasks.weekly_task_logs d' = Tasks.weekly_task_logs d
  ∧ Tasks.weekly_task_logs_seq d' = Tasks.weekly_task_logs_seq d
  ∧ Tasks.weekly_tasks d' = Tasks.weekly_tasks d.
Proof.
  revert d. induction l as [| n l IH]; intros d; [done |].
  unfold Tasks.insert_task_logs. cbn [foldl]. cbv zeta.
  destruct (IH (Tasks.insert_task_log m ty p c t n d)) as (H1 & H2 & H3).
  cbv zeta in H1, H2, H3. unfold Tasks.insert_task_logs in H1, H2, H3.
  by rewrite H1, H2, H3.
Qed.

(** A batch appends one row per number, each of the member and with a key
    of its own taken from the sequence. *)
Lemma insert_weekly_task_logs_rows m ty p c t l d :
  let d' := Tasks.insert_weekly_task_logs m ty p c t l d in
  ∃ rows,
    Tasks.weekly_task_logs d' = Tasks.weekly_task_logs d ++ rows
    ∧ length rows = length l
    ∧ Forall (λ r, Tasks.member_id r = m
                   ∧ Tasks.weekly_task_logs_seq d ≤ Tasks.log_id r
                     < Tasks.weekly_task_logs_seq d') rows
    ∧ NoDup (Tasks.log_id <$> rows)
    ∧ Tasks.weekly_task_logs_seq d ≤ Tasks.weekly_task_logs_seq d'
    ∧ Tasks.weekly_tasks d' = Tasks.weekly_tasks d.
Proof.
  revert d. induction l as [| n l IH]; intros d.
  - exists []. cbn. rewrite app_nil_r.
    split; [done |]. split; [done |]. split; [done |].
    split; [constructor |]. split; [lia | done].
  - unfold Tasks.insert_weekly_task_logs. cbn [foldl]. cbv zeta.
    destruct (IH (Tasks.insert_weekly_task_log m ty p c t n d))
      as (rows & Hrows & Hlen & Hall & Hnd & Hseq & Hw).
    cbv zeta in Hrows, Hall, Hseq, Hw.
    unfold Tasks.insert_weekly_task_logs in Hrows, Hall, Hseq, Hw.
    cbn [Tasks.weekly_task_logs Tasks.weekly_task_logs_seq Tasks.weekly_tasks
         Tasks.insert_weekly_task_log] in Hrows, Hall, Hseq, Hw.
    exists (Tasks.new_row (Tasks.weekly_task_logs_seq d) m ty p c t n :: rows).
    rewrite Hrows, <- app_assoc. split; [done |].
    split; [simpl; by rewrite Hlen |]. split.
    { constructor; [cbn; split; [done | lia] |].
      eapply Forall_impl; [exact Hall |]. cbn. intros r (? & ? & ?).
      split; [done | lia]. }
    split.
    { rewrite fmap_cons. apply NoDup_cons. split; [| done].
      intros Hin. apply list_elem_of_fmap in Hin as (r & Hid & Hr).
      rewrite Forall_forall in Hall. destruct (Hall r Hr) as (_ & Hlo & _).
      cbn in Hid. lia. }
    split; [lia | done].
Qed.

Lemma counted_batch m ty p c t l d :
  Tasks.counted d →
  Tasks.counted
    (Tasks.add_weekly_tasks m (Z.of_nat (length l))
       (Tasks.insert_weekly_task_logs m ty p c t l d)).
Proof.
  intros (Hnd & Hlt & Hcount).
  destruct (insert_weekly_task_logs_rows m ty p c t l d)
    as (rows & Hrows & Hlen & Hall & Hnd' & Hseq & Hw).
  cbv zeta in Hrows, Hall, Hseq, Hw.
  unfold Tasks.counted.
  cbn [Tasks.weekly_task_logs Tasks.weekly_task_logs_seq Tasks.weekly_tasks
       Tasks.add_weekly_tasks].
  rewrite Hrows, Hw. split; [| split].
  - rewrite fmap_app. apply NoDup_app. split; [done |]. split; [| done].
    intros k Hk Hk'.
    apply list_elem_of_fmap in Hk as (r & -> & Hr).
    apply list_elem_of_fmap in Hk' as (r' & Hid & Hr').
    rewrite Forall_forall in Hlt, Hall.
    specialize (Hlt r Hr). destruct (Hall r' Hr') as (_ & Hlo & _). lia.
  - apply Forall_app. split.
    + eapply Forall_impl; [exact Hlt |]. cbn. intros r Hr. lia.
    + eapply Forall_impl; [exact Hall |]. cbn. by intros r (_ & _ & ?).
  - intros m'. rewrite filter_app, length_app, Nat2Z.inj_add, <- Hcount.
    destruct (decide (m' = m)) as [-> | Hne].
    + rewrite lookup_insert_eq.
      assert (Hfil : filter (λ r, Tasks.member_id r = m) rows = rows).
      { clear -Hall. induction rows as [| r rows IH]; [done |].
        apply Forall_cons in Hall as [(Hm & _) Hall].
        rewrite filter_cons, decide_True by done. by rewrite IH. }
      rewrite Hfil, Hlen.
      destruct (Tasks.weekly_tasks d !! m); cbn; unfold id; lia.
    + rewrite lookup_insert_ne by done.
      assert (Hfil : filter (λ r, Tasks.member_id r = m') rows = []).
      { clear -Hall Hne. induction rows as [| r rows IH]; [done |].
        apply Forall_cons in Hall as [(Hm & _) Hall].
        rewrite filter_cons, decide_False by congruence. by apply IH. }
      rewrite Hfil. simpl. lia.
Qed.

Lemma filter_delete_length (P : Tasks.TaskLog → Prop) `{∀ x, Decision (P x)}
    (l : list Tasks.TaskLog) (x : Tasks.TaskLog) :
  NoDup (Tasks.log_id <$> l) → x ∈ l →
  length (filter P l)
  = (length (filter P (filter (λ r, Tasks.log_id r ≠ Tasks.log_id x) l))
     + (if decide (P x) then 1 else 0))%nat.
Proof.
  induction l as [| y l IH]; intros Hnd Hx; [by apply elem_of_nil in Hx |].
  rewrite fmap_cons in Hnd. apply NoDup_cons in Hnd as [Hy Hnd].
  rewrite (filter_cons (λ r, Tasks.log_id r ≠ Tasks.log_id x)).
  apply elem_of_cons in Hx as [-> | Hx].
  - rewrite decide_False by (intros Hc; by apply Hc).
    assert (Hrest : filter (λ r, Tasks.log_id r ≠ Tasks.log_id y) l = l).
    { clear -Hy. induction l as [| z l IH]; [done |].
      rewrite fmap_cons in Hy. apply not_elem_of_cons in Hy as [Hz Hy].
      rewrite filter_cons, decide_True by congruence. by rewrite IH. }
    rewrite Hrest, filter_cons. destruct (decide (P y)); simpl; lia.
  - assert (Hne : Tasks.log_id y ≠ Tasks.log_id x).
    { intros Heq. apply Hy. rewrite Heq. by apply list_elem_of_fmap_2. }
    rewrite decide_True by done. rewrite !filter_cons.
    specialize (IH Hnd Hx). destruct (decide (P y)); simpl; lia.
Qed.

Lemma counted_remove m l d :
  Tasks.counted d →
  l ∈ filter (λ r, Tasks.member_id r = m) (Tasks.weekly_task_logs d) →
  Tasks.counted
    (Tasks.decrement_weekly_tasks m (Tasks.delete_weekly_log (Tasks.log_id l) d))
  ∧ Tasks.weekly_tasks
      (Tasks.decrement_weekly_tasks m
         (Tasks.delete_weekly_log (Tasks.log_id l) d)) !! m
    = Some (default 0 (Tasks.weekly_tasks d !! m) - 1)
  ∧ 1 ≤ default 0 (Tasks.weekly_tasks d !! m).
Proof.
  intros (Hnd & Hlt & Hcount) Hl.
  apply list_elem_of_filter in Hl as [Hm Hl].
  assert (Hpos : 1 ≤ default 0 (Tasks.weekly_tasks d !! m)).
  { rewrite Hcount.
    assert (Hin : l ∈ filter (λ r, Tasks.member_id r = m)
                        (Tasks.weekly_task_logs d))
      by (by apply list_elem_of_filter).
    destruct (filter _ _); [by apply elem_of_nil in Hin | simpl; lia]. }
  destruct (Tasks.weekly_tasks d !! m) as [k |] eqn:Hk; [| simpl in Hpos; lia].
  cbn [default from_option id] in Hpos. unfold id in Hpos.
  unfold Tasks.counted.
  cbn [Tasks.weekly_task_logs Tasks.weekly_task_logs_seq Tasks.weekly_tasks
       Tasks.decrement_weekly_tasks Tasks.delete_weekly_log].
  split; [split; [| split] | split].
  - eapply sublist_NoDup; [exact Hnd |]. apply fmap_sublist, sublist_filter.
  - apply Forall_forall. intros r Hr. apply list_elem_of_filter in Hr as [_ Hr].
    rewrite Forall_forall in Hlt. by apply Hlt.
  - intros m'.
    pose proof (filter_delete_length (λ r, Tasks.member_id r = m')
                  (Tasks.weekly_task_logs d) l Hnd Hl) as Hlen.
    specialize (Hcount m').
    destruct (decide (m' = m)) as [-> | Hne].
    + rewrite lookup_alter_eq, Hk. cbn. unfold id.
      rewrite Hk in Hcount. cbn in Hcount. unfold id in Hcount.
      rewrite decide_True in Hlen by done. lia.
    + rewrite lookup_alter_ne by done.
      rewrite decide_False in Hlen by congruence. lia.
  - rewrite lookup_alter_eq, Hk. cbn. unfold id. f_equal. lia.
  - cbn. unfold id. lia.
Qed.

Lemma first_latest_ok : Tasks.latest_ok Tasks.first_latest.
Proof.
  intros rows. induction rows as [| r rows IH]; [done |].
  cbn [Tasks.first_latest].
  destruct (Tasks.first_latest rows) as [r' |].
  - destruct IH as [Hin Hmax].
    destruct (Z.ltb_spec (Tasks.timestamp r) (Tasks.timestamp r')).
    + split; [by right |]. intros x Hx.
      apply elem_of_cons in Hx as [-> | Hx]; [lia | by apply Hmax].
    + split; [by left |]. intros x Hx.
      apply elem_of_cons in Hx as [-> | Hx]; [lia |].
      specialize (Hmax x Hx). lia.
  - subst rows. split; [by left |]. intros x Hx.
    apply list_elem_of_singleton in Hx as ->. lia.
Qed.

Lemma run_counted c st :
  Tasks.counted (Tasks.db st) → Tasks.valid c →
  Tasks.counted (Tasks.db (Tasks.run c st)).
Proof.
  intros Hc Hv.
  destruct c as [env [|] m ty proof cv | env m ty count cm proof
                | env latest m |]; cbn [Tasks.run].
  - destruct (on_submit_db env m ty proof cv st) as (c & t1 & t2 & ->).
    match goal with |- context [Tasks.insert_weekly_task_log m ty ?p c t2 ?s ?d] =>
      apply (counted_batch m ty p c t2 [s] d) end.
    by destruct Hc as (? & ? & ?).
  - done.
  - destruct (addtask_db env m ty count cm proof st) as (c & t & ->).
    cbn in Hv.
    set (numbers := Tasks.batch_numbers _ count).
    assert (Hlen : Z.of_nat (length numbers) = count).
    { unfold numbers, Tasks.batch_numbers.
      destruct (Tasks.in_test_types ty);
        rewrite ?length_fmap, ?length_seq, ?length_replicate; lia. }
    rewrite <- Hlen at 1. apply counted_batch.
    destruct (insert_task_logs_keeps_weekly m ty proof c t numbers (Tasks.db st))
      as (H1 & H2 & H3).
    cbv zeta in H1, H2, H3. unfold Tasks.counted. rewrite H1, H2, H3.
    exact Hc.
  - pose proof (removelastlog_db env latest m st) as Hr. cbv zeta in Hr.
    cbn in Hv. specialize (Hv (filter (λ r, Tasks.member_id r = m)
                                 (Tasks.weekly_task_logs (Tasks.db st)))).
    destruct (latest _) as [l |].
    + destruct Hr as [_ ->]. destruct Hv as [Hin _].
      by apply counted_remove.
    + by rewrite Hr.
  - unfold Tasks.counted. cbn. split; [constructor |]. split; [constructor |].
    done.
Qed.

(** X21.  The weekly counter counts the weekly log: if the counter of
    every member equals the number of the member's rows in
    [weekly_task_logs], it still does after any sequence of form submissions,
    management batches of 1 to 100 tasks, removals of the last weekly log and
    weekly resets. *)
Theorem weekly_counter_counts_rows cmds st :
  Tasks.counted (Tasks.db st) → Forall Tasks.valid cmds →
  Tasks.counted (Tasks.db (Tasks.run_all cmds st)).
Proof.
  revert st. induction cmds as [| c cmds IH]; intros st Hc Hv;
    cbn [Tasks.run_all]; [done |].
  apply Forall_cons in Hv as [Hv Hvs].
  apply IH; [by apply run_counted | done].
Qed.

Lemma weekly_counter_counts_rows_witness :
  let st' := Tasks.run_all
               [Tasks.Submit sample_env true 1 "SCP Interviews" "url" "";
                Tasks.AddTask sample_env 1 "Cross-Testing" 3 None None;
                Tasks.RemoveLast sample_env Tasks.first_latest 1]
               (Tasks.start Tasks.empty_tables) in
  Tasks.counted (Tasks.db st')
  ∧ Tasks.weekly_tasks (Tasks.db st') !! 1 = Some 3.
Proof.
  intros st'. split; [| reflexivity].
  apply weekly_counter_counts_rows.
  - split; [constructor |]. split; [constructor | done].
  - repeat constructor; [cbn; lia .. | apply first_latest_ok].
Defined.

(** X22.  [/removelastlog] takes one row out of the weekly log and one off
    the counter, and leaves the permanent log alone.  When the member has no
    weekly row it says so and changes nothing; otherwise the row it removes
    is one of the member's rows with the latest timestamp, every other row
    stays, and the count it reports is the counter before, which was at least
    1, less one. *)
Theorem removelastlog_removes_latest env latest m st :
  Tasks.counted (Tasks.db st) → Tasks.latest_ok latest →
  let rows := filter (λ r, Tasks.member_id r = m)
                (Tasks.weekly_task_logs (Tasks.db st)) in
  let r := Tasks.removelastlog env latest m st in
  Tasks.task_logs (Tasks.db r.2) = Tasks.task_logs (Tasks.db st)
  ∧ match r.1 with
    | Tasks.NoWeeklyTasks => rows = [] ∧ r.2 = st
    | Tasks.RemovedLast l new_count =>
        l ∈ rows
        ∧ Forall (λ r', Tasks.timestamp r' ≤ Tasks.timestamp l) rows
        ∧ Tasks.weekly_task_logs (Tasks.db r.2)
          = filter (λ r', Tasks.log_id r' ≠ Tasks.log_id l)
              (Tasks.weekly_task_logs (Tasks.db st))
        ∧ length (Tasks.weekly_task_logs (Tasks.db st))
          = S (length (Tasks.weekly_task_logs (Tasks.db r.2)))
        ∧ 1 ≤ default 0 (Tasks.weekly_tasks (Tasks.db st) !! m)
        ∧ new_count = Some (default 0 (Tasks.weekly_tasks (Tasks.db st) !! m) - 1)
    end.
Proof.
  intros Hc Hok rows r.
  pose proof (removelastlog_db env latest m st) as Hr. cbv zeta in Hr.
  fold rows r in Hr. specialize (Hok rows).
  destruct (latest rows) as [l |].
  - destruct Hr as [Hreply Hdb]. rewrite Hreply, Hdb.
    destruct Hok as [Hin Hmax].
    destruct (counted_remove m l (Tasks.db st) Hc Hin) as (_ & Hnew & Hpos).
    split; [done |]. split; [done |].
    split; [by apply Forall_forall |]. split; [done |]. split; [| by split].
    cbn [Tasks.weekly_task_logs Tasks.decrement_weekly_tasks
         Tasks.delete_weekly_log].
    destruct Hc as (Hnd & _ & _).
    apply list_elem_of_filter in Hin as [_ Hin].
    pose proof (filter_delete_length (λ _, True)
                  (Tasks.weekly_task_logs (Tasks.db st)) l Hnd Hin) as Hlen.
    rewrite decide_True in Hlen by done.
    rewrite !(filter_all (λ _, True)) in Hlen by (by apply Forall_forall).
    lia.
  - rewrite Hr. by split.
Qed.

Lemma removelastlog_removes_latest_witness :
  let st := Tasks.run_all
              [Tasks.Submit sample_env true 1 "Cross-Testing" "url" ""]
              (Tasks.start Tasks.empty_tables) in
  let r := Tasks.removelastlog sample_env Tasks.first_latest 1 st in
  Tasks.task_logs (Tasks.db r.2) = Tasks.task_logs (Tasks.db st)
  ∧ Tasks.weekly_task_logs (Tasks.db r.2) = []
  ∧ length (Tasks.task_logs (Tasks.db r.2)) = 1%nat.
Proof.
  intros st r.
  assert (Hc : Tasks.counted (Tasks.db st)).
  { apply (run_counted
             (Tasks.Submit sample_env true 1 "Cross-Testing" "url" "")
             (Tasks.start Tasks.empty_tables)); [| done].
    split; [constructor |]. split; [constructor | done]. }
  pose proof (removelastlog_removes_latest sample_env Tasks.first_latest 1 st
                Hc first_latest_ok) as H.
  cbv zeta in H. destruct H as [Hlogs _].
  split; [exact Hlogs |]. split; reflexivity.
Defined.
